(** * open-inbox: mail-to-memo sync, mail sending and calendar events

    A shallow embedding of [fetch_email.py], [send_email.py] and
    [create_calendar_event.py], and the properties of the specification
    checked against it.

    Layout:
    - [Py]: the parts of the Python runtime the scripts call (strings,
      base64, UTF-8 decoding, [datetime.strptime], dict values);
    - [Api]: the objects exchanged with the libraries and the remote
      services (google-auth [Credentials], Gmail messages, HTTP responses);
    - [Eff]: the effect monad (exceptions, [sys.exit], stdout, the token
      file, the remote services and the log of the calls made to them);
    - [FetchEmail], [SendEmail], [CreateCalendarEvent]: one module per
      source file, definitions named as in the source;
    - [Fake]: a test double for the outside world and the inputs of the
      examples; [Spec]: the vocabulary of the properties;
    - the properties: what a computation can call, the note sink, the sync
      loop and the whole run, obtaining a credential, calendar events,
      fetched messages, and the examples of the specification. *)

From Stdlib Require Import ZArith String Ascii List DecimalString Bool Lia.
From stdpp Require Import gmap list.

Open Scope Z_scope.

(* ===================================================================== *)
(** * The Python runtime                                                  *)
(* ===================================================================== *)

Module Py.

(** A Python [str] is a sequence of Unicode code points; [bytes] is a
    sequence of integers in [0, 256). *)
Definition pystr := list Z.
Definition bytes := list Z.

(** String literals of the source. *)
Definition lit (s : string) : pystr :=
  map (fun a => Z.of_N (N_of_ascii a)) (list_ascii_of_string s).
Arguments lit : simpl never.

(** [str(n)] and [f"{n}"] for an [int]. *)
Definition str_of_int (z : Z) : pystr := lit (NilZero.string_of_int (Z.to_int z)).

Definition pystr_eqb (a b : pystr) : bool := bool_decide (a = b).

(** [s[:n]] for a non-negative literal [n]. *)
Definition slice_to (n : nat) (s : pystr) : pystr := firstn n s.
Arguments slice_to : simpl never.

(** [s.replace(a, b)] for one-character [a] and [b]. *)
Definition replace_char (a b : Z) (s : pystr) : pystr :=
  map (fun c => if c =? a then b else c) s.

(** [s.split(sep)[0]] for a one-character [sep]: the text before the first
    separator, the whole string when there is none. *)
Fixpoint split_head (sep : Z) (s : pystr) : pystr :=
  match s with
  | [] => []
  | c :: rest => if c =? sep then [] else c :: split_head sep rest
  end.

(** Truthiness of [None]-or-string values ([if x:], [not x]). *)
Definition truthy_str (o : option pystr) : bool :=
  match o with
  | Some (_ :: _) => true
  | _ => false
  end.

(** Why a [ValueError] was raised.  [CouldNotParseDatetime] is the one the
    scripts raise themselves, with the message
    [f"Could not parse datetime: {dt_str}"]; [MissingFields] is the one of
    google-auth for a token file without the keys it needs; the others come
    from the runtime. *)
Inductive value_error :=
| NonAsciiArgument
| MissingFields
| BadDirective
| DoesNotMatchFormat
| UnconvertedDataRemains
| OutOfRange
| CouldNotParseDatetime (dt_str : pystr).

(** Exceptions the scripts can meet.  The scripts catch none of them, except
    the [ValueError] of [strptime] inside [parse_datetime]. *)
Inductive exn :=
| ValueError (why : value_error)
| BinasciiError
| OverflowError
| KeyError (key : pystr)
| RefreshError
| HttpError (status : Z)
| ConnectionError.

(** A computation without side effects that may raise. *)
Inductive result (A : Type) :=
| Ok (a : A)
| Err (e : exn).
Arguments Ok {A} a.
Arguments Err {A} e.

Definition rbind {A B} (r : result A) (k : A -> result B) : result B :=
  match r with
  | Ok a => k a
  | Err e => Err e
  end.

(* --------------------------------------------------------------------- *)
(** ** [base64.urlsafe_b64decode]                                         *)
(* --------------------------------------------------------------------- *)

(** [binascii]'s decoding table: the 6-bit value of an alphabet character,
    [None] for every other byte. *)
Definition table_a2b_base64 (c : Z) : option Z :=
  if (65 <=? c) && (c <=? 90) then Some (c - 65)
  else if (97 <=? c) && (c <=? 122) then Some (c - 97 + 26)
  else if (48 <=? c) && (c <=? 57) then Some (c - 48 + 52)
  else if c =? 43 then Some 62
  else if c =? 47 then Some 63
  else None.

Definition BASE64_PAD : Z := 61.

(** The loop of [binascii.a2b_base64] in its default, non-strict mode.
    [quad_pos] counts the data characters of the current group of four,
    [leftchar] holds the bits not yet written, [pads] the padding
    characters seen since the last data character, [out] the bytes written
    so far.  Characters outside the alphabet are skipped; a padding
    sequence that completes the group ends the decoding; data that ends
    inside a group raises [binascii.Error] (one leftover character:
    invalid length, two or three: incorrect padding). *)
Fixpoint a2b_base64_loop (s : list Z) (quad_pos leftchar pads : Z) (out : bytes)
  : result bytes :=
  match s with
  | [] =>
      if quad_pos =? 0 then Ok out
      else Err BinasciiError
  | this_ch :: rest =>
      if this_ch =? BASE64_PAD then
        if 2 <=? quad_pos then
          if 4 <=? quad_pos + (pads + 1) then Ok out
          else a2b_base64_loop rest quad_pos leftchar (pads + 1) out
        else a2b_base64_loop rest quad_pos leftchar pads out
      else
        match table_a2b_base64 this_ch with
        | None => a2b_base64_loop rest quad_pos leftchar pads out
        | Some v =>
            if quad_pos =? 0 then a2b_base64_loop rest 1 v 0 out
            else if quad_pos =? 1 then
              a2b_base64_loop rest 2 (Z.land v 15) 0
                (out ++ [Z.lor (Z.shiftl leftchar 2) (Z.shiftr v 4)])
            else if quad_pos =? 2 then
              a2b_base64_loop rest 3 (Z.land v 3) 0
                (out ++ [Z.lor (Z.shiftl leftchar 4) (Z.shiftr v 2)])
            else
              a2b_base64_loop rest 0 0 0
                (out ++ [Z.lor (Z.shiftl leftchar 6) v])
        end
  end.

Definition a2b_base64 (s : bytes) : result bytes := a2b_base64_loop s 0 0 0 [].

(** [base64.urlsafe_b64decode(s)] for a [str] argument: the string is
    encoded as ASCII ([ValueError] when it is not ASCII), [-] and [_] are
    translated to [+] and [/], and the result is decoded. *)
Definition urlsafe_b64decode (s : pystr) : result bytes :=
  if forallb (fun c => (0 <=? c) && (c <? 128)) s then
    a2b_base64 (map (fun c => if c =? 45 then 43 else if c =? 95 then 47 else c) s)
  else Err (ValueError NonAsciiArgument).

(* --------------------------------------------------------------------- *)
(** ** [bytes.decode('utf-8', errors='ignore')]                           *)
(* --------------------------------------------------------------------- *)

Definition is_continuation (b : Z) : bool := (128 <=? b) && (b <? 192).

(** CPython's UTF-8 decoder with the [ignore] error handler: an invalid
    start byte is dropped; at an invalid continuation byte the bytes of the
    sequence read so far are dropped and decoding resumes at the offending
    byte; a sequence cut off by the end of the data is dropped. Overlong
    forms, surrogates and code points above U+10FFFF are invalid. *)
Fixpoint utf8_decode_ignore (bs : bytes) : pystr :=
  match bs with
  | [] => []
  | b1 :: t1 =>
      if b1 <? 128 then b1 :: utf8_decode_ignore t1
      else if b1 <? 194 then utf8_decode_ignore t1
      else if b1 <? 224 then
        match t1 with
        | [] => []
        | b2 :: t2 =>
            if is_continuation b2
            then (Z.lor (Z.shiftl (Z.land b1 31) 6) (Z.land b2 63)) :: utf8_decode_ignore t2
            else utf8_decode_ignore t1
        end
      else if b1 <? 240 then
        match t1 with
        | [] => []
        | b2 :: t2 =>
            if negb (is_continuation b2)
               || (if b2 <? 160 then b1 =? 224 else b1 =? 237)
            then utf8_decode_ignore t1
            else
              match t2 with
              | [] => []
              | b3 :: t3 =>
                  if is_continuation b3
                  then (Z.lor (Z.shiftl (Z.land b1 15) 12)
                          (Z.lor (Z.shiftl (Z.land b2 63) 6) (Z.land b3 63)))
                       :: utf8_decode_ignore t3
                  else utf8_decode_ignore t2
              end
        end
      else if b1 <? 245 then
        match t1 with
        | [] => []
        | b2 :: t2 =>
            if negb (is_continuation b2)
               || (if b2 <? 144 then b1 =? 240 else b1 =? 244)
            then utf8_decode_ignore t1
            else
              match t2 with
              | [] => []
              | b3 :: t3 =>
                  if negb (is_continuation b3) then utf8_decode_ignore t2
                  else
                    match t3 with
                    | [] => []
                    | b4 :: t4 =>
                        if is_continuation b4
                        then (Z.lor (Z.shiftl (Z.land b1 7) 18)
                                (Z.lor (Z.shiftl (Z.land b2 63) 12)
                                   (Z.lor (Z.shiftl (Z.land b3 63) 6) (Z.land b4 63))))
                             :: utf8_decode_ignore t4
                        else utf8_decode_ignore t3
                    end
              end
        end
      else utf8_decode_ignore t1
  end.

(* --------------------------------------------------------------------- *)
(** ** [datetime]                                                         *)
(* --------------------------------------------------------------------- *)

(** A naive [datetime] with microsecond 0 (no format of the scripts reads
    microseconds). *)
Record datetime := mk_datetime {
  year : Z; month : Z; day : Z; hour : Z; minute : Z; second : Z
}.

Definition _is_leap (y : Z) : bool :=
  (y mod 4 =? 0) && (negb (y mod 100 =? 0) || (y mod 400 =? 0)).

Definition _DAYS_IN_MONTH (m : Z) : Z :=
  nth (Z.to_nat m) [-1; 31; 28; 31; 30; 31; 30; 31; 31; 30; 31; 30; 31] (-1).

Definition _DAYS_BEFORE_MONTH (m : Z) : Z :=
  nth (Z.to_nat m) [-1; 0; 31; 59; 90; 120; 151; 181; 212; 243; 273; 304; 334] (-1).

Definition _days_in_month (y m : Z) : Z :=
  if (m =? 2) && _is_leap y then 29 else _DAYS_IN_MONTH m.

Definition _days_before_year (y : Z) : Z :=
  let y := y - 1 in y * 365 + y / 4 - y / 100 + y / 400.

Definition _days_before_month (y m : Z) : Z :=
  _DAYS_BEFORE_MONTH m + (if (2 <? m) && _is_leap y then 1 else 0).

Definition _ymd2ord (y m d : Z) : Z :=
  _days_before_year y + _days_before_month y m + d.

Definition _DI400Y : Z := 146097.
Definition _DI100Y : Z := 36524.
Definition _DI4Y : Z := 1461.
Definition _MAXORDINAL : Z := 3652059.

Definition _ord2ymd (n : Z) : Z * Z * Z :=
  let n := n - 1 in
  let n400 := n / _DI400Y in let n := n mod _DI400Y in
  let y := n400 * 400 + 1 in
  let n100 := n / _DI100Y in let n := n mod _DI100Y in
  let n4 := n / _DI4Y in let n := n mod _DI4Y in
  let n1 := n / 365 in let n := n mod 365 in
  let y := y + n100 * 100 + n4 * 4 + n1 in
  if (n1 =? 4) || (n100 =? 4) then (y - 1, 12, 31)
  else
    let leapyear := (n1 =? 3) && (negb (n4 =? 24) || (n100 =? 3)) in
    let m := Z.shiftr (n + 50) 5 in
    let preceding := _DAYS_BEFORE_MONTH m + (if (2 <? m) && leapyear then 1 else 0) in
    if n <? preceding then
      let m := m - 1 in
      let preceding :=
        preceding - (_DAYS_IN_MONTH m + (if (m =? 2) && leapyear then 1 else 0)) in
      (y, m, n - preceding + 1)
    else (y, m, n - preceding + 1).

(** The checks of the [datetime] constructor. *)
Definition valid_datetime (d : datetime) : bool :=
  (1 <=? year d) && (year d <=? 9999) &&
  (1 <=? month d) && (month d <=? 12) &&
  (1 <=? day d) && (day d <=? _days_in_month (year d) (month d)) &&
  (0 <=? hour d) && (hour d <=? 23) &&
  (0 <=? minute d) && (minute d <=? 59) &&
  (0 <=? second d) && (second d <=? 59).

(** [dt + timedelta(days=days, hours=hours)]: through the ordinal of the
    date and the seconds of the day, [OverflowError] outside years 1..9999. *)
Definition add_timedelta (dt : datetime) (days hours : Z) : result datetime :=
  let secs := hour dt * 3600 + minute dt * 60 + second dt + hours * 3600 in
  let ord := _ymd2ord (year dt) (month dt) (day dt) + days + secs / 86400 in
  let secs := secs mod 86400 in
  if (0 <? ord) && (ord <=? _MAXORDINAL) then
    let '(y, m, d) := _ord2ymd ord in
    Ok (mk_datetime y m d (secs / 3600) ((secs mod 3600) / 60) ((secs mod 3600) mod 60))
  else Err OverflowError.

(** [n] written with at least [width] digits ([%02d], [%04d]), [n >= 0]. *)
Definition zero_pad (width : nat) (n : Z) : pystr :=
  let s := str_of_int n in
  repeat 48 (width - length s) ++ s.

(** [dt.isoformat()] with microsecond 0: [YYYY-MM-DDTHH:MM:SS]. *)
Definition isoformat (dt : datetime) : pystr :=
  zero_pad 4 (year dt) ++ lit "-" ++ zero_pad 2 (month dt) ++ lit "-" ++
  zero_pad 2 (day dt) ++ lit "T" ++ zero_pad 2 (hour dt) ++ lit ":" ++
  zero_pad 2 (minute dt) ++ lit ":" ++ zero_pad 2 (second dt).

(** [dt.strftime('%Y-%m-%d')].  The C library writes [%Y]; glibc does not
    pad a year below 1000, which is what is modelled. *)
Definition strftime_Ymd (dt : datetime) : pystr :=
  str_of_int (year dt) ++ lit "-" ++ zero_pad 2 (month dt) ++ lit "-" ++
  zero_pad 2 (day dt).

(* --------------------------------------------------------------------- *)
(** ** [datetime.strptime]                                                *)
(* --------------------------------------------------------------------- *)

(** [_strptime] turns the format into a regular expression and matches it
    with [re.match]: the first match in backtracking order is taken, and
    text left over after it is an error.  A matcher returns every way to
    match a prefix, in the order a backtracking engine tries them, as pairs
    of the matched text and the rest. *)
Inductive re :=
| Cls (p : Z -> bool)
| Seq (a b : re)
| Alt (a b : re).

Fixpoint re_match (r : re) (s : pystr) : list (pystr * pystr) :=
  match r with
  | Cls p =>
      match s with
      | c :: rest => if p c then [([c], rest)] else []
      | [] => []
      end
  | Seq a b =>
      flat_map (fun m1 => map (fun m2 => (fst m1 ++ fst m2, snd m2))
                            (re_match b (snd m1)))
               (re_match a s)
  | Alt a b => re_match a s ++ re_match b s
  end.

(** The decimal digits of Unicode 14.0 (general category Nd), the version
    of CPython 3.11: 66 runs of ten code points, each run the digits 0 to 9
    of one script in order.  The list holds the zero of every run. *)
Definition decimal_zeros : list Z :=
  [ 48; 1632; 1776; 1984; 2406; 2534; 2662; 2790; 2918; 3046; 3174; 3302;
    3430; 3558; 3664; 3792; 3872; 4160; 4240; 6112; 6160; 6470; 6608; 6784;
    6800; 6992; 7088; 7232; 7248; 42528; 43216; 43264; 43472; 43504; 43600;
    44016; 65296; 66720; 68912; 69734; 69872; 69942; 70096; 70384; 70736;
    70864; 71248; 71360; 71472; 71904; 72016; 72784; 73040; 73120; 92768;
    92864; 93008; 120782; 120792; 120802; 120812; 120822; 123200; 123632;
    125264; 130032 ].

(** [unicodedata.decimal(c)]: the value of a decimal digit, [None] for
    every other character. *)
Definition decimal (c : Z) : option Z :=
  option_map (fun zero => c - zero)
    (find (fun zero => (zero <=? c) && (c <? zero + 10)) decimal_zeros).

(** [c.isdecimal()], which is what [\d] matches in a [str] pattern. *)
Definition isdecimal (c : Z) : bool :=
  match decimal c with Some _ => true | None => false end.

(** Character classes: one character, a range of ASCII digits ([[0-5]]),
    and [\d]. *)
Definition ch (c : string) : re := Cls (fun x => bool_decide ([x] = lit c)).
Definition rng (lo hi : Z) : re := Cls (fun x => (48 + lo <=? x) && (x <=? 48 + hi)).
Definition digit : re := Cls isdecimal.

(** The directives of [_strptime.TimeRE] that the scripts use. *)
Definition re_Y : re := Seq digit (Seq digit (Seq digit digit)).
Definition re_m : re :=
  Alt (Seq (ch "1") (rng 0 2)) (Alt (Seq (ch "0") (rng 1 9)) (rng 1 9)).
Definition re_d : re :=
  Alt (Seq (ch "3") (rng 0 1))
    (Alt (Seq (rng 1 2) digit)
       (Alt (Seq (ch "0") (rng 1 9))
          (Alt (rng 1 9) (Seq (ch " ") (rng 1 9))))).
Definition re_H : re :=
  Alt (Seq (ch "2") (rng 0 3)) (Alt (Seq (rng 0 1) digit) digit).
Definition re_M : re := Alt (Seq (rng 0 5) digit) digit.
Definition re_S : re :=
  Alt (Seq (ch "6") (rng 0 1)) (Alt (Seq (rng 0 5) digit) digit).

Definition directive (c : Z) : option re :=
  if c =? 89 then Some re_Y        (* Y *)
  else if c =? 109 then Some re_m  (* m *)
  else if c =? 100 then Some re_d  (* d *)
  else if c =? 72 then Some re_H   (* H *)
  else if c =? 77 then Some re_M   (* M *)
  else if c =? 83 then Some re_S   (* S *)
  else None.

(** [\s] on [str]: the Unicode white space characters. *)
Definition is_space (c : Z) : bool :=
  ((9 <=? c) && (c <=? 13)) || ((28 <=? c) && (c <=? 32)) ||
  (c =? 133) || (c =? 160) || (c =? 5760) ||
  ((8192 <=? c) && (c <=? 8202)) || (c =? 8232) || (c =? 8233) ||
  (c =? 8239) || (c =? 8287) || (c =? 12288).

Inductive fmt_item :=
| Group (name : Z) (r : re)
| Whitespace
| Literal (c : Z).

(** [TimeRE.pattern]: [%x] becomes the group of directive [x], a run of
    white space becomes [\s+], every other character stands for itself.
    [None] for a directive outside the table above or a trailing [%]. *)
Fixpoint compile_format (after_space : bool) (fmt : pystr) : option (list fmt_item) :=
  match fmt with
  | [] => Some []
  | c :: rest =>
      if c =? 37 then
        match rest with
        | [] => None
        | d :: rest' =>
            match directive d with
            | Some r => option_map (cons (Group d r)) (compile_format false rest')
            | None => None
            end
        end
      else if is_space c then
        if after_space then compile_format true rest
        else option_map (cons Whitespace) (compile_format true rest)
      else option_map (cons (Literal c)) (compile_format false rest)
  end.

(** The ways [\s+] can match, longest first. *)
Fixpoint ws_splits (s : pystr) : list pystr :=
  match s with
  | c :: rest => if is_space c then ws_splits rest ++ [rest] else []
  | [] => []
  end.

(** The pattern is compiled with [IGNORECASE]. *)
Definition lower (c : Z) : Z := if (65 <=? c) && (c <=? 90) then c + 32 else c.

Fixpoint fmt_match (items : list fmt_item) (s : pystr)
  : list (list (Z * pystr) * pystr) :=
  match items with
  | [] => [([], s)]
  | Group name r :: items' =>
      flat_map (fun m => map (fun k => ((name, fst m) :: fst k, snd k))
                           (fmt_match items' (snd m)))
               (re_match r s)
  | Whitespace :: items' => flat_map (fmt_match items') (ws_splits s)
  | Literal c :: items' =>
      match s with
      | x :: rest => if lower x =? lower c then fmt_match items' rest else []
      | [] => []
      end
  end.

(** [int(s)] on the text of a group: a blank in front (the last
    alternative of [%d]) is skipped, every other character is a decimal
    digit and counts with its value. *)
Definition int_of_group (s : pystr) : Z :=
  fold_left (fun acc c => if c =? 32 then acc else acc * 10 + default 0 (decimal c)) s 0.

Definition group_value (name : string) (default : Z) (groups : list (Z * pystr)) : Z :=
  match find (fun g => bool_decide ([fst g] = lit name)) groups with
  | Some g => int_of_group (snd g)
  | None => default
  end.

(** [datetime.strptime(data_string, format)]. *)
Definition strptime (data_string format : pystr) : result datetime :=
  match compile_format false format with
  | None => Err (ValueError BadDirective)
  | Some items =>
      match fmt_match items data_string with
      | [] => Err (ValueError DoesNotMatchFormat)
      | (groups, rest) :: _ =>
          match rest with
          | _ :: _ => Err (ValueError UnconvertedDataRemains)
          | [] =>
              let dt := mk_datetime (group_value "Y" 1900 groups)
                          (group_value "m" 1 groups) (group_value "d" 1 groups)
                          (group_value "H" 0 groups) (group_value "M" 0 groups)
                          (group_value "S" 0 groups) in
              if valid_datetime dt then Ok dt else Err (ValueError OutOfRange)
          end
      end
  end.

(* --------------------------------------------------------------------- *)
(** ** JSON-like values                                                   *)
(* --------------------------------------------------------------------- *)

(** The values the scripts put into request bodies.  A [dict] keeps its
    keys in insertion order. *)
#[warnings="-register-all"]
Inductive pyval :=
| VNone
| VBool (b : bool)
| VInt (z : Z)
| VStr (s : pystr)
| VList (l : list pyval)
| VDict (d : list (pystr * pyval)).

Definition pydict := list (pystr * pyval).

(** [d[k]] as a lookup, [None] where Python raises [KeyError]. *)
Fixpoint dict_get (k : pystr) (d : pydict) : option pyval :=
  match d with
  | [] => None
  | (k', v) :: rest => if pystr_eqb k' k then Some v else dict_get k rest
  end.

(** [d[k] = v]: an existing key keeps its position, a new key goes last. *)
Fixpoint dict_set (k : pystr) (v : pyval) (d : pydict) : pydict :=
  match d with
  | [] => [(k, v)]
  | (k', v') :: rest =>
      if pystr_eqb k' k then (k, v) :: rest else (k', v') :: dict_set k v rest
  end.

End Py.

(* ===================================================================== *)
(** * Objects of the libraries and of the remote services                 *)
(* ===================================================================== *)

Module Api.
Import Py.

(** [google.oauth2.credentials.Credentials], as far as the scripts and
    [to_json] read it.  [expired] is the value of the property during the
    run (the expiry compared with the clock); [scopes] is the attribute of
    the object, which is not what the token was granted (see
    [from_authorized_user_file]). *)
Record Credentials := mk_credentials {
  token : option pystr;
  refresh_token : option pystr;
  client_id : option pystr;
  client_secret : option pystr;
  expired : bool;
  scopes : list pystr
}.

(** [creds.valid]: a token is present and is not expired. *)
Definition valid (c : Credentials) : bool :=
  match token c with
  | Some _ => negb (expired c)
  | None => false
  end.

(** A key of the JSON object in [token.json] that holds a string: the key
    can be missing, and it can hold [null]. *)
Inductive json_key :=
| Missing
| Null
| Str (s : pystr).

(** [key in info]. *)
Definition has_key (k : json_key) : bool :=
  match k with
  | Missing => false
  | _ => true
  end.

(** [info.get(key)]. *)
Definition key_value (k : json_key) : option pystr :=
  match k with
  | Str s => Some s
  | _ => None
  end.

(** The entry [to_json] writes for an attribute: it removes the entries
    whose value is [None]. *)
Definition json_entry (v : option pystr) : json_key :=
  match v with
  | Some s => Str s
  | None => Missing
  end.

(** The JSON object in [token.json].  [info_expired] stands for its expiry:
    the time written there has passed when the file is loaded, or the file
    has no expiry, which the loader takes for expired.  [info_scopes] is the
    scope list of the credential that was saved. *)
Record authorized_user_info := mk_info {
  info_token : json_key;
  info_refresh_token : json_key;
  info_client_id : json_key;
  info_client_secret : json_key;
  info_expired : bool;
  info_scopes : list pystr
}.

(** [creds.to_json()]: the attributes of the credential, those that are
    [None] left out. *)
Definition to_json (c : Credentials) : authorized_user_info :=
  mk_info (json_entry (token c)) (json_entry (refresh_token c))
    (json_entry (client_id c)) (json_entry (client_secret c))
    (expired c) (scopes c).

(** The keys [from_authorized_user_info] asks for: [refresh_token],
    [client_id] and [client_secret]; a value of [null] will do. *)
Definition has_needed_keys (info : authorized_user_info) : bool :=
  has_key (info_refresh_token info) && has_key (info_client_id info)
  && has_key (info_client_secret info).

(** The object the loader builds once the keys are there: token, refresh
    token, client and expiry come from the file, the scopes of the object
    are the ones passed in; the file's own list is not read. *)
Definition credentials_of (info : authorized_user_info) (scopes : list pystr) : Credentials :=
  mk_credentials (key_value (info_token info)) (key_value (info_refresh_token info))
    (key_value (info_client_id info)) (key_value (info_client_secret info))
    (info_expired info) scopes.

(** [Credentials.from_authorized_user_file(path, scopes)] with a scope list
    given, on a file that holds the JSON object [info]: [ValueError] when
    one of the needed keys is missing. *)
Definition from_authorized_user_file (info : authorized_user_info) (scopes : list pystr)
  : result Credentials :=
  if has_needed_keys info then Ok (credentials_of info scopes)
  else Err (ValueError MissingFields).

(** The object [build(api, version, credentials=creds)] returns. *)
Record Service := mk_service {
  api : pystr;
  version : pystr;
  credentials : Credentials
}.

(** A Gmail message in [format='full'], as far as the scripts read it. *)
Record header := mk_header { h_name : pystr; h_value : pystr }.

(** A part has a [mimeType] and a [body] whose [data] key may be missing. *)
Record part := mk_part { p_mimeType : pystr; p_data : option pystr }.

(** [pl_parts] is [None] when the payload has no [parts] key.  [pl_body] is
    [None] when it has no [body] key, [Some None] when the body has no
    [data] key. *)
Record payload := mk_payload {
  pl_headers : list header;
  pl_parts : option (list part);
  pl_body : option (option pystr)
}.

(** The event the Calendar API returns, as far as the scripts read it:
    each key may be missing. *)
Record created_event := mk_created_event {
  ce_summary : option pystr;
  ce_htmlLink : option pystr
}.

(** A [requests] response. *)
Record response := mk_response { status_code : Z; text : pystr }.

End Api.

(* ===================================================================== *)
(** * Effects                                                             *)
(* ===================================================================== *)

Module Eff.
Import Py Api.

(** The services behind the network and the operator at the browser.  Each
    operation reads and updates a state [R] of the outside world and may
    raise. *)
Class Remote (R : Type) := {
  (** [creds.refresh(Request())]: the credential as the library leaves it
      after the exchange with the token endpoint *)
  oauth_refresh : Credentials -> R -> result Credentials * R;
  (** [InstalledAppFlow.from_client_secrets_file(path, scopes)] and
      [flow.run_local_server(port=0)]: the credential the grant gives *)
  run_local_server : list pystr -> R -> result Credentials * R;
  (** [messages().list(userId='me', labelIds, maxResults)]: the ids under
      the [messages] key, [None] when the key is missing *)
  messages_list : list pystr -> Z -> R -> result (option (list pystr)) * R;
  (** [messages().get(userId='me', id, format='full')] *)
  messages_get : pystr -> R -> result payload * R;
  (** [messages().modify(userId='me', id, body={'removeLabelIds': ...})] *)
  messages_modify : pystr -> list pystr -> R -> result unit * R;
  (** [messages().send(userId='me', body={'raw': raw})]: the id of the
      message sent *)
  messages_send : pystr -> R -> result pystr * R;
  (** [events().insert(calendarId, body)]: the created event *)
  events_insert : pystr -> pydict -> R -> result created_event * R;
  (** [requests.post(url, headers, json={'content': content})] with the
      bearer token of the [Authorization] header *)
  requests_post : pystr -> pystr -> pystr -> R -> result response * R
}.

(** One entry of the log of calls: the arguments and what came back. *)
Inductive call :=
| Refresh (creds : Credentials) (r : result Credentials)
| RunLocalServer (scopes : list pystr) (r : result Credentials)
| MessagesList (labelIds : list pystr) (maxResults : Z) (r : result (option (list pystr)))
| MessagesGet (id : pystr) (r : result payload)
| MessagesModify (id : pystr) (removeLabelIds : list pystr) (r : result unit)
| MessagesSend (raw : pystr) (r : result pystr)
| EventsInsert (calendarId : pystr) (body : pydict) (r : result created_event)
| RequestsPost (url bearer content : pystr) (r : result response).

(** Outcome of a computation: a value, an uncaught exception, or
    [sys.exit(code)]. *)
Inductive outcome (A : Type) :=
| Ret (a : A)
| Raise (e : exn)
| Exit (code : Z).
Arguments Ret {A} a.
Arguments Raise {A} e.
Arguments Exit {A} code.

(** What the process is started with: the directory of the script, the
    environment and the command line. *)
Record process := mk_process {
  script_dir : pystr;
  environ : gmap pystr pystr;
  argv : list pystr
}.

Section Monad.
Context {R : Type}.

(** What a script can read and change: the process, the JSON object in
    [credentials/token.json] ([None] when the file does not exist), whether
    [credentials/gmail_credentials.json] exists, the lines printed and the
    outside world.  Writing the token file is taken to succeed. *)
Record world := mk_world {
  proc : process;
  token_file : option authorized_user_info;
  credentials_file : bool;
  stdout : list pystr;
  remote : R
}.

(** A computation gives its outcome, the world it leaves and the calls it
    made to the outside, in order. *)
Definition M (A : Type) : Type := world -> outcome A * world * list call.

Definition outcome_of {A} (x : outcome A * world * list call) : outcome A := fst (fst x).
Definition world_of {A} (x : outcome A * world * list call) : world := snd (fst x).
Definition log_of {A} (x : outcome A * world * list call) : list call := snd x.

Definition ret {A} (a : A) : M A := fun w => (Ret a, w, []).

Definition bind {A B} (m : M A) (k : A -> M B) : M B :=
  fun w =>
    match m w with
    | (Ret a, w', l) =>
        match k a w' with
        | (o, w'', l') => (o, w'', l ++ l')
        end
    | (Raise e, w', l) => (Raise e, w', l)
    | (Exit c, w', l) => (Exit c, w', l)
    end.

Definition raise {A} (e : exn) : M A := fun w => (Raise e, w, []).
Definition sys_exit {A} (code : Z) : M A := fun w => (Exit code, w, []).

Definition lift {A} (r : result A) : M A :=
  match r with
  | Ok a => ret a
  | Err e => raise e
  end.

Definition get_process : M process := fun w => (Ret (proc w), w, []).

Definition print (line : pystr) : M unit :=
  fun w => (Ret tt, mk_world (proc w) (token_file w) (credentials_file w)
                      (stdout w ++ [line]) (remote w), []).

Definition read_token_file : M (option authorized_user_info) :=
  fun w => (Ret (token_file w), w, []).

Definition write_token_file (info : authorized_user_info) : M unit :=
  fun w => (Ret tt, mk_world (proc w) (Some info) (credentials_file w)
                      (stdout w) (remote w), []).

Definition credentials_file_exists : M bool :=
  fun w => (Ret (credentials_file w), w, []).

(** A call to the outside: the outside world moves on, the call is logged
    with its result, an error is raised in the caller. *)
Definition remote_call {A} (op : R -> result A * R) (entry : result A -> call) : M A :=
  fun w =>
    let (r, rs) := op (remote w) in
    let w' := mk_world (proc w) (token_file w) (credentials_file w) (stdout w) rs in
    match r with
    | Ok a => (Ret a, w', [entry r])
    | Err e => (Raise e, w', [entry r])
    end.

(** [creds.refresh(Request())]: one call into the library, which updates
    the object when the token endpoint answers and raises when it does
    not. *)
Definition refresh `{Remote R} (c : Credentials) : M Credentials :=
  remote_call (oauth_refresh c) (Refresh c).

(** [build(api, version, credentials=creds)]. *)
Definition build (api version : string) (creds : Credentials) : Service :=
  mk_service (lit api) (lit version) creds.

End Monad.

Arguments world R : clear implicits.
Arguments M R A : clear implicits.

Declare Scope eff_scope.
Delimit Scope eff_scope with eff.
Notation "'let*' x ':=' m 'in' k" := (bind m (fun x => k))
  (at level 10, x name, m at level 100, k at level 200) : eff_scope.
Notation "'exec' m 'in' k" := (bind m (fun _ => k))
  (at level 10, m at level 100, k at level 200) : eff_scope.

End Eff.

(* ===================================================================== *)
(** * fetch_email.py                                                      *)
(* ===================================================================== *)

Module FetchEmail.
Import Py Api Eff.
Local Open Scope eff_scope.

Definition SCOPES : list pystr :=
  [ lit "https://www.googleapis.com/auth/gmail.readonly";
    lit "https://www.googleapis.com/auth/gmail.modify";
    lit "https://www.googleapis.com/auth/gmail.send" ].

Definition CREDENTIALS_FILE (p : process) : pystr :=
  script_dir p ++ lit "/credentials/gmail_credentials.json".
Definition TOKEN_FILE (p : process) : pystr :=
  script_dir p ++ lit "/credentials/token.json".

Definition MEMOS_API_TOKEN (p : process) : option pystr :=
  environ p !! lit "MEMOS_API_TOKEN".
Definition MEMOS_BASE_URL (p : process) : pystr :=
  default (lit "http://localhost:5230") (environ p !! lit "MEMOS_BASE_URL").

(** The dict appended to [emails]. *)
Record email := mk_email {
  e_id : pystr;
  e_subject : pystr;
  e_from : pystr;
  e_date : pystr;
  e_body : pystr
}.

Definition nl : pystr := [10].

(** [{h['name']: h['value'] for h in headers}]: a later header of the same
    name replaces an earlier one. *)
Definition headers_dict (hs : list header) : gmap pystr pystr :=
  foldl (fun d h => <[h_name h := h_value h]> d) ∅ hs.

Definition decode_body (data : pystr) : result pystr :=
  rbind (urlsafe_b64decode data) (fun raw => Ok (utf8_decode_ignore raw)).

(** The [for part in ...] loop of [get_unread_emails]: the first part of
    type [text/plain] gives the body and ends the loop. *)
Fixpoint body_of_parts (parts : list part) : result pystr :=
  match parts with
  | [] => Ok []
  | part :: rest =>
      if pystr_eqb (p_mimeType part) (lit "text/plain")
      then decode_body (default (lit "") (p_data part))
      else body_of_parts rest
  end.

(** Lines 92-99: the body of one message. *)
Definition get_body (pl : payload) : result pystr :=
  match pl_parts pl with
  | Some parts => body_of_parts parts
  | None =>
      match pl_body pl with
      | Some (Some data) => decode_body data
      | _ => Ok []
      end
  end.

(** Lines 89-107: the entry of [emails] for one fetched message. *)
Definition email_of_message (id : pystr) (pl : payload) : result email :=
  let headers := headers_dict (pl_headers pl) in
  rbind (get_body pl) (fun body =>
  Ok (mk_email id
        (default (lit "(no subject)") (headers !! lit "Subject"))
        (default (lit "(unknown sender)") (headers !! lit "From"))
        (default (lit "") (headers !! lit "Date"))
        (slice_to 5000 body))).

Definition email_to_memo_content (e : email) : pystr :=
  lit "#inbox #email" ++ nl ++
  nl ++
  lit "**From:** " ++ e_from e ++ nl ++
  lit "**Subject:** " ++ e_subject e ++ nl ++
  lit "**Date:** " ++ e_date e ++ nl ++
  nl ++
  lit "---" ++ nl ++
  nl ++
  e_body e ++ nl.

Section Script.
Context {R : Type} `{Remote R}.

(** Lines 56-61: the interactive grant, asked for [SCOPES]. *)
Definition run_flow (p : process) : M R Credentials :=
  let* present := credentials_file_exists in
  if present then remote_call (run_local_server SCOPES) (RunLocalServer SCOPES)
  else
    exec print (lit "Error: Credentials file not found at " ++ CREDENTIALS_FILE p) in
    sys_exit 1.

(** Lines 63-66: the token is saved for the next run. *)
Definition save_token (p : process) (creds : Credentials) : M R unit :=
  exec write_token_file (to_json creds) in
  print (lit "Token saved to " ++ TOKEN_FILE p).

(** Lines 48-49: the token file is loaded when it exists. *)
Definition load_token : M R (option Credentials) :=
  let* file := read_token_file in
  match file with
  | Some info =>
      let* creds := lift (from_authorized_user_file info SCOPES) in
      ret (Some creds)
  | None => ret None
  end.

Definition get_gmail_service : M R Service :=
  let* p := get_process in
  let* creds := load_token in
  match creds with
  | Some creds =>
      if valid creds then ret (build "gmail" "v1" creds)
      else
        let* creds :=
          if expired creds && truthy_str (refresh_token creds) then refresh creds
          else run_flow p in
        exec save_token p creds in
        ret (build "gmail" "v1" creds)
  | None =>
      let* creds := run_flow p in
      exec save_token p creds in
      ret (build "gmail" "v1" creds)
  end.

(** The [for msg in messages] loop of [get_unread_emails]. *)
Fixpoint fetch_messages (service : Service) (messages : list pystr) (emails : list email)
  : M R (list email) :=
  match messages with
  | [] => ret emails
  | id :: rest =>
      let* msg_data := remote_call (messages_get id) (MessagesGet id) in
      let* e := lift (email_of_message id msg_data) in
      fetch_messages service rest (emails ++ [e])
  end.

Definition get_unread_emails (service : Service) (max_results : Z) : M R (list email) :=
  let labels := [lit "INBOX"; lit "UNREAD"] in
  let* results := remote_call (messages_list labels max_results)
                    (MessagesList labels max_results) in
  let messages := default [] results in
  fetch_messages service messages [].

Definition mark_as_read (service : Service) (msg_id : pystr) : M R unit :=
  remote_call (messages_modify msg_id [lit "UNREAD"])
    (MessagesModify msg_id [lit "UNREAD"]).

Definition create_memo (content : pystr) : M R bool :=
  let* p := get_process in
  match MEMOS_API_TOKEN p with
  | Some (c :: tok) =>
      let url := MEMOS_BASE_URL p ++ lit "/api/v1/memos" in
      let* response := remote_call (requests_post url (c :: tok) content)
                         (RequestsPost url (c :: tok) content) in
      if status_code response =? 200 then ret true
      else
        exec print (lit "Error creating memo: " ++ str_of_int (status_code response)
                      ++ lit " " ++ text response) in
        ret false
  | _ =>
      exec print (lit "Error: MEMOS_API_TOKEN not set") in
      ret false
  end.

(** The [for email in emails] loop of [main]. *)
Fixpoint process_emails (service : Service) (emails : list email) : M R unit :=
  match emails with
  | [] => ret tt
  | email :: rest =>
      exec print (lit "  Processing: " ++ slice_to 50 (e_subject email) ++ lit "...") in
      let content := email_to_memo_content email in
      let* created := create_memo content in
      exec (if created then
              exec mark_as_read service (e_id email) in
              print (lit "    " ++ [10003] ++ lit " Created memo, marked as read")
            else
              print (lit "    " ++ [10007] ++ lit " Failed to create memo")) in
      process_emails service rest
  end.

Definition main : M R unit :=
  let* p := get_process in
  if bool_decide (lit "--auth" ∈ argv p) then
    exec print (lit "Running OAuth flow...") in
    let* service := get_gmail_service in
    print (lit "Authentication successful!")
  else if negb (truthy_str (MEMOS_API_TOKEN p)) then
    exec print (lit "Error: MEMOS_API_TOKEN environment variable not set") in
    exec print (lit "Run: source ~/.zshrc") in
    sys_exit 1
  else
    exec print (lit "Connecting to Gmail...") in
    let* service := get_gmail_service in
    exec print (lit "Fetching unread emails...") in
    let* emails := get_unread_emails service 10 in
    match emails with
    | [] => print (lit "No unread emails.")
    | _ :: _ =>
        exec print (lit "Found " ++ str_of_int (Z.of_nat (length emails))
                      ++ lit " unread email(s)") in
        exec process_emails service emails in
        print (lit "Done!")
    end.

End Script.

End FetchEmail.

(* ===================================================================== *)
(** * send_email.py                                                       *)
(* ===================================================================== *)

Module SendEmail.
Import Py Api Eff.
Local Open Scope eff_scope.

Definition SCOPES : list pystr :=
  [ lit "https://www.googleapis.com/auth/gmail.send" ].

Definition TOKEN_FILE (p : process) : pystr :=
  script_dir p ++ lit "/credentials/token.json".

Section Script.
Context {R : Type} `{Remote R}.

(** [base64.urlsafe_b64encode(MIMEText(body) with to and subject)]: the
    serialisation of the [email] package is not part of the scripts. *)
Variable mime_raw : pystr -> pystr -> pystr -> pystr.

Definition get_gmail_service : M R Service :=
  let* p := get_process in
  let* file := read_token_file in
  match file with
  | None =>
      exec print (lit "Error: Token file not found at " ++ TOKEN_FILE p) in
      exec print (lit "Run: python3 fetch_email.py --auth") in
      sys_exit 1
  | Some info =>
      let* creds := lift (from_authorized_user_file info SCOPES) in
      if valid creds then ret (build "gmail" "v1" creds)
      else
        let* creds :=
          if expired creds && truthy_str (refresh_token creds) then refresh creds
          else
            exec print (lit "Error: Token expired or invalid. Run: python3 fetch_email.py --auth") in
            sys_exit 1 in
        ret (build "gmail" "v1" creds)
  end.

Definition send_email (to subject body : pystr) : M R pystr :=
  let* service := get_gmail_service in
  let raw := mime_raw to subject body in
  let* sent := remote_call (messages_send raw) (MessagesSend raw) in
  exec print (lit "Email sent. Message ID: " ++ sent) in
  ret sent.

(** [argparse] has read [--to], [--subject] and [--body], all required. *)
Definition main (to subject body : pystr) : M R unit :=
  let* _ := send_email to subject body in
  ret tt.

End Script.

End SendEmail.

(* ===================================================================== *)
(** * create_calendar_event.py                                            *)
(* ===================================================================== *)

Module CreateCalendarEvent.
Import Py Api Eff.
Local Open Scope eff_scope.

Definition SCOPES : list pystr :=
  [ lit "https://www.googleapis.com/auth/gmail.readonly";
    lit "https://www.googleapis.com/auth/gmail.modify";
    lit "https://www.googleapis.com/auth/gmail.send";
    lit "https://www.googleapis.com/auth/calendar";
    lit "https://www.googleapis.com/auth/calendar.events" ].

Definition CREDENTIALS_FILE (p : process) : pystr :=
  script_dir p ++ lit "/credentials/gmail_credentials.json".
Definition TOKEN_FILE (p : process) : pystr :=
  script_dir p ++ lit "/credentials/token.json".

(** What [argparse] found on the command line: [None] for an option that
    was not given. *)
Record cli := mk_cli {
  cli_auth : bool;
  cli_title : option pystr;
  cli_start : option pystr;
  cli_end : option pystr;
  cli_date : option pystr;
  cli_description : option pystr;
  cli_location : option pystr;
  cli_reminder : option Z;
  cli_timezone : option pystr
}.

(** The namespace [parser.parse_args()] returns: [--reminder] and
    [--timezone] have defaults. *)
Record Namespace := mk_namespace {
  auth : bool;
  title : option pystr;
  start : option pystr;
  end_ : option pystr;
  date : option pystr;
  description : option pystr;
  location : option pystr;
  reminder : Z;
  timezone : pystr
}.

Definition parse_args (c : cli) : Namespace :=
  mk_namespace (cli_auth c) (cli_title c) (cli_start c) (cli_end c) (cli_date c)
    (cli_description c) (cli_location c)
    (default 30 (cli_reminder c))
    (default (lit "America/Phoenix") (cli_timezone c)).

(** The loop of [parse_datetime] over its formats: the first format that
    parses gives the result, a [ValueError] moves on to the next. *)
Fixpoint parse_datetime_loop (dt_str : pystr) (formats : list pystr) : result pydict :=
  match formats with
  | [] => Err (ValueError (CouldNotParseDatetime dt_str))
  | fmt :: rest =>
      match strptime dt_str fmt with
      | Ok dt =>
          Ok [ (lit "dateTime", VStr (isoformat dt));
               (lit "timeZone", VStr (lit "America/Phoenix")) ]
      | Err (ValueError _) => parse_datetime_loop dt_str rest
      | Err e => Err e
      end
  end.

Definition parse_datetime (dt_str : pystr) : result pydict :=
  parse_datetime_loop dt_str
    [ lit "%Y-%m-%d %H:%M";
      lit "%Y-%m-%d %H:%M:%S";
      lit "%Y-%m-%dT%H:%M";
      lit "%Y-%m-%dT%H:%M:%S" ].

Definition parse_date (date_str : pystr) : result pydict :=
  rbind (strptime date_str (lit "%Y-%m-%d")) (fun dt =>
  Ok [ (lit "date", VStr (strftime_Ymd dt)) ]).

(** Lines 153-158 of [main]: start and end of an all-day event. *)
Definition all_day_start_end (args : Namespace) (date : pystr) : result (pydict * pydict) :=
  rbind (parse_date date) (fun start =>
  rbind (strptime date (lit "%Y-%m-%d")) (fun dt =>
  rbind (add_timedelta dt 1 0) (fun end_dt =>
  Ok (start, [ (lit "date", VStr (strftime_Ymd end_dt)) ])))).

(** Lines 160-174 of [main]: start and end of a timed event. *)
Definition timed_start_end (args : Namespace) (start_str : pystr) : result (pydict * pydict) :=
  rbind (parse_datetime start_str) (fun start =>
  let start := dict_set (lit "timeZone") (VStr (timezone args)) start in
  rbind
    (if truthy_str (end_ args) then parse_datetime (default (lit "") (end_ args))
     else
       rbind (strptime (split_head 46 (replace_char 84 32 start_str))
                (lit "%Y-%m-%d %H:%M")) (fun start_dt =>
       rbind (add_timedelta start_dt 0 1) (fun end_dt =>
       Ok [ (lit "dateTime", VStr (isoformat end_dt));
            (lit "timeZone", VStr (timezone args)) ])))
    (fun end_ =>
  let end_ := dict_set (lit "timeZone") (VStr (timezone args)) end_ in
  Ok (start, end_))).

(** Lines 152-174: [--date] decides between the two.  When [--date] is not
    given [--start] is (checked before), so the default is never used. *)
Definition start_end (args : Namespace) : result (pydict * pydict) :=
  if truthy_str (date args) then all_day_start_end args (default (lit "") (date args))
  else timed_start_end args (default (lit "") (start args)).

Section Script.
Context {R : Type} `{Remote R}.

Definition run_flow (p : process) : M R Credentials :=
  let* present := credentials_file_exists in
  if present then remote_call (run_local_server SCOPES) (RunLocalServer SCOPES)
  else
    exec print (lit "Error: Credentials file not found at " ++ CREDENTIALS_FILE p) in
    sys_exit 1.

Definition save_token (p : process) (creds : Credentials) : M R unit :=
  exec write_token_file (to_json creds) in
  print (lit "Token saved to " ++ TOKEN_FILE p).

(** Lines 43-44: the token file is loaded when it exists. *)
Definition load_token : M R (option Credentials) :=
  let* file := read_token_file in
  match file with
  | Some info =>
      let* creds := lift (from_authorized_user_file info SCOPES) in
      ret (Some creds)
  | None => ret None
  end.

Definition get_calendar_service : M R Service :=
  let* p := get_process in
  let* creds := load_token in
  match creds with
  | Some creds =>
      if valid creds then ret (build "calendar" "v3" creds)
      else
        let* creds :=
          if expired creds && truthy_str (refresh_token creds) then refresh creds
          else run_flow p in
        exec save_token p creds in
        ret (build "calendar" "v3" creds)
  | None =>
      let* creds := run_flow p in
      exec save_token p creds in
      ret (build "calendar" "v3" creds)
  end.

(** The default of the [reminder_minutes] parameter, used when a caller
    leaves the argument out. *)
Definition reminder_minutes_default : option Z := Some 30.

(** The body [create_event] builds.  [description], [location] and
    [reminder_minutes] are Python values that may be [None]. *)
Definition event_body (title : pystr) (start end_ : pydict)
    (description location : option pystr) (reminder_minutes : option Z) : pydict :=
  let event := [ (lit "summary", VStr title);
                 (lit "start", VDict start);
                 (lit "end", VDict end_) ] in
  let event :=
    match description with
    | Some (c :: s) => dict_set (lit "description") (VStr (c :: s)) event
    | _ => event
    end in
  let event :=
    match location with
    | Some (c :: s) => dict_set (lit "location") (VStr (c :: s)) event
    | _ => event
    end in
  match reminder_minutes with
  | Some n =>
      if n =? 0 then event
      else dict_set (lit "reminders")
             (VDict [ (lit "useDefault", VBool false);
                      (lit "overrides",
                       VList [ VDict [ (lit "method", VStr (lit "popup"));
                                       (lit "minutes", VInt n) ] ]) ])
             event
  | None => event
  end.

Definition create_event (service : Service) (title : pystr) (start end_ : pydict)
    (description location : option pystr) (reminder_minutes : option Z)
  : M R created_event :=
  let event := event_body title start end_ description location reminder_minutes in
  remote_call (events_insert (lit "primary") event) (EventsInsert (lit "primary") event).

(** [parser.error] prints the usage and leaves with status 2. *)
Definition parser_error {A} (msg : pystr) : M R A := sys_exit 2.

Definition main (c : cli) : M R unit :=
  let args := parse_args c in
  if auth args then
    exec print (lit "Running OAuth flow...") in
    let* service := get_calendar_service in
    print (lit "Authentication successful!")
  else if negb (truthy_str (title args)) then
    parser_error (lit "--title is required")
  else if negb (truthy_str (date args)) && negb (truthy_str (start args)) then
    parser_error (lit "Either --date (all-day) or --start/--end (timed) is required")
  else
    exec print (lit "Connecting to Google Calendar...") in
    let* service := get_calendar_service in
    let* se := lift (start_end args) in
    let* event := create_event service (default (lit "") (title args)) (fst se) (snd se)
                    (description args) (location args) (Some (reminder args)) in
    let* summary :=
      match ce_summary event with
      | Some s => ret s
      | None => raise (KeyError (lit "summary"))
      end in
    exec print ([226; 339; 8220] ++ lit " Created event: " ++ summary) in
    print (lit "  Link: " ++ default (lit "N/A") (ce_htmlLink event)).

End Script.

End CreateCalendarEvent.

(* ===================================================================== *)
(** * A test double for the outside world                                 *)
(* ===================================================================== *)

Module Fake.
Import Py Api Eff.

(** A remote that answers from fixed tables and keeps no state of its own:
    what the specification calls a fake grant exchange, extended to every
    service. *)
Record fake := mk_fake {
  on_refresh : Credentials -> result Credentials;
  on_flow : list pystr -> result Credentials;
  on_list : result (option (list pystr));
  on_get : pystr -> result payload;
  on_modify : pystr -> result unit;
  on_send : pystr -> result pystr;
  on_insert : pydict -> result created_event;
  on_post : pystr -> result response
}.

#[global] Instance fake_Remote : Remote fake := {|
  oauth_refresh c r := (on_refresh r c, r);
  run_local_server sc r := (on_flow r sc, r);
  messages_list _ _ r := (on_list r, r);
  messages_get id r := (on_get r id, r);
  messages_modify id _ r := (on_modify r id, r);
  messages_send raw r := (on_send r raw, r);
  events_insert _ body r := (on_insert r body, r);
  requests_post _ _ content r := (on_post r content, r)
|}.

(** What a refresh leaves in the credential [c] when the token endpoint
    answers with the access token [t] and, maybe, a new refresh token. *)
Definition answered (t : string) (new_rt : option pystr) (c : Credentials) : Credentials :=
  mk_credentials (Some (lit t))
    (match new_rt with Some rt => Some rt | None => refresh_token c end)
    (client_id c) (client_secret c) false (scopes c).

(** The credential a grant gives for the scopes [sc]. *)
Definition granted (sc : list pystr) : Credentials :=
  mk_credentials (Some (lit "granted")) (Some (lit "rt")) (Some (lit "client"))
    (Some (lit "secret")) false sc.

(** A remote where everything works: refresh gives the token [fresh] and
    keeps the refresh token, the grant gives a credential for the scopes
    asked, no mail is waiting. *)
Definition friendly : fake :=
  mk_fake (fun c => Ok (answered "fresh" None c))
          (fun sc => Ok (granted sc))
          (Ok None)
          (fun _ => Ok (mk_payload [] None None))
          (fun _ => Ok tt)
          (fun _ => Ok (lit "sent-1"))
          (fun _ => Ok (mk_created_event (Some (lit "Meeting")) None))
          (fun _ => Ok (mk_response 200 (lit "{}"))).

(** The process of a run with the sink configured. *)
Definition configured (args : list pystr) : process :=
  mk_process (lit "/opt/open-inbox")
    (<[lit "MEMOS_API_TOKEN" := lit "secret"]> ∅) args.

Definition start_world (p : process) (file : option authorized_user_info) (r : fake)
  : world fake :=
  mk_world p file true [] r.

(** The same remote with another answer of the token endpoint. *)
Definition with_refresh (f : Credentials -> result Credentials) (r : fake) : fake :=
  mk_fake f (on_flow r) (on_list r) (on_get r) (on_modify r)
    (on_send r) (on_insert r) (on_post r).

(** A remote whose token endpoint sends a new refresh token [rt2] along
    with the access token [fresh]. *)
Definition rotating : fake :=
  with_refresh (fun c => Ok (answered "fresh" (Some (lit "rt2")) c)) friendly.

(** The same remote with another answer of the note sink. *)
Definition with_post (f : pystr -> result response) (r : fake) : fake :=
  mk_fake (on_refresh r) (on_flow r) (on_list r) (on_get r) (on_modify r)
    (on_send r) (on_insert r) f.

(** An unstructured message whose body data is [data] and that has no
    headers. *)
Definition bare_message (data : string) : payload :=
  mk_payload [] None (Some (Some (lit data))).

(** The same remote with one unread message [m1] whose payload is [pl]. *)
Definition with_message (pl : payload) (r : fake) : fake :=
  mk_fake (on_refresh r) (on_flow r) (Ok (Some [lit "m1"])) (fun _ => Ok pl)
    (on_modify r) (on_send r) (on_insert r) (on_post r).

(** Three unread messages [m1], [m2], [m3] without body, each with its id
    as subject; the note sink rejects the note of [m2] and takes the others. *)
Definition note_of (id : string) : pystr :=
  FetchEmail.email_to_memo_content
    (FetchEmail.mk_email (lit id) (lit id) (lit "(unknown sender)") (lit "") (lit "")).

Definition inbox3 : fake :=
  mk_fake (on_refresh friendly) (on_flow friendly)
    (Ok (Some [lit "m1"; lit "m2"; lit "m3"]))
    (fun id => Ok (mk_payload [mk_header (lit "Subject") id] None None))
    (on_modify friendly) (on_send friendly) (on_insert friendly)
    (fun content =>
       if pystr_eqb content (note_of "m2")
       then Ok (mk_response 500 (lit "rejected"))
       else Ok (mk_response 200 (lit "{}"))).

(** A token file whose access token has expired and which holds a refresh
    token. *)
Definition stale : authorized_user_info :=
  mk_info (Str (lit "old")) (Str (lit "rt")) (Str (lit "client")) (Str (lit "secret"))
    true FetchEmail.SCOPES.

(** The token file [fetch_email.py --auth] leaves after a grant: a token
    that is still good, granted the three mail scopes. *)
Definition mail_only : authorized_user_info := to_json (granted FetchEmail.SCOPES).

(** A token file whose token has expired and whose refresh token is
    [null], as a file written by hand or by another tool can be. *)
Definition spent : authorized_user_info :=
  mk_info (Str (lit "old")) Null (Str (lit "client")) (Str (lit "secret"))
    true FetchEmail.SCOPES.

(** The credential of a grant that came without a refresh token, and the
    token file [to_json] writes for it: the key is left out. *)
Definition one_time (sc : list pystr) : Credentials :=
  mk_credentials (Some (lit "granted")) None (Some (lit "client")) (Some (lit "secret"))
    false sc.

Definition keyless : authorized_user_info := to_json (one_time FetchEmail.SCOPES).

(** The same remote where the operator does not complete the grant. *)
Definition with_flow (f : list pystr -> result Credentials) (r : fake) : fake :=
  mk_fake (on_refresh r) f (on_list r) (on_get r) (on_modify r)
    (on_send r) (on_insert r) (on_post r).

(** A world without the client secrets file. *)
Definition without_secrets (w : world fake) : world fake :=
  mk_world (proc w) (token_file w) false (stdout w) (remote w).

(** The mail items of [inbox3]. *)
Definition inbox3_mails : list FetchEmail.email :=
  map (fun id => FetchEmail.mk_email id id (lit "(unknown sender)") (lit "") (lit ""))
    [lit "m1"; lit "m2"; lit "m3"].

(** A command line without a title. *)
Definition no_title : CreateCalendarEvent.cli :=
  CreateCalendarEvent.mk_cli false None (Some (lit "2026-02-10 14:00"))
    None None None None None None.

(** The world in which [create_calendar_event.py] looks for its credential:
    the line that announces the connection is printed. *)
Definition connecting (w : world fake) : world fake :=
  mk_world (proc w) (token_file w) (credentials_file w)
    (stdout w ++ [lit "Connecting to Google Calendar..."]) (remote w).

(** A process without [MEMOS_API_TOKEN] in its environment. *)
Definition unconfigured (args : list pystr) : process :=
  mk_process (lit "/opt/open-inbox") ∅ args.

(** A message with two Subject headers and a sender. *)
Definition two_subjects : payload :=
  mk_payload [ mk_header (lit "Subject") (lit "first");
               mk_header (lit "From") (lit "ann@example.org");
               mk_header (lit "Subject") (lit "second") ] None None.

(** A token file with a good token saved by [create_calendar_event.py]. *)
Definition calendar_ok : authorized_user_info :=
  to_json (granted CreateCalendarEvent.SCOPES).

(** [--title Meeting --start <start>], nothing else on the command line. *)
Definition meeting (start : string) : CreateCalendarEvent.cli :=
  CreateCalendarEvent.mk_cli false (Some (lit "Meeting")) (Some (lit start))
    None None None None None None.

(** [--title Meeting --start "2026-02-10 14:00" --end "2026-02-10T16:30"
    --timezone Europe/Paris]. *)
Definition paris_meeting : CreateCalendarEvent.cli :=
  CreateCalendarEvent.mk_cli false (Some (lit "Meeting")) (Some (lit "2026-02-10 14:00"))
    (Some (lit "2026-02-10T16:30")) None None None None (Some (lit "Europe/Paris")).

(** [--title Trip --date <date>]: an all-day event. *)
Definition trip (date : string) : CreateCalendarEvent.cli :=
  CreateCalendarEvent.mk_cli false (Some (lit "Trip")) None None (Some (lit date))
    None None None None.

End Fake.

(* ===================================================================== *)
(** * Vocabulary of the properties                                        *)
(* ===================================================================== *)

Module Spec.
Import Py Api Eff FetchEmail.

(** Every call a computation makes satisfies [P], from whatever world it is
    started. *)
Definition emits {R A : Type} (P : call -> Prop) (m : M R A) : Prop :=
  forall w, Forall P (log_of (m w)).

(** The call is not an interactive grant, or it is one for [scopes]. *)
Definition grant_for (scopes : list pystr) (c : call) : Prop :=
  match c with
  | RunLocalServer sc _ => sc = scopes
  | _ => True
  end.

(** The call is not an interactive grant. *)
Definition no_grant (c : call) : Prop :=
  match c with
  | RunLocalServer _ _ => False
  | _ => True
  end.

(** The address [create_memo] posts to. *)
Definition memos_url (p : process) : pystr := MEMOS_BASE_URL p ++ lit "/api/v1/memos".

(** The line [create_memo] prints for a rejected note. *)
Definition rejection_line (resp : response) : pystr :=
  lit "Error creating memo: " ++ str_of_int (status_code resp) ++ lit " " ++ text resp.

(** The log entry of a note creation that the sink confirmed for [e]. *)
Definition created (e : email) (c : call) : Prop :=
  exists url bearer resp,
    c = RequestsPost url bearer (email_to_memo_content e) (Ok resp) /\
    status_code resp = 200.

(** The log entry of [mark_as_read] for the message [id]. *)
Definition marked (id : pystr) (c : call) : Prop :=
  exists r, c = MessagesModify id [lit "UNREAD"] r.

(** The logs the loop of [main] can leave for a list of mails, one case per
    way an item can go: delivered and marked, delivered and the mark raised
    (the run stops), rejected by the sink, the post raised (the run stops),
    sink not configured (no call at all). *)
Inductive sync_log : list email -> list call -> Prop :=
| sync_done : sync_log [] []
| sync_delivered e es url bearer resp l :
    status_code resp = 200 ->
    sync_log es l ->
    sync_log (e :: es)
      (RequestsPost url bearer (email_to_memo_content e) (Ok resp)
         :: MessagesModify (e_id e) [lit "UNREAD"] (Ok tt) :: l)
| sync_mark_raised e es url bearer resp err :
    status_code resp = 200 ->
    sync_log (e :: es)
      [ RequestsPost url bearer (email_to_memo_content e) (Ok resp);
        MessagesModify (e_id e) [lit "UNREAD"] (Err err) ]
| sync_rejected e es url bearer resp l :
    status_code resp <> 200 ->
    sync_log es l ->
    sync_log (e :: es)
      (RequestsPost url bearer (email_to_memo_content e) (Ok resp) :: l)
| sync_post_raised e es url bearer err :
    sync_log (e :: es)
      [ RequestsPost url bearer (email_to_memo_content e) (Err err) ]
| sync_unconfigured e es l :
    sync_log es l ->
    sync_log (e :: es) l.

(** Calls of the sync loop: note creations and read marks. *)
Definition sync_call (c : call) : bool :=
  match c with
  | RequestsPost _ _ _ _ | MessagesModify _ _ _ => true
  | _ => false
  end.

(** The messages a log marks as read, in order. *)
Definition marked_ids (l : list call) : list pystr :=
  flat_map (fun c => match c with MessagesModify id _ _ => [id] | _ => [] end) l.

(** The notes a log shows as sent to the sink, with the status answered. *)
Definition posted (l : list call) : list (pystr * Z) :=
  flat_map (fun c => match c with
                     | RequestsPost _ _ content (Ok resp) => [(content, status_code resp)]
                     | _ => []
                     end) l.

(** The token file gives no credential that can be used as it is or be
    refreshed: there is no file, or the file has the keys the loader needs,
    its token is missing or expired, and it is not both expired and
    equipped with a refresh token. *)
Definition grant_needed (file : option authorized_user_info) : bool :=
  match file with
  | None => true
  | Some info =>
      let c := credentials_of info [] in
      has_needed_keys info && negb (valid c)
      && negb (expired c && truthy_str (refresh_token c))
  end.

(** The sink confirmed the creation of a note: it answered with status 200. *)
Definition confirmed (r : result response) : Prop :=
  exists resp, r = Ok resp /\ status_code resp = 200.

(** The calls of the loop for the mail [e]: the note of [e] is posted, and
    the message of [e] is marked as read after it exactly when the sink
    confirmed the note. *)
Definition item_calls (e : email) (calls : list call) : Prop :=
  exists url bearer r,
    (~ confirmed r /\
     calls = [RequestsPost url bearer (email_to_memo_content e) r])
    \/ (confirmed r /\
        exists r', calls = [ RequestsPost url bearer (email_to_memo_content e) r;
                             MessagesModify (e_id e) [lit "UNREAD"] r' ]).

(** Started in a world of the process [p], the computation makes only calls
    that satisfy [P] and leaves the process as it is. *)
Definition emits_at {R A : Type} (p : process) (P : call -> Prop) (m : M R A) : Prop :=
  forall w, proc w = p ->
    Forall P (log_of (m w)) /\ proc (world_of (m w)) = p.

(** The call obtains a credential. *)
Definition credential_call (c : call) : Prop :=
  match c with
  | Refresh _ _ | RunLocalServer _ _ => True
  | _ => False
  end.

(** The calls a run of [fetch_email.py] can make for the process [p]. *)
Definition fetch_call (p : process) (c : call) : Prop :=
  match c with
  | Refresh _ _ => True
  | RunLocalServer sc _ => sc = FetchEmail.SCOPES
  | MessagesList labels n _ => labels = [lit "INBOX"; lit "UNREAD"] /\ n = 10
  | MessagesGet _ _ => True
  | MessagesModify _ labels _ => labels = [lit "UNREAD"]
  | RequestsPost url bearer _ _ =>
      url = MEMOS_BASE_URL p ++ lit "/api/v1/memos" /\ MEMOS_API_TOKEN p = Some bearer
  | MessagesSend _ _ | EventsInsert _ _ _ => False
  end.

(** The call failed with the exception [e]. *)
Definition failed_with (e : exn) (c : call) : Prop :=
  match c with
  | Refresh _ (Err e') | RunLocalServer _ (Err e') | MessagesList _ _ (Err e')
  | MessagesGet _ (Err e') | MessagesModify _ _ (Err e') | MessagesSend _ (Err e')
  | EventsInsert _ _ (Err e') | RequestsPost _ _ _ (Err e') => e' = e
  | _ => False
  end.

(** The messages the loop marks as read when the sink answers the mails, in
    order, with these statuses. *)
Fixpoint marks_for (emails : list email) (statuses : list Z) : list pystr :=
  match emails, statuses with
  | e :: es, s :: ss => (if s =? 200 then [e_id e] else []) ++ marks_for es ss
  | _, _ => []
  end.

(** The messages a log fetches, in order. *)
Definition fetched_ids (l : list call) : list pystr :=
  flat_map (fun c => match c with MessagesGet id _ => [id] | _ => [] end) l.

(** The seconds from the start of day 0 of the proleptic calendar to the
    date and time, as [datetime] arithmetic counts them. *)
Definition timestamp (dt : datetime) : Z :=
  _ymd2ord (year dt) (month dt) (day dt) * 86400
  + hour dt * 3600 + minute dt * 60 + second dt.

(** The date of an ordinal is a date of the calendar and has that ordinal. *)
Definition ordinal_ok (n : Z) : bool :=
  let '(y, m, d) := _ord2ymd n in
  (_ymd2ord y m d =? n) && (1 <=? m) && (m <=? 12) && (1 <=? d) && (d <=? _days_in_month y m).

(** The last step of [_ord2ymd]: month and day from the day [n] of the
    year [y], counted from 0. *)
Definition year_day (y : Z) (leapyear : bool) (n : Z) : Z * Z * Z :=
  let m := Z.shiftr (n + 50) 5 in
  let preceding := _DAYS_BEFORE_MONTH m + (if (2 <? m) && leapyear then 1 else 0) in
  if n <? preceding then
    let m := m - 1 in
    let preceding :=
      preceding - (_DAYS_IN_MONTH m + (if (m =? 2) && leapyear then 1 else 0)) in
    (y, m, n - preceding + 1)
  else (y, m, n - preceding + 1).

(** Month and day of the day [n] of a year are a date of that year, [n]
    days after its first day. *)
Definition year_day_ok (leapyear : bool) (n : Z) : bool :=
  let '(_, m, d) := year_day 0 leapyear n in
  (_DAYS_BEFORE_MONTH m + (if (2 <? m) && leapyear then 1 else 0) + d =? n + 1)
  && (1 <=? m) && (m <=? 12) && (1 <=? d)
  && (d <=? (if (m =? 2) && leapyear then 29 else _DAYS_IN_MONTH m)).

(** [ok] on the [fuel] integers from [n] on. *)
Fixpoint all_from (ok : Z -> bool) (fuel : nat) (n : Z) : bool :=
  match fuel with
  | O => true
  | S fuel' => if ok n then all_from ok fuel' (n + 1) else false
  end.

(** The calendar day after [y]-[m]-[d]. *)
Definition next_date (y m d : Z) : Z * Z * Z :=
  if d <? _days_in_month y m then (y, m, d + 1)
  else if m <? 12 then (y, m + 1, 1)
  else (y + 1, 1, 1).

(** The same time of day on the next calendar day. *)
Definition next_day (dt : datetime) : datetime :=
  let '(y, m, d) := next_date (year dt) (month dt) (day dt) in
  mk_datetime y m d (hour dt) (minute dt) (second dt).

(** The same minute and second of the next hour, which is hour 0 of the
    next calendar day after hour 23. *)
Definition one_hour_later (dt : datetime) : datetime :=
  if hour dt <? 23 then
    mk_datetime (year dt) (month dt) (day dt) (hour dt + 1) (minute dt) (second dt)
  else
    let '(y, m, d) := next_date (year dt) (month dt) (day dt) in
    mk_datetime y m d 0 (minute dt) (second dt).

(** The last day a [datetime] can hold. *)
Definition last_day (dt : datetime) : bool :=
  (year dt =? 9999) && (month dt =? 12) && (day dt =? 31).


(** The part is not of type [text/plain]. *)
Definition not_plain (p : part) : Prop := p_mimeType p <> lit "text/plain".

(** The reminder override of [n] minutes: one pop-up, the provider's
    default switched off. *)
Definition popup_override (n : Z) : pyval :=
  VDict [ (lit "useDefault", VBool false);
          (lit "overrides",
           VList [ VDict [ (lit "method", VStr (lit "popup"));
                           (lit "minutes", VInt n) ] ]) ].

(** Every character a regular expression can match satisfies [P]. *)
Fixpoint re_within (P : Z -> Prop) (r : re) : Prop :=
  match r with
  | Cls p => forall c, p c = true -> P c
  | Seq a b | Alt a b => re_within P a /\ re_within P b
  end.

(** The same for an item of a compiled format. *)
Definition item_within (P : Z -> Prop) (i : fmt_item) : Prop :=
  match i with
  | Group _ r => re_within P r
  | Whitespace => forall c, is_space c = true -> P c
  | Literal c => forall x, lower x = lower c -> P x
  end.

(** Neither [T] nor a full stop: the characters the default end of a timed
    event leaves alone. *)
Definition plain_char (c : Z) : Prop := c <> 84 /\ c <> 46.

End Spec.

(** Runs the straight-line code of the three [get_..._service] functions
    down to the outcome, the world and the log of every path. *)
Ltac run_service :=
  unfold FetchEmail.get_gmail_service, FetchEmail.load_token, FetchEmail.run_flow,
    FetchEmail.save_token, CreateCalendarEvent.get_calendar_service,
    CreateCalendarEvent.load_token, CreateCalendarEvent.run_flow,
    CreateCalendarEvent.save_token, SendEmail.get_gmail_service,
    Api.from_authorized_user_file,
    Eff.refresh, Eff.bind, Eff.lift, Eff.get_process, Eff.read_token_file,
    Eff.credentials_file_exists, Eff.remote_call, Eff.write_token_file, Eff.print,
    Eff.sys_exit, Eff.ret, Eff.raise, Eff.outcome_of, Eff.world_of, Eff.log_of.

(* ===================================================================== *)
(** * Properties                                                          *)
(* ===================================================================== *)

Import Py Api Eff Spec.
Local Open Scope eff_scope.

(** ** What a computation can call *)

Section Emits.
Context {R : Type} (P : call -> Prop).

Lemma emits_ret {A} (a : A) : emits P (ret (R := R) a).
Proof. intros w. constructor. Qed.

Lemma emits_raise {A} (e : exn) : emits P (raise (R := R) (A := A) e).
Proof. intros w. constructor. Qed.

Lemma emits_sys_exit {A} (c : Z) : emits P (sys_exit (R := R) (A := A) c).
Proof. intros w. constructor. Qed.

Lemma emits_lift {A} (r : result A) : emits P (lift (R := R) r).
Proof. destruct r; intros w; constructor. Qed.

Lemma emits_print (line : pystr) : emits P (print (R := R) line).
Proof. intros w. constructor. Qed.

Lemma emits_get_process : emits P (get_process (R := R)).
Proof. intros w. constructor. Qed.

Lemma emits_read_token_file : emits P (read_token_file (R := R)).
Proof. intros w. constructor. Qed.

Lemma emits_write_token_file (info : authorized_user_info) :
  emits P (write_token_file (R := R) info).
Proof. intros w. constructor. Qed.

Lemma emits_credentials_file_exists : emits P (credentials_file_exists (R := R)).
Proof. intros w. constructor. Qed.

Lemma emits_remote_call {A} (op : R -> result A * R) (entry : result A -> call) :
  (forall r, P (entry r)) -> emits P (remote_call op entry).
Proof.
  intros Hentry w. unfold remote_call, log_of.
  destruct (op (remote w)) as [[a | e] r']; simpl; repeat constructor; apply Hentry.
Qed.

Lemma emits_bind {A B} (m : M R A) (k : A -> M R B) :
  emits P m -> (forall a, emits P (k a)) -> emits P (bind m k).
Proof.
  intros Hm Hk w. specialize (Hm w). unfold bind, log_of in *.
  destruct (m w) as [[[a | e | c] w'] l]; simpl in *; try exact Hm.
  specialize (Hk a w'). unfold log_of in Hk.
  destruct (k a w') as [[o w''] l']. simpl in *.
  apply Forall_app. split; assumption.
Qed.

End Emits.

(** Walks through a straight-line computation with the rules above. *)
Ltac emits_step :=
  first
    [ apply emits_ret | apply emits_raise | apply emits_sys_exit | apply emits_lift
    | apply emits_print | apply emits_get_process | apply emits_read_token_file
    | apply emits_write_token_file | apply emits_credentials_file_exists
    | apply emits_remote_call; intros; simpl; auto
    | apply emits_bind; [| intros ?]
    | match goal with
      | |- emits _ (if ?b then _ else _) => destruct b
      | |- emits _ (match ?x with _ => _ end) => destruct x
      end ].

Section Calls.
Context {R : Type} `{Remote R} (P : call -> Prop).

Lemma refresh_emits (c : Credentials) :
  (forall c r, P (Refresh c r)) -> emits P (refresh (R := R) c).
Proof. intros HP. unfold refresh. apply emits_remote_call. apply HP. Qed.

(** The three functions that obtain a credential refresh, and two of them
    run the grant with their own scopes. *)
Lemma fetch_service_emits :
  (forall c r, P (Refresh c r)) ->
  (forall r, P (RunLocalServer FetchEmail.SCOPES r)) ->
  emits P (FetchEmail.get_gmail_service (R := R)).
Proof.
  intros HR HG.
  unfold FetchEmail.get_gmail_service, FetchEmail.load_token, FetchEmail.run_flow,
    FetchEmail.save_token.
  repeat first [ apply refresh_emits; exact HR | emits_step ].
Qed.

Lemma calendar_service_emits :
  (forall c r, P (Refresh c r)) ->
  (forall r, P (RunLocalServer CreateCalendarEvent.SCOPES r)) ->
  emits P (CreateCalendarEvent.get_calendar_service (R := R)).
Proof.
  intros HR HG.
  unfold CreateCalendarEvent.get_calendar_service, CreateCalendarEvent.load_token,
    CreateCalendarEvent.run_flow, CreateCalendarEvent.save_token.
  repeat first [ apply refresh_emits; exact HR | emits_step ].
Qed.

Lemma send_service_emits :
  (forall c r, P (Refresh c r)) ->
  emits P (SendEmail.get_gmail_service (R := R)).
Proof.
  intros HR. unfold SendEmail.get_gmail_service.
  repeat first [ apply refresh_emits; exact HR | emits_step ].
Qed.

(** Listing the mail lists and gets messages. *)
Lemma fetch_messages_emits (service : Service) (messages : list pystr) :
  (forall id r, P (MessagesGet id r)) ->
  forall emails, emits P (FetchEmail.fetch_messages (R := R) service messages emails).
Proof.
  intros HP. induction messages as [| id rest IH]; intros emails;
    cbn [FetchEmail.fetch_messages].
  - apply emits_ret.
  - repeat first [ apply IH | emits_step ].
Qed.

Lemma get_unread_emails_emits (service : Service) (n : Z) :
  (forall l k r, P (MessagesList l k r)) ->
  (forall id r, P (MessagesGet id r)) ->
  emits P (FetchEmail.get_unread_emails (R := R) service n).
Proof.
  intros HL HG. unfold FetchEmail.get_unread_emails.
  repeat first [ apply fetch_messages_emits; exact HG | emits_step ].
Qed.

(** The sync loop posts notes and marks messages. *)
Lemma process_emails_emits (service : Service) (emails : list FetchEmail.email) :
  (forall url b c r, P (RequestsPost url b c r)) ->
  (forall id l r, P (MessagesModify id l r)) ->
  emits P (FetchEmail.process_emails (R := R) service emails).
Proof.
  intros HP HM. induction emails as [| e rest IH]; cbn [FetchEmail.process_emails].
  - apply emits_ret.
  - unfold FetchEmail.create_memo, FetchEmail.mark_as_read.
    repeat first [ apply IH | emits_step ].
Qed.

End Calls.

Section Grants.
Context {R : Type} `{Remote R}.

Lemma fetch_main_grants : emits (grant_for FetchEmail.SCOPES) (FetchEmail.main (R := R)).
Proof.
  unfold FetchEmail.main.
  repeat first
    [ apply fetch_service_emits; intros; simpl; auto
    | apply get_unread_emails_emits; intros; exact I
    | apply process_emails_emits; intros; exact I
    | emits_step ].
Qed.

Lemma calendar_main_grants (c : CreateCalendarEvent.cli) :
  emits (grant_for CreateCalendarEvent.SCOPES) (CreateCalendarEvent.main (R := R) c).
Proof.
  unfold CreateCalendarEvent.main, CreateCalendarEvent.create_event,
    CreateCalendarEvent.parser_error.
  repeat first [ apply calendar_service_emits; intros; simpl; auto | emits_step ].
Qed.

Lemma send_main_no_grant (mime_raw : pystr -> pystr -> pystr -> pystr) (to subject body : pystr) :
  emits no_grant (SendEmail.main (R := R) mime_raw to subject body).
Proof.
  unfold SendEmail.main, SendEmail.send_email.
  repeat first [ apply send_service_emits; intros; exact I | emits_step ].
Qed.

End Grants.

(** ** The note sink: [create_memo] *)

Section CreateMemo.
Context {R : Type} `{Remote R}.
Import FetchEmail.

(** What [create_memo] does once the sink has answered. *)
Lemma create_memo_answered (content : pystr) (w : world R) (resp : response) (r' : R) :
  truthy_str (MEMOS_API_TOKEN (proc w)) = true ->
  requests_post (memos_url (proc w)) (default (lit "") (MEMOS_API_TOKEN (proc w))) content (remote w)
    = (Ok resp, r') ->
  create_memo content w =
    ( Ret (status_code resp =? 200),
      mk_world (proc w) (token_file w) (credentials_file w)
        (stdout w ++ (if status_code resp =? 200 then [] else [rejection_line resp]))
        r',
      [RequestsPost (memos_url (proc w)) (default (lit "") (MEMOS_API_TOKEN (proc w))) content (Ok resp)] ).
Proof.
  intros Htok Hpost.
  unfold create_memo, bind, get_process, remote_call, memos_url in *.
  destruct (MEMOS_API_TOKEN (proc w)) as [[|c tok]|]; try discriminate Htok.
  simpl in *. rewrite Hpost.
  destruct (status_code resp =? 200); simpl.
  - rewrite app_nil_r. reflexivity.
  - reflexivity.
Qed.

(** C6 (as amended): for every note-creation call that the sink answers,
    [create_memo] succeeds if and only if the status is exactly 200; every
    other status, the other 2xx ones included, gives [False] and one printed
    line that carries the status code and the response body. *)
Theorem create_memo_success_iff_status_200
    (content : pystr) (w : world R) (resp : response) (r' : R) :
  truthy_str (MEMOS_API_TOKEN (proc w)) = true ->
  requests_post (memos_url (proc w)) (default (lit "") (MEMOS_API_TOKEN (proc w))) content (remote w)
    = (Ok resp, r') ->
  (outcome_of (create_memo content w) = Ret true <-> status_code resp = 200) /\
  (status_code resp <> 200 ->
     outcome_of (create_memo content w) = Ret false /\
     stdout (world_of (create_memo content w)) = stdout w ++ [rejection_line resp]).
Proof.
  intros Htok Hpost.
  rewrite (create_memo_answered content w resp r' Htok Hpost).
  unfold outcome_of, world_of; simpl.
  destruct (Z.eqb_spec (status_code resp) 200) as [Heq | Hne].
  - split; [tauto | intros Hne; contradiction].
  - split.
    + split; [discriminate | intros Heq; contradiction].
    + intros _. split; reflexivity.
Qed.

End CreateMemo.

Lemma create_memo_success_iff_status_200_witness :
  let w := Fake.start_world (Fake.configured []) None
             (Fake.with_post (fun _ => Ok (mk_response 500 (lit "boom"))) Fake.friendly) in
  (outcome_of (FetchEmail.create_memo (lit "note") w) = Ret true <-> 500 = 200) /\
  (500 <> 200 ->
     outcome_of (FetchEmail.create_memo (lit "note") w) = Ret false /\
     stdout (world_of (FetchEmail.create_memo (lit "note") w))
       = [] ++ [rejection_line (mk_response 500 (lit "boom"))]).
Proof.
  intros w.
  apply (create_memo_success_iff_status_200 (lit "note") w
           (mk_response 500 (lit "boom")) (remote w)).
  - vm_compute. reflexivity.
  - vm_compute. reflexivity.
Defined.

(** C6 (as stated) fails: 201 is a 200-class status, and [create_memo]
    reports the note as rejected. *)
Lemma create_memo_rejects_201 :
  let w := Fake.start_world (Fake.configured []) None
             (Fake.with_post (fun _ => Ok (mk_response 201 (lit "created"))) Fake.friendly) in
  200 <= 201 < 300 /\
  FetchEmail.create_memo (lit "note") w =
    ( Ret false,
      mk_world (proc w) None true [lit "Error creating memo: 201 created"] (remote w),
      [RequestsPost (lit "http://localhost:5230/api/v1/memos") (lit "secret") (lit "note")
         (Ok (mk_response 201 (lit "created")))] ).
Proof. split; [lia | vm_compute; reflexivity]. Qed.

(** ** The sync loop of [fetch_email.py] *)

Section SyncLoop.
Context {R : Type} `{Remote R}.
Import FetchEmail.

(** The three ways [create_memo] can end. *)
Lemma create_memo_cases (content : pystr) (w : world R) :
  (exists url bearer resp w',
      create_memo content w =
        (Ret (status_code resp =? 200), w', [RequestsPost url bearer content (Ok resp)]))
  \/ (exists url bearer e w',
         create_memo content w = (Raise e, w', [RequestsPost url bearer content (Err e)]))
  \/ (exists w', create_memo content w = (Ret false, w', [])).
Proof.
  unfold create_memo, bind, get_process, remote_call.
  destruct (MEMOS_API_TOKEN (proc w)) as [[|c tok]|]; simpl.
  - right; right. eexists; reflexivity.
  - destruct (requests_post _ _ _ _) as [[resp | e] r'].
    + left. exists (MEMOS_BASE_URL (proc w) ++ lit "/api/v1/memos"), (c :: tok), resp.
      destruct (status_code resp =? 200); simpl; eexists; reflexivity.
    + right; left. do 4 eexists. reflexivity.
  - right; right. eexists; reflexivity.
Qed.

(** [create_memo] returns [True] exactly when the sink answered its post
    with status 200. *)
Lemma create_memo_true_iff (content : pystr) (w : world R) :
  outcome_of (create_memo content w) = Ret true <->
  exists url bearer resp,
    log_of (create_memo content w) = [RequestsPost url bearer content (Ok resp)] /\
    status_code resp = 200.
Proof.
  destruct (create_memo_cases content w)
    as [(url & bearer & resp & w' & Hc) | [(url & bearer & err & w' & Hc) | (w' & Hc)]];
    rewrite Hc; unfold outcome_of, log_of; simpl.
  - split.
    + intros Hret. exists url, bearer, resp. split; [reflexivity |].
      injection Hret as Hret. apply Z.eqb_eq. exact Hret.
    + intros (url' & bearer' & resp' & Hlog & H200).
      injection Hlog as _ _ <-. apply Z.eqb_eq in H200. rewrite H200. reflexivity.
  - split; [discriminate |].
    intros (url' & bearer' & resp' & Hlog & _). discriminate Hlog.
  - split; [discriminate |].
    intros (url' & bearer' & resp' & Hlog & _). discriminate Hlog.
Qed.

(** The two ways [mark_as_read] can end. *)
Lemma mark_as_read_cases (service : Service) (id : pystr) (w : world R) :
  (exists w', mark_as_read service id w
              = (Ret tt, w', [MessagesModify id [lit "UNREAD"] (Ok tt)]))
  \/ (exists e w', mark_as_read service id w
                   = (Raise e, w', [MessagesModify id [lit "UNREAD"] (Err e)])).
Proof.
  unfold mark_as_read, remote_call.
  destruct (messages_modify _ _ _) as [[[] | e] r'].
  - left. eexists; reflexivity.
  - right. do 2 eexists; reflexivity.
Qed.

(** The log of the loop is one of the logs [sync_log] describes. *)
Lemma process_emails_log (service : Service) (emails : list email) :
  forall w : world R, sync_log emails (log_of (process_emails service emails w)).
Proof.
  induction emails as [| e rest IH]; intros w.
  - apply sync_done.
  - cbn [process_emails]. unfold bind at 1 2. unfold print at 1. cbv beta iota.
    set (w1 := mk_world _ _ _ _ _).
    pose proof (IH w1) as IH1.
    destruct (create_memo_cases (email_to_memo_content e) w1)
      as [(url & bearer & resp & w2 & Hc) | [(url & bearer & err & w2 & Hc) | (w2 & Hc)]];
      rewrite Hc.
    + destruct (Z.eqb_spec (status_code resp) 200) as [H200 | Hne].
      * unfold bind at 1 2.
        destruct (mark_as_read_cases service (e_id e) w2) as [(w3 & Hm) | (err & w3 & Hm)];
          rewrite Hm.
        -- unfold print at 1. cbv beta iota.
           specialize (IH (mk_world (proc w3) (token_file w3) (credentials_file w3)
                             (stdout w3 ++ [lit "    " ++ [10003] ++ lit " Created memo, marked as read"])
                             (remote w3))).
           destruct (process_emails service rest _) as [[o w4] l].
           unfold log_of in *. simpl in *.
           apply sync_delivered; assumption.
        -- unfold log_of. simpl. apply sync_mark_raised. exact H200.
      * unfold bind at 1. unfold print at 1. cbv beta iota.
        specialize (IH (mk_world (proc w2) (token_file w2) (credentials_file w2)
                          (stdout w2 ++ [lit "    " ++ [10007] ++ lit " Failed to create memo"])
                          (remote w2))).
        destruct (process_emails service rest _) as [[o w4] l].
        unfold log_of in *. simpl in *.
        apply sync_rejected; assumption.
    + unfold log_of. simpl. apply sync_post_raised.
    + unfold bind at 1. unfold print at 1. cbv beta iota.
      specialize (IH (mk_world (proc w2) (token_file w2) (credentials_file w2)
                        (stdout w2 ++ [lit "    " ++ [10007] ++ lit " Failed to create memo"])
                        (remote w2))).
      destruct (process_emails service rest _) as [[o w4] l].
      unfold log_of in *. simpl in *.
      apply sync_unconfigured; assumption.
Qed.

(** In such a log every [mark_as_read] comes right after the confirmed
    creation of the note of the same mail. *)
Lemma sync_log_mark_follows_creation es l :
  sync_log es l ->
  forall pre id lbls r post,
    l = pre ++ MessagesModify id lbls r :: post ->
    exists pre' c e,
      pre = pre' ++ [c] /\ In e es /\ e_id e = id /\ created e c.
Proof.
  induction 1 as [| e es url bearer resp l H200 Hl IH
                  | e es url bearer resp err H200
                  | e es url bearer resp l Hne Hl IH
                  | e es url bearer err
                  | e es l Hl IH];
    intros pre id lbls r post Heq.
  - destruct pre; discriminate Heq.
  - destruct pre as [| c1 [| c2 pre]]; simpl in Heq; try discriminate Heq.
    + injection Heq as <- <- _ _ _.
      exists [], (RequestsPost url bearer (email_to_memo_content e) (Ok resp)), e.
      repeat split; [left; reflexivity | ].
      exists url, bearer, resp. split; [reflexivity | exact H200].
    + injection Heq as <- <- Heq.
      destruct (IH _ _ _ _ _ Heq) as (pre' & c & e' & -> & Hin & Hid & Hc).
      exists (RequestsPost url bearer (email_to_memo_content e) (Ok resp)
                :: MessagesModify (e_id e) [lit "UNREAD"] (Ok tt) :: pre'), c, e'.
      repeat split; [right; exact Hin | exact Hid | exact Hc].
  - destruct pre as [| c1 [| c2 pre]]; simpl in Heq; try discriminate Heq.
    + injection Heq as <- <- _ _ _.
      exists [], (RequestsPost url bearer (email_to_memo_content e) (Ok resp)), e.
      repeat split; [left; reflexivity | ].
      exists url, bearer, resp. split; [reflexivity | exact H200].
    + injection Heq as _ _ Heq. destruct pre; discriminate Heq.
  - destruct pre as [| c1 pre]; simpl in Heq; try discriminate Heq.
    injection Heq as <- Heq.
    destruct (IH _ _ _ _ _ Heq) as (pre' & c & e' & -> & Hin & Hid & Hc).
    exists (RequestsPost url bearer (email_to_memo_content e) (Ok resp) :: pre'), c, e'.
    repeat split; [right; exact Hin | exact Hid | exact Hc].
  - destruct pre as [| c1 pre]; simpl in Heq; try discriminate Heq.
    injection Heq as _ Heq. destruct pre; discriminate Heq.
  - destruct (IH _ _ _ _ _ Heq) as (pre' & c & e' & -> & Hin & Hid & Hc).
    exists pre', c, e'.
    repeat split; [right; exact Hin | exact Hid | exact Hc].
Qed.

(** In such a log every confirmed creation is followed at once by the
    [mark_as_read] of the same mail. *)
Lemma sync_log_creation_followed_by_mark es l :
  sync_log es l ->
  forall pre url bearer content resp post,
    l = pre ++ RequestsPost url bearer content (Ok resp) :: post ->
    status_code resp = 200 ->
    exists e c post',
      In e es /\ content = email_to_memo_content e /\
      post = c :: post' /\ marked (e_id e) c.
Proof.
  induction 1 as [| e es url' bearer' resp' l H200 Hl IH
                  | e es url' bearer' resp' err H200
                  | e es url' bearer' resp' l Hne Hl IH
                  | e es url' bearer' err
                  | e es l Hl IH];
    intros pre url bearer content resp post Heq Hok.
  - destruct pre; discriminate Heq.
  - destruct pre as [| c1 [| c2 pre]]; simpl in Heq; try discriminate Heq.
    + injection Heq as _ _ <- _ <-.
      exists e, (MessagesModify (e_id e) [lit "UNREAD"] (Ok tt)), l.
      repeat split; [left; reflexivity | ]. eexists; reflexivity.
    + injection Heq as _ _ Heq.
      destruct (IH _ _ _ _ _ _ Heq Hok) as (e' & c & post' & Hin & Hc & Hp & Hm).
      exists e', c, post'. repeat split; [right; exact Hin | exact Hc | exact Hp | exact Hm].
  - destruct pre as [| c1 [| c2 pre]]; simpl in Heq; try discriminate Heq.
    + injection Heq as _ _ <- _ <-.
      exists e, (MessagesModify (e_id e) [lit "UNREAD"] (Err err)), [].
      repeat split; [left; reflexivity | ]. eexists; reflexivity.
    + injection Heq as _ _ Heq. destruct pre; discriminate Heq.
  - destruct pre as [| c1 pre]; simpl in Heq.
    + injection Heq as _ _ _ Hr _. subst resp'. contradiction.
    + injection Heq as _ Heq.
      destruct (IH _ _ _ _ _ _ Heq Hok) as (e' & c & post' & Hin & Hc & Hp & Hm).
      exists e', c, post'. repeat split; [right; exact Hin | exact Hc | exact Hp | exact Hm].
  - destruct pre as [| c1 pre]; simpl in Heq; try discriminate Heq.
    injection Heq as _ Heq. destruct pre; discriminate Heq.
  - destruct (IH _ _ _ _ _ _ Heq Hok) as (e' & c & post' & Hin & Hc & Hp & Hm).
    exists e', c, post'. repeat split; [right; exact Hin | exact Hc | exact Hp | exact Hm].
Qed.

(** With the sink configured, the log of the loop is made of the calls of
    the mails, one mail after the other in the order of the list, up to the
    mail at which an exception stopped the loop. *)
Lemma process_emails_items (service : Service) (emails : list email) :
  forall w : world R,
    truthy_str (MEMOS_API_TOKEN (proc w)) = true ->
    exists items,
      log_of (process_emails service emails w) = concat items /\
      Forall2 item_calls (take (length items) emails) items /\
      (outcome_of (process_emails service emails w) = Ret tt ->
       length items = length emails).
Proof.
  induction emails as [| em rest IH]; intros w Htruthy.
  - exists []. repeat split. constructor.
  - cbn [process_emails].
    unfold create_memo, mark_as_read.
    unfold bind, print, get_process, remote_call, ret.
    cbv beta iota. cbn [proc].
    destruct (MEMOS_API_TOKEN (proc w)) as [[| c tok] |] eqn:Htok;
      try discriminate Htruthy.
    cbv beta iota.
    match goal with
    | |- context [requests_post ?u ?b ?ct ?r] =>
        destruct (requests_post u b ct r) as [[resp | err] r1]
    end; cbv beta iota.
    + destruct (Z.eqb_spec (status_code resp) 200) as [H200 | Hne]; cbv beta iota.
      * match goal with
        | |- context [messages_modify ?i ?ls ?r] =>
            destruct (messages_modify i ls r) as [[[] | err] r2]
        end; cbv beta iota.
        -- match goal with
           | |- context [process_emails service rest ?W] =>
               assert (Ht : truthy_str (MEMOS_API_TOKEN (proc W)) = true)
                 by (cbn; rewrite Htok; reflexivity);
               destruct (IH W Ht) as (items & Hlog & Hitems & Hlen);
               destruct (process_emails service rest W) as [[o w4] l]
           end.
           unfold outcome_of, log_of in *. cbn in *. subst l.
           exists ([ RequestsPost (MEMOS_BASE_URL (proc w) ++ lit "/api/v1/memos") (c :: tok)
                 (email_to_memo_content em) (Ok resp);
                     MessagesModify (e_id em) [lit "UNREAD"] (Ok tt) ] :: items).
           split; [cbn; reflexivity |].
           split; [| intros Ho; cbn; f_equal; exact (Hlen Ho)].
           cbn. constructor; [| exact Hitems].
           do 3 eexists. right. split; [exists resp; split; [reflexivity | exact H200] |].
           eexists. reflexivity.
        -- unfold outcome_of, log_of. cbn.
           exists [[ RequestsPost (MEMOS_BASE_URL (proc w) ++ lit "/api/v1/memos") (c :: tok)
                 (email_to_memo_content em) (Ok resp);
                     MessagesModify (e_id em) [lit "UNREAD"] (Err err) ]].
           split; [cbn; reflexivity |].
           split; [| discriminate].
           cbn. constructor; [| constructor].
           do 3 eexists. right. split; [exists resp; split; [reflexivity | exact H200] |].
           eexists. reflexivity.
      * match goal with
        | |- context [process_emails service rest ?W] =>
            assert (Ht : truthy_str (MEMOS_API_TOKEN (proc W)) = true)
              by (cbn; rewrite Htok; reflexivity);
            destruct (IH W Ht) as (items & Hlog & Hitems & Hlen);
            destruct (process_emails service rest W) as [[o w4] l]
        end.
        unfold outcome_of, log_of in *. cbn in *. subst l.
        exists ([ RequestsPost (MEMOS_BASE_URL (proc w) ++ lit "/api/v1/memos") (c :: tok)
                 (email_to_memo_content em) (Ok resp) ] :: items).
        split; [cbn; reflexivity |].
        split; [| intros Ho; cbn; f_equal; exact (Hlen Ho)].
        cbn. constructor; [| exact Hitems].
        do 3 eexists. left. split; [| reflexivity].
        intros (resp' & Hresp & H200). injection Hresp as <-. contradiction.
    + unfold outcome_of, log_of. cbn.
      exists [[ RequestsPost (MEMOS_BASE_URL (proc w) ++ lit "/api/v1/memos") (c :: tok)
                 (email_to_memo_content em) (Err err) ]].
      split; [cbn; reflexivity |].
      split; [| discriminate].
      cbn. constructor; [| constructor].
      do 3 eexists. left. split; [| reflexivity].
      intros (resp' & Hresp & _). discriminate Hresp.
Qed.

(** Without [MEMOS_API_TOKEN] the loop makes no call at all. *)
Lemma process_emails_unconfigured (service : Service) (emails : list email) :
  forall w : world R,
    truthy_str (MEMOS_API_TOKEN (proc w)) = false ->
    log_of (process_emails service emails w) = [].
Proof.
  induction emails as [| em rest IH]; intros w Hfalsy; [reflexivity |].
  cbn [process_emails].
  unfold create_memo.
  unfold bind, print, get_process, ret.
  cbv beta iota. cbn [proc].
  destruct (MEMOS_API_TOKEN (proc w)) as [[| c tok] |] eqn:Htok;
    try discriminate Hfalsy; cbv beta iota;
    match goal with
    | |- context [process_emails service rest ?W] =>
        assert (Ht : truthy_str (MEMOS_API_TOKEN (proc W)) = false)
          by (cbn; rewrite Htok; reflexivity);
        specialize (IH W Ht);
        destruct (process_emails service rest W) as [[o w4] l]
    end; unfold log_of in *; cbn in *; exact IH.
Qed.

(** C1: in the sync loop [mark_as_read] is invoked for a mail if and only
    if [create_memo] has just returned success for that same mail.
    [create_memo] returns [True] exactly when its one call to the sink was
    answered with status 200.  With the sink configured, the log of the
    loop is the calls of the first mail, then those of the second, and so
    on in the order of the list; the calls of a mail are the creation of
    the note of that mail and, after it, the [mark_as_read] of the message
    of that mail exactly when the sink confirmed that creation: never
    before it, never without it, and never for the message of another mail
    that happens to give the same note.  Every mail is reached unless an
    exception stops the loop.  Without the sink configured [create_memo]
    succeeds for no mail and the loop marks nothing. *)
Theorem mark_as_read_iff_memo_created (service : Service) (emails : list email) (w : world R) :
  (forall content w0,
      outcome_of (create_memo content w0) = Ret true <->
      exists url bearer resp,
        log_of (create_memo content w0) = [RequestsPost url bearer content (Ok resp)] /\
        status_code resp = 200)
  /\
  (truthy_str (MEMOS_API_TOKEN (proc w)) = true ->
   exists items,
     log_of (process_emails service emails w) = concat items /\
     Forall2 item_calls (take (length items) emails) items /\
     (outcome_of (process_emails service emails w) = Ret tt ->
      length items = length emails))
  /\
  (truthy_str (MEMOS_API_TOKEN (proc w)) = false ->
   log_of (process_emails service emails w) = []).
Proof.
  split; [| split].
  - apply create_memo_true_iff.
  - apply process_emails_items.
  - apply process_emails_unconfigured.
Qed.

End SyncLoop.

(** ** The whole run of [fetch_email.py] *)

Section SyncRun.
Context {R : Type} `{Remote R}.
Import FetchEmail.

Lemma get_gmail_service_no_sync_call (w : world R) :
  Forall (fun c => sync_call c = false) (log_of (get_gmail_service w)).
Proof. apply fetch_service_emits; reflexivity. Qed.

Lemma get_unread_emails_no_sync_call (service : Service) (n : Z) (w : world R) :
  Forall (fun c => sync_call c = false) (log_of (get_unread_emails service n w)).
Proof. apply get_unread_emails_emits; reflexivity. Qed.

(** The log of a run: calls that obtain the credential and list the mail,
    then the log of the sync loop over the mails that were fetched. *)
Lemma main_log (w : world R) :
  exists before emails loop,
    log_of (main w) = before ++ loop /\
    Forall (fun c => sync_call c = false) before /\
    sync_log emails loop.
Proof.
  unfold main. unfold bind at 1, get_process at 1. cbv beta iota.
  destruct (bool_decide _).
  - unfold bind at 1 2, print at 1. cbv beta iota.
    match goal with
    | |- context [get_gmail_service ?w1] =>
        pose proof (get_gmail_service_no_sync_call w1) as Hs;
        destruct (get_gmail_service w1) as [[[sv | e | c] w2] l]
    end; unfold log_of in *; simpl in *;
      exists l, [], []; rewrite ?app_nil_r; (split; [reflexivity | split; [exact Hs | constructor]]).
  - destruct (negb _).
    + exists [], [], []. split; [reflexivity | split; constructor].
    + unfold bind at 1 2, print at 1. cbv beta iota.
      match goal with
      | |- context [get_gmail_service ?w1] =>
          pose proof (get_gmail_service_no_sync_call w1) as Hs;
          destruct (get_gmail_service w1) as [[[sv | e | c] w2] l]
      end; unfold log_of in *; simpl in *;
        try (exists l, [], []; rewrite ?app_nil_r;
             split; [reflexivity | split; [exact Hs | constructor]]).
      unfold bind at 1 2, print at 1. cbv beta iota.
      match goal with
      | |- context [get_unread_emails sv 10 ?w3] =>
          pose proof (get_unread_emails_no_sync_call sv 10 w3) as Hu;
          destruct (get_unread_emails sv 10 w3) as [[[ems | e | c] w4] l']
      end; unfold log_of in *; simpl in *;
        try (exists (l ++ l'), [], []; rewrite ?app_nil_r;
             split; [reflexivity | split; [apply Forall_app; split; assumption | constructor]]).
      destruct ems as [| em ems].
      * exists (l ++ l'), [], []. simpl. rewrite ?app_nil_r.
        split; [reflexivity | split; [apply Forall_app; split; assumption | constructor]].
      * unfold bind at 1 2, print at 1. cbv beta iota.
        match goal with
        | |- context [process_emails sv ?es ?w5] =>
            pose proof (process_emails_log sv es w5) as Hp;
            destruct (process_emails sv es w5) as [[[[] | e | c] w6] l'']
        end; unfold log_of in *; simpl in *;
          exists (l ++ l'), (em :: ems), l''; rewrite ?app_nil_r, ?app_assoc;
          (split; [reflexivity | split; [apply Forall_app; split; assumption | exact Hp]]).
Qed.

(** Where an entry of the loop sits when calls of another kind come first. *)
Lemma split_after_prefix (before loop pre post : list call) (c : call) :
  Forall (fun c => sync_call c = false) before ->
  sync_call c = true ->
  before ++ loop = pre ++ c :: post ->
  exists pre2, pre = before ++ pre2 /\ loop = pre2 ++ c :: post.
Proof.
  intros Hb Hc. revert pre.
  induction Hb as [| b before Hbf Hb IH]; intros pre Heq; simpl in *.
  - exists pre. split; [reflexivity | exact Heq].
  - destruct pre as [| p pre]; simpl in Heq.
    + injection Heq as -> _. congruence.
    + injection Heq as <- Heq. destruct (IH pre Heq) as (pre2 & -> & Hl).
      exists pre2. split; [reflexivity | exact Hl].
Qed.

(** The ordering of C1 over a whole run of [main]: a [mark_as_read] comes
    right after the confirmed creation of the note of the same mail, and a
    confirmed creation is followed at once by the mark of that mail. *)
Lemma main_marks_iff_created (w : world R) :
  (forall pre id lbls r post,
      log_of (main w) = pre ++ MessagesModify id lbls r :: post ->
      exists pre' c e, pre = pre' ++ [c] /\ e_id e = id /\ created e c)
  /\
  (forall pre url bearer content resp post,
      log_of (main w) = pre ++ RequestsPost url bearer content (Ok resp) :: post ->
      status_code resp = 200 ->
      exists e c post',
        content = email_to_memo_content e /\ post = c :: post' /\ marked (e_id e) c).
Proof.
  destruct (main_log w) as (before & emails & loop & Hlog & Hb & Hloop).
  rewrite Hlog. split.
  - intros pre id lbls r post Heq.
    destruct (split_after_prefix before loop pre post (MessagesModify id lbls r)
                Hb eq_refl Heq) as (pre2 & -> & Hl).
    destruct (sync_log_mark_follows_creation _ _ Hloop _ _ _ _ _ Hl)
      as (pre' & c & e & -> & _ & Hid & Hc).
    exists (before ++ pre'), c, e. rewrite app_assoc. auto.
  - intros pre url bearer content resp post Heq Hok.
    destruct (split_after_prefix before loop pre post
                (RequestsPost url bearer content (Ok resp)) Hb eq_refl Heq)
      as (pre2 & -> & Hl).
    destruct (sync_log_creation_followed_by_mark _ _ Hloop _ _ _ _ _ _ Hl Hok)
      as (e & c & post' & _ & Hc & Hp & Hm).
    exists e, c, post'. auto.
Qed.

End SyncRun.

(** ** Obtaining a credential *)

Section Credentials.
Context {R : Type} `{Remote R}.

(** A token file with the keys the loader needs gives the credential
    [credentials_of]. *)
Lemma load_with_needed_keys (info : authorized_user_info) (sc : list pystr) :
  has_needed_keys info = true ->
  from_authorized_user_file info sc = Ok (credentials_of info sc).
Proof. intros Hkeys. unfold from_authorized_user_file. rewrite Hkeys. reflexivity. Qed.

(** A valid, unexpired credential is returned as it is and no call is
    made. *)
Lemma valid_credential_returned (w : world R) (info : authorized_user_info) (t : pystr) :
  token_file w = Some info ->
  has_needed_keys info = true ->
  key_value (info_token info) = Some t ->
  info_expired info = false ->
  FetchEmail.get_gmail_service w =
    (Ret (build "gmail" "v1" (credentials_of info FetchEmail.SCOPES)), w, [])
  /\ SendEmail.get_gmail_service w =
    (Ret (build "gmail" "v1" (credentials_of info SendEmail.SCOPES)), w, []).
Proof.
  intros Hfile Hkeys Htok Hexp. run_service. rewrite Hfile, Hkeys. simpl.
  unfold valid. simpl. rewrite Htok, Hexp. split; reflexivity.
Qed.

(** A cached token that is still good is returned as it is, without any
    call, whatever scopes the file says it was granted. *)
Lemma calendar_cached_token_returned (w : world R) (info : authorized_user_info) (t : pystr) :
  token_file w = Some info ->
  has_needed_keys info = true ->
  key_value (info_token info) = Some t ->
  info_expired info = false ->
  CreateCalendarEvent.get_calendar_service w =
    (Ret (build "calendar" "v3" (credentials_of info CreateCalendarEvent.SCOPES)), w, []).
Proof.
  intros Hfile Hkeys Htok Hexp. run_service. rewrite Hfile, Hkeys. simpl.
  unfold valid. simpl. rewrite Htok, Hexp. reflexivity.
Qed.

(** [fetch_email.py]: an expired credential with a refresh token is
    refreshed with one call and saved before the service is returned. *)
Lemma fetch_refresh_persisted (w : world R) (info : authorized_user_info)
    (creds : Credentials) (r' : R) :
  token_file w = Some info ->
  has_needed_keys info = true ->
  info_expired info = true ->
  truthy_str (key_value (info_refresh_token info)) = true ->
  oauth_refresh (credentials_of info FetchEmail.SCOPES) (remote w) = (Ok creds, r') ->
  outcome_of (FetchEmail.get_gmail_service w) = Ret (build "gmail" "v1" creds) /\
  token_file (world_of (FetchEmail.get_gmail_service w)) = Some (to_json creds) /\
  log_of (FetchEmail.get_gmail_service w)
    = [Refresh (credentials_of info FetchEmail.SCOPES) (Ok creds)].
Proof.
  intros Hfile Hkeys Hexp Htruthy Hcall. run_service. rewrite Hfile, Hkeys. simpl.
  unfold valid. simpl. rewrite Hexp, Htruthy.
  destruct (key_value (info_token info)); simpl; rewrite Hcall; simpl; auto.
Qed.

(** [create_calendar_event.py] does the same. *)
Lemma calendar_refresh_persisted (w : world R) (info : authorized_user_info)
    (creds : Credentials) (r' : R) :
  token_file w = Some info ->
  has_needed_keys info = true ->
  info_expired info = true ->
  truthy_str (key_value (info_refresh_token info)) = true ->
  oauth_refresh (credentials_of info CreateCalendarEvent.SCOPES) (remote w) = (Ok creds, r') ->
  outcome_of (CreateCalendarEvent.get_calendar_service w) = Ret (build "calendar" "v3" creds) /\
  token_file (world_of (CreateCalendarEvent.get_calendar_service w)) = Some (to_json creds) /\
  log_of (CreateCalendarEvent.get_calendar_service w)
    = [Refresh (credentials_of info CreateCalendarEvent.SCOPES) (Ok creds)].
Proof.
  intros Hfile Hkeys Hexp Htruthy Hcall. run_service. rewrite Hfile, Hkeys. simpl.
  unfold valid. simpl. rewrite Hexp, Htruthy.
  destruct (key_value (info_token info)); simpl; rewrite Hcall; simpl; auto.
Qed.


(** C4 (as amended): when the token endpoint rejects the refresh of an
    expired credential with a refresh token, the error of the refresh
    leaves each of the three entry points unhandled: the refresh is the only
    call made, no interactive grant is started, nothing is printed and the
    token file is left as it was.  Each script refreshes the credential it
    loaded, which carries the scope list of that script. *)
Theorem refresh_failure_propagates (w : world R) (info : authorized_user_info)
    (e : exn) (r' : R) :
  token_file w = Some info ->
  has_needed_keys info = true ->
  info_expired info = true ->
  truthy_str (key_value (info_refresh_token info)) = true ->
  let w' := mk_world (proc w) (token_file w) (credentials_file w) (stdout w) r' in
  let fetch_creds := credentials_of info FetchEmail.SCOPES in
  let calendar_creds := credentials_of info CreateCalendarEvent.SCOPES in
  let send_creds := credentials_of info SendEmail.SCOPES in
  (oauth_refresh fetch_creds (remote w) = (Err e, r') ->
   FetchEmail.get_gmail_service w = (Raise e, w', [Refresh fetch_creds (Err e)])) /\
  (oauth_refresh calendar_creds (remote w) = (Err e, r') ->
   CreateCalendarEvent.get_calendar_service w
     = (Raise e, w', [Refresh calendar_creds (Err e)])) /\
  (oauth_refresh send_creds (remote w) = (Err e, r') ->
   SendEmail.get_gmail_service w = (Raise e, w', [Refresh send_creds (Err e)])).
Proof.
  intros Hfile Hkeys Hexp Htruthy w' fetch_creds calendar_creds send_creds.
  subst w' fetch_creds calendar_creds send_creds.
  repeat split; intros Hcall; run_service; rewrite Hfile, Hkeys; simpl;
    unfold valid; simpl; rewrite Hexp, Htruthy;
    destruct (key_value (info_token info)); simpl; rewrite Hcall; simpl;
    rewrite ?Hfile; reflexivity.
Qed.

(** C3 (as amended): whenever the interactive grant is driven, it asks for
    the scope list of the script that drives it.  A run of [fetch_email.py]
    asks for mail read, modify and send and for no calendar scope; a run of
    [create_calendar_event.py] asks for those three and the two calendar
    scopes; a run of [send_email.py] never drives the grant.  Without a
    token file and with the client secrets in place the grant is driven,
    with exactly that list. *)
Theorem grant_requests_scopes_of_entry_point (w : world R) :
  (forall sc r, In (RunLocalServer sc r) (log_of (FetchEmail.main w)) ->
                sc = FetchEmail.SCOPES)
  /\ (forall c sc r, In (RunLocalServer sc r) (log_of (CreateCalendarEvent.main c w)) ->
                     sc = CreateCalendarEvent.SCOPES)
  /\ (forall mime_raw to subject body sc r,
         ~ In (RunLocalServer sc r) (log_of (SendEmail.main mime_raw to subject body w)))
  /\ (token_file w = None -> credentials_file w = true ->
      log_of (FetchEmail.get_gmail_service w)
        = [RunLocalServer FetchEmail.SCOPES (fst (run_local_server FetchEmail.SCOPES (remote w)))]
      /\ log_of (CreateCalendarEvent.get_calendar_service w)
        = [RunLocalServer CreateCalendarEvent.SCOPES
             (fst (run_local_server CreateCalendarEvent.SCOPES (remote w)))])
  /\ FetchEmail.SCOPES =
       [ lit "https://www.googleapis.com/auth/gmail.readonly";
         lit "https://www.googleapis.com/auth/gmail.modify";
         lit "https://www.googleapis.com/auth/gmail.send" ]
  /\ CreateCalendarEvent.SCOPES =
       FetchEmail.SCOPES ++
       [ lit "https://www.googleapis.com/auth/calendar";
         lit "https://www.googleapis.com/auth/calendar.events" ].
Proof.
  split; [| split; [| split; [| split; [| split; reflexivity]]]].
  - intros sc r Hin.
    exact (proj1 (List.Forall_forall _ _) (fetch_main_grants w) _ Hin).
  - intros c sc r Hin.
    exact (proj1 (List.Forall_forall _ _) (calendar_main_grants c w) _ Hin).
  - intros mime_raw to subject body sc r Hin.
    exact (proj1 (List.Forall_forall _ _) (send_main_no_grant mime_raw to subject body w) _ Hin).
  - intros Hfile Hcred. run_service. rewrite Hfile. simpl. rewrite Hcred. simpl.
    split.
    + destruct (run_local_server FetchEmail.SCOPES (remote w)) as [[c | e] r']; reflexivity.
    + destruct (run_local_server CreateCalendarEvent.SCOPES (remote w)) as [[c | e] r'];
        reflexivity.
Qed.

End Credentials.

Lemma refresh_failure_propagates_witness :
  let w := Fake.start_world (Fake.configured []) (Some Fake.stale)
             (Fake.with_refresh (fun _ => Err RefreshError) Fake.friendly) in
  FetchEmail.get_gmail_service w
    = (Raise RefreshError, w,
       [Refresh (credentials_of Fake.stale FetchEmail.SCOPES) (Err RefreshError)]) /\
  CreateCalendarEvent.get_calendar_service w
    = (Raise RefreshError, w,
       [Refresh (credentials_of Fake.stale CreateCalendarEvent.SCOPES) (Err RefreshError)]) /\
  SendEmail.get_gmail_service w
    = (Raise RefreshError, w,
       [Refresh (credentials_of Fake.stale SendEmail.SCOPES) (Err RefreshError)]).
Proof.
  intros w.
  destruct (refresh_failure_propagates w Fake.stale RefreshError (remote w))
    as (Hf & Hc & Hs); [reflexivity | reflexivity | reflexivity | reflexivity |].
  rewrite (Hf eq_refl), (Hc eq_refl), (Hs eq_refl). repeat split.
Defined.

(** C4 (as stated) fails: the token endpoint rejects the refresh and
    [get_gmail_service] ends with the uncaught [RefreshError]; it neither
    starts the grant nor prints the request to authorize again. *)
Lemma refresh_rejected_is_unhandled :
  let w := Fake.start_world (Fake.configured []) (Some Fake.stale)
             (Fake.with_refresh (fun _ => Err RefreshError) Fake.friendly) in
  outcome_of (FetchEmail.get_gmail_service w) = Raise RefreshError /\
  stdout (world_of (FetchEmail.get_gmail_service w)) = [] /\
  log_of (FetchEmail.get_gmail_service w)
    = [ Refresh
          (mk_credentials (Some (lit "old")) (Some (lit "rt")) (Some (lit "client"))
             (Some (lit "secret")) true FetchEmail.SCOPES)
          (Err RefreshError) ].
Proof. vm_compute. repeat split. Qed.

(** C3 (as stated) fails: [fetch_email.py --auth] without a token file
    drives the grant, and the grant asks for the three mail scopes only. *)
Lemma fetch_email_grant_without_calendar :
  let w := Fake.start_world (Fake.configured [lit "fetch_email.py"; lit "--auth"]) None
             Fake.friendly in
  log_of (FetchEmail.main w)
    = [ RunLocalServer
          [ lit "https://www.googleapis.com/auth/gmail.readonly";
            lit "https://www.googleapis.com/auth/gmail.modify";
            lit "https://www.googleapis.com/auth/gmail.send" ]
          (Ok (mk_credentials (Some (lit "granted")) (Some (lit "rt")) (Some (lit "client"))
                 (Some (lit "secret")) false FetchEmail.SCOPES)) ]
  /\ ~ In (lit "https://www.googleapis.com/auth/calendar") FetchEmail.SCOPES.
Proof.
  split.
  - vm_compute. reflexivity.
  - intros Hin. vm_compute in Hin. intuition discriminate.
Qed.

(** C2 at its failing input: [send_email.py] finds an expired credential
    with a refresh token.  It makes the one refresh call and returns the
    refreshed credential, and the token file still holds the old token;
    [fetch_email.py] on the same input saves the new one. *)
Theorem send_email_refresh_not_persisted :
  let w := Fake.start_world (Fake.configured []) (Some Fake.stale) Fake.friendly in
  let old := mk_credentials (Some (lit "old")) (Some (lit "rt")) (Some (lit "client"))
               (Some (lit "secret")) true SendEmail.SCOPES in
  let fresh := mk_credentials (Some (lit "fresh")) (Some (lit "rt")) (Some (lit "client"))
                 (Some (lit "secret")) false SendEmail.SCOPES in
  SendEmail.get_gmail_service w =
    (Ret (build "gmail" "v1" fresh), w, [Refresh old (Ok fresh)])
  /\ option_map info_token (token_file w) = Some (Str (lit "old"))
  /\ option_map info_token (token_file (world_of (SendEmail.get_gmail_service w)))
       = Some (Str (lit "old"))
  /\ option_map info_token (token_file (world_of (FetchEmail.get_gmail_service w)))
       = Some (Str (lit "fresh")).
Proof. vm_compute. repeat split. Qed.

(** C5 at its failing input: the token file holds a good token granted the
    mail scopes only, and [get_calendar_service] returns a calendar service
    on it without starting the grant. *)
Theorem calendar_accepts_mail_only_token :
  let w := Fake.start_world (Fake.configured []) (Some Fake.mail_only) Fake.friendly in
  CreateCalendarEvent.get_calendar_service w =
    ( Ret (build "calendar" "v3"
             (mk_credentials (Some (lit "granted")) (Some (lit "rt")) (Some (lit "client"))
                (Some (lit "secret")) false CreateCalendarEvent.SCOPES)),
      w, [] )
  /\ ~ In (lit "https://www.googleapis.com/auth/calendar") (info_scopes Fake.mail_only)
  /\ ~ In (lit "https://www.googleapis.com/auth/calendar.events") (info_scopes Fake.mail_only).
Proof.
  split; [vm_compute; reflexivity |].
  split; intros Hin; vm_compute in Hin; intuition discriminate.
Qed.

(** ** Calendar events *)

Section Dict.

Lemma pystr_eqb_refl (k : pystr) : pystr_eqb k k = true.
Proof. unfold pystr_eqb. apply bool_decide_eq_true. reflexivity. Qed.

Lemma pystr_eqb_neq (k k' : pystr) : k <> k' -> pystr_eqb k k' = false.
Proof. intros Hne. unfold pystr_eqb. apply bool_decide_eq_false. exact Hne. Qed.

Lemma dict_get_set_eq (k : pystr) (v : pyval) (d : pydict) :
  dict_get k (dict_set k v d) = Some v.
Proof.
  induction d as [| [k' v'] d IH]; simpl.
  - rewrite pystr_eqb_refl. reflexivity.
  - destruct (pystr_eqb k' k) eqn:Hk; simpl.
    + rewrite pystr_eqb_refl. reflexivity.
    + rewrite Hk. exact IH.
Qed.

Lemma dict_get_set_ne (k k' : pystr) (v : pyval) (d : pydict) :
  k <> k' -> dict_get k (dict_set k' v d) = dict_get k d.
Proof.
  intros Hne. induction d as [| [k0 v0] d IH]; simpl.
  - rewrite pystr_eqb_neq by congruence. reflexivity.
  - destruct (pystr_eqb k0 k') eqn:Hk; simpl.
    + apply bool_decide_eq_true in Hk. subst k0.
      rewrite !pystr_eqb_neq by congruence. reflexivity.
    + destruct (pystr_eqb k0 k); [reflexivity | exact IH].
Qed.

End Dict.

Section Reminder.
Context {R : Type} `{Remote R}.
Import CreateCalendarEvent.

(** Without a reminder the body has no [reminders] key. *)
Lemma event_body_no_reminders title start end_ description location :
  dict_get (lit "reminders") (event_body title start end_ description location (Some 0)) = None.
Proof.
  unfold event_body. simpl.
  destruct description as [[| c1 s1] |], location as [[| c2 s2] |];
    rewrite ?dict_get_set_ne by (vm_compute; discriminate); reflexivity.
Qed.

(** An explicit [None] gives no [reminders] key either. *)
Lemma event_body_none_reminders title start end_ description location :
  dict_get (lit "reminders") (event_body title start end_ description location None) = None.
Proof.
  unfold event_body. simpl.
  destruct description as [[| c1 s1] |], location as [[| c2 s2] |];
    rewrite ?dict_get_set_ne by (vm_compute; discriminate); reflexivity.
Qed.

(** C7 (as amended): [create_event] sends one insertion.  Its body has no
    reminder override when the lead time N is zero (or [None]), and exactly
    one pop-up reminder of N minutes when N is positive.  A lead time that
    is left out is not "no reminder": without [--reminder] the command line
    gives N = 30, the default of the parameter is 30 as well, and the body
    then carries one pop-up reminder of 30 minutes. *)
Theorem reminder_override_sent (service : Service) (title : pystr) (start end_ : pydict)
    (description location : option pystr) (n : option Z) (w : world R) :
  let body := event_body title start end_ description location n in
  log_of (create_event service title start end_ description location n w)
    = [EventsInsert (lit "primary") body (fst (events_insert (lit "primary") body (remote w)))]
  /\ (n = Some 0 \/ n = None -> dict_get (lit "reminders") body = None)
  /\ (forall k, n = Some k -> 0 < k ->
                dict_get (lit "reminders") body = Some (popup_override k))
  /\ (forall c, cli_reminder c = None -> reminder (parse_args c) = 30)
  /\ (forall c k, cli_reminder c = Some k -> reminder (parse_args c) = k)
  /\ reminder_minutes_default = Some 30.
Proof.
  intros body. split; [| split; [| split; [| split; [| split]]]].
  - unfold create_event, remote_call, log_of. fold body.
    destruct (events_insert (lit "primary") body (remote w)) as [[ev | e] r']; reflexivity.
  - intros [-> | ->]; subst body.
    + apply event_body_no_reminders.
    + apply event_body_none_reminders.
  - intros k -> Hk. subst body.
    unfold event_body. destruct (Z.eqb_spec k 0) as [-> | _]; [lia |].
    apply dict_get_set_eq.
  - intros c Hc. unfold parse_args; simpl. rewrite Hc. reflexivity.
  - intros c k Hc. unfold parse_args; simpl. rewrite Hc. reflexivity.
  - reflexivity.
Qed.

End Reminder.

(** C7 (as stated) fails: no [--reminder] is given, and the body sent to the
    calendar carries a reminder override of 30 minutes. *)
Lemma unset_reminder_sends_override :
  let w := Fake.start_world (Fake.configured []) (Some Fake.calendar_ok) Fake.friendly in
  CreateCalendarEvent.cli_reminder (Fake.meeting "2026-02-10 14:00") = None /\
  log_of (CreateCalendarEvent.main (Fake.meeting "2026-02-10 14:00") w) =
    [ EventsInsert (lit "primary")
        [ (lit "summary", VStr (lit "Meeting"));
          (lit "start", VDict [ (lit "dateTime", VStr (lit "2026-02-10T14:00:00"));
                                (lit "timeZone", VStr (lit "America/Phoenix")) ]);
          (lit "end", VDict [ (lit "dateTime", VStr (lit "2026-02-10T15:00:00"));
                              (lit "timeZone", VStr (lit "America/Phoenix")) ]);
          (lit "reminders", popup_override 30) ]
        (Ok (mk_created_event (Some (lit "Meeting")) None)) ].
Proof. split; [reflexivity | vm_compute; reflexivity]. Qed.

(** C8 at its failing input: [--start "2026-02-10 14:00:30"] without
    [--end].  [parse_datetime] accepts the start (its second format), the
    computation of the default end parses the same text with hours and
    minutes only and raises; no event is sent. *)
Theorem default_end_rejects_seconds :
  let w := Fake.start_world (Fake.configured []) (Some Fake.calendar_ok) Fake.friendly in
  CreateCalendarEvent.parse_datetime (lit "2026-02-10 14:00:30")
    = Ok [ (lit "dateTime", VStr (lit "2026-02-10T14:00:30"));
           (lit "timeZone", VStr (lit "America/Phoenix")) ]
  /\ CreateCalendarEvent.start_end
       (CreateCalendarEvent.parse_args (Fake.meeting "2026-02-10 14:00:30"))
     = Err (ValueError UnconvertedDataRemains)
  /\ CreateCalendarEvent.main (Fake.meeting "2026-02-10 14:00:30") w
     = (Raise (ValueError UnconvertedDataRemains),
        mk_world (proc w) (token_file w) true [lit "Connecting to Google Calendar..."] (remote w),
        []).
Proof. vm_compute. repeat split. Qed.

(** ** Fetched messages *)

Section Messages.
Context {R : Type} `{Remote R}.
Import FetchEmail.

Lemma body_of_parts_first_plain (pre : list part) (p : part) (post : list part) :
  Forall not_plain pre ->
  p_mimeType p = lit "text/plain" ->
  body_of_parts (pre ++ p :: post) = decode_body (default (lit "") (p_data p)).
Proof.
  intros Hpre Hp. induction Hpre as [| q pre Hq Hpre IH]; simpl.
  - rewrite Hp, pystr_eqb_refl. reflexivity.
  - rewrite (pystr_eqb_neq _ _ Hq). exact IH.
Qed.

Lemma body_of_parts_no_plain (parts : list part) :
  Forall not_plain parts -> body_of_parts parts = Ok [].
Proof.
  induction 1 as [| q parts Hq Hparts IH]; simpl.
  - reflexivity.
  - rewrite (pystr_eqb_neq _ _ Hq). exact IH.
Qed.

(** Text that is plain ASCII is decoded to itself. *)
Lemma utf8_decode_ascii (bs : bytes) :
  Forall (fun b => b < 128) bs -> utf8_decode_ignore bs = bs.
Proof.
  induction 1 as [| b bs Hb Hbs IH]; [reflexivity |].
  cbn [utf8_decode_ignore].
  destruct (Z.ltb_spec b 128) as [_ | Hge]; [| lia].
  rewrite IH. reflexivity.
Qed.

(** A byte that cannot start a character is dropped and the text around
    it is kept. *)
Lemma utf8_decode_drops_invalid_start (a : bytes) (x : Z) (b : bytes) :
  Forall (fun c => c < 128) a ->
  128 <= x < 194 \/ 245 <= x ->
  utf8_decode_ignore (a ++ x :: b) = a ++ utf8_decode_ignore b.
Proof.
  intros Ha Hx. induction Ha as [| c a Hc Ha IH]; cbn [app utf8_decode_ignore].
  - destruct (Z.ltb_spec x 128) as [Hlt | _]; [lia |].
    destruct (Z.ltb_spec x 194) as [_ | H194]; [reflexivity |].
    destruct (Z.ltb_spec x 224) as [Hlt | _]; [lia |].
    destruct (Z.ltb_spec x 240) as [Hlt | _]; [lia |].
    destruct (Z.ltb_spec x 245) as [Hlt | _]; [lia |]. reflexivity.
  - destruct (Z.ltb_spec c 128) as [_ | Hge]; [| lia].
    rewrite IH. reflexivity.
Qed.

Lemma slice_to_length (n : nat) (s : pystr) : (length (slice_to n s) <= n)%nat.
Proof. unfold slice_to. rewrite length_take. lia. Qed.

(** An error of the base64 decoding is an error of [decode_body]. *)
Lemma decode_body_error (data : pystr) (err : exn) :
  urlsafe_b64decode data = Err err -> decode_body data = Err err.
Proof. intros Hraw. unfold decode_body. rewrite Hraw. reflexivity. Qed.

(** A message whose body cannot be extracted ends the loop over the listed
    messages: the messages before it were fetched, it is the last one
    fetched, and the error goes to the caller. *)
Lemma fetch_messages_body_error (service : Service) (id : pystr) (pl : payload)
    (post : list pystr) (err : exn) (pre : list pystr) :
  forall (emails : list email) (w : world R) (got : list email) (r' : R),
    outcome_of (fetch_messages service pre emails w) = Ret got ->
    messages_get id (remote (world_of (fetch_messages service pre emails w))) = (Ok pl, r') ->
    get_body pl = Err err ->
    outcome_of (fetch_messages service (pre ++ id :: post) emails w) = Raise err /\
    log_of (fetch_messages service (pre ++ id :: post) emails w)
      = log_of (fetch_messages service pre emails w) ++ [MessagesGet id (Ok pl)].
Proof.
  induction pre as [| id0 pre IH]; intros emails w got r' Hpre Hget Hbody.
  - cbn [fetch_messages app] in *. unfold ret, world_of in Hget. cbn in Hget.
    unfold bind, remote_call, lift, email_of_message. rewrite Hget, Hbody.
    split; reflexivity.
  - cbn [fetch_messages app] in *. unfold bind in *.
    destruct (remote_call (messages_get id0) (MessagesGet id0) w)
      as [[[pl0 | e0 | c0] w1] l1]; cbv beta iota in *; try discriminate Hpre.
    destruct (lift (email_of_message id0 pl0) w1) as [[[e1 | e0 | c0] w2] l2];
      cbv beta iota in *; try discriminate Hpre.
    specialize (IH (emails ++ [e1]) w2 got r').
    destruct (fetch_messages service pre (emails ++ [e1]) w2) as [[o3 w3] l3].
    destruct (fetch_messages service (pre ++ id :: post) (emails ++ [e1]) w2)
      as [[o4 w4] l4].
    unfold outcome_of, world_of, log_of in *. cbn in *.
    destruct (IH Hpre Hget Hbody) as [-> ->].
    split; [reflexivity |]. rewrite !app_assoc. reflexivity.
Qed.

(** C9 (as amended): for every fetched message, when the payload has a list
    of parts the body is the decoded data of the first part of type
    text/plain, and empty when no part has that type; when it has no list of
    parts the body is the decoded top-level body data, and empty when there
    is none.  Decoding drops the bytes that are not valid UTF-8 and does not
    fail on them: a byte that cannot start a character is left out and the
    text around it is kept.  When the data is base64 the mail item is produced and its
    body is the first 5000 characters of that text ([slice_to] is [body[:5000]]).
    An error of the base64 decoding is not caught: [decode_body] fails with
    it, no mail item is produced for the message, and the listing stops at
    that message and raises the error to its caller. *)
Theorem body_extraction_policy (id : pystr) (pl : payload) :
  (forall parts pre p post,
      pl_parts pl = Some parts -> parts = pre ++ p :: post ->
      Forall not_plain pre -> p_mimeType p = lit "text/plain" ->
      get_body pl = decode_body (default (lit "") (p_data p)))
  /\ (forall parts,
         pl_parts pl = Some parts -> Forall not_plain parts -> get_body pl = Ok [])
  /\ (forall data,
         pl_parts pl = None -> pl_body pl = Some (Some data) ->
         get_body pl = decode_body data)
  /\ (pl_parts pl = None -> pl_body pl = None \/ pl_body pl = Some None ->
      get_body pl = Ok [])
  /\ (forall data raw,
         urlsafe_b64decode data = Ok raw ->
         decode_body data = Ok (utf8_decode_ignore raw))
  /\ (forall data err,
         urlsafe_b64decode data = Err err -> decode_body data = Err err)
  /\ (forall data a x b,
         urlsafe_b64decode data = Ok (a ++ x :: b) ->
         Forall (fun c => c < 128) a -> Forall (fun c => c < 128) b ->
         128 <= x < 194 \/ 245 <= x ->
         decode_body data = Ok (a ++ b))
  /\ (forall body,
         get_body pl = Ok body ->
         exists e, email_of_message id pl = Ok e /\
                   e_body e = slice_to 5000 body /\
                   (length (e_body e) <= 5000)%nat)
  /\ (forall err, get_body pl = Err err -> email_of_message id pl = Err err)
  /\ (forall (service : Service) (n : Z) (w : world R) ids r1 pre post got r2 err,
         messages_list [lit "INBOX"; lit "UNREAD"] n (remote w) = (Ok ids, r1) ->
         default [] ids = pre ++ id :: post ->
         let w1 := mk_world (proc w) (token_file w) (credentials_file w) (stdout w) r1 in
         outcome_of (fetch_messages service pre [] w1) = Ret got ->
         messages_get id (remote (world_of (fetch_messages service pre [] w1))) = (Ok pl, r2) ->
         get_body pl = Err err ->
         outcome_of (get_unread_emails service n w) = Raise err /\
         log_of (get_unread_emails service n w)
           = MessagesList [lit "INBOX"; lit "UNREAD"] n (Ok ids)
               :: log_of (fetch_messages service pre [] w1) ++ [MessagesGet id (Ok pl)]).
Proof.
  split; [| split; [| split; [| split; [| split; [| split; [| split; [| split; [| split]]]]]]]].
  - intros parts pre p post Hparts -> Hpre Hp. unfold get_body. rewrite Hparts.
    apply body_of_parts_first_plain; assumption.
  - intros parts Hparts Hnone. unfold get_body. rewrite Hparts.
    apply body_of_parts_no_plain; assumption.
  - intros data Hparts Hbody. unfold get_body. rewrite Hparts, Hbody. reflexivity.
  - intros Hparts [Hbody | Hbody]; unfold get_body; rewrite Hparts, Hbody; reflexivity.
  - intros data raw Hraw. unfold decode_body. rewrite Hraw. reflexivity.
  - apply decode_body_error.
  - intros data a x b Hraw Ha Hb Hx. unfold decode_body. rewrite Hraw. cbn [rbind].
    rewrite (utf8_decode_drops_invalid_start a x b Ha Hx), (utf8_decode_ascii b Hb).
    reflexivity.
  - intros body Hbody. unfold email_of_message. rewrite Hbody. simpl.
    eexists. split; [reflexivity |]. simpl. split; [reflexivity |].
    apply slice_to_length.
  - intros err Hbody. unfold email_of_message. rewrite Hbody. reflexivity.
  - intros service n w ids r1 pre post got r2 err Hlist Hids w1 Hpre Hget Hbody.
    destruct (fetch_messages_body_error service id pl post err pre [] w1 got r2
                Hpre Hget Hbody) as [Hout Hlog].
    unfold get_unread_emails, bind, remote_call. rewrite Hlist. cbv beta iota.
    rewrite Hids. fold w1.
    unfold outcome_of, log_of in *.
    destruct (fetch_messages service (pre ++ id :: post) [] w1) as [[o w4] l].
    cbn in *. subst o l. split; reflexivity.
Qed.



End Messages.


(** C9 (as stated) fails.  A body that is not clean UTF-8 does not give an
    empty body: the bytes [h], [0xFF], [i] give the body [hi].  A body that
    is not base64 does not give an empty body either: the decoding raises,
    no mail item is produced and the listing ends with that error. *)
Lemma undecodable_body_not_empty :
  let w := Fake.start_world (Fake.configured []) (Some Fake.mail_only)
             (Fake.with_message (Fake.bare_message "A") Fake.friendly) in
  urlsafe_b64decode (lit "aP9p") = Ok [104; 255; 105] /\
  FetchEmail.get_body (Fake.bare_message "aP9p") = Ok (lit "hi") /\
  FetchEmail.get_body (Fake.bare_message "A") = Err BinasciiError /\
  FetchEmail.email_of_message (lit "m1") (Fake.bare_message "A") = Err BinasciiError /\
  outcome_of (FetchEmail.get_unread_emails
                (build "gmail" "v1" (credentials_of Fake.mail_only FetchEmail.SCOPES))
                10 w)
    = Raise BinasciiError.
Proof. vm_compute. repeat split. Qed.

(** ** Timed events whose start is given to the minute *)

Section MinuteStarts.
Import CreateCalendarEvent.

Lemma re_match_within (P : Z -> Prop) (r : re) :
  re_within P r ->
  forall s m rest, In (m, rest) (re_match r s) -> s = m ++ rest /\ Forall P m.
Proof.
  induction r as [p | a IHa b IHb | a IHa b IHb]; simpl.
  - intros Hp [| c s] m rest Hin; [destruct Hin |].
    destruct (p c) eqn:Hc; [| destruct Hin].
    destruct Hin as [Heq | []]. injection Heq as <- <-.
    split; [reflexivity | repeat constructor; apply Hp, Hc].
  - intros [Ha Hb] s m rest Hin.
    apply in_flat_map in Hin as ([m1 r1] & Hin1 & Hin2).
    apply in_map_iff in Hin2 as ([m2 r2] & Heq & Hin2). simpl in *.
    injection Heq as <- <-.
    destruct (IHa Ha _ _ _ Hin1) as [-> H1], (IHb Hb _ _ _ Hin2) as [-> H2].
    split; [rewrite app_assoc; reflexivity | apply Forall_app; split; assumption].
  - intros [Ha Hb] s m rest Hin.
    apply in_app_or in Hin as [Hin | Hin]; [apply (IHa Ha) | apply (IHb Hb)]; exact Hin.
Qed.

Lemma ws_splits_within (P : Z -> Prop) :
  (forall c, is_space c = true -> P c) ->
  forall s rest, In rest (ws_splits s) -> exists m, s = m ++ rest /\ Forall P m.
Proof.
  intros Hp s. induction s as [| c s IH]; intros rest Hin; simpl in Hin.
  - destruct Hin.
  - destruct (is_space c) eqn:Hc; [| destruct Hin].
    apply in_app_or in Hin as [Hin | [<- | []]].
    + destruct (IH _ Hin) as (m & -> & Hm).
      exists (c :: m). split; [reflexivity | constructor; [apply Hp, Hc | exact Hm]].
    + exists [c]. split; [reflexivity | repeat constructor; apply Hp, Hc].
Qed.

Lemma fmt_match_within (P : Z -> Prop) (items : list fmt_item) :
  Forall (item_within P) items ->
  forall s groups rest,
    In (groups, rest) (fmt_match items s) -> exists m, s = m ++ rest /\ Forall P m.
Proof.
  induction 1 as [| i items Hi Hitems IH]; intros s groups rest Hin; simpl in Hin.
  - destruct Hin as [Heq | []]. injection Heq as <- <-.
    exists []. split; [reflexivity | constructor].
  - destruct i as [name r | | c]; simpl in Hi.
    + apply in_flat_map in Hin as ([m1 r1] & Hin1 & Hin2).
      apply in_map_iff in Hin2 as ([g2 r2] & Heq & Hin2). simpl in *.
      injection Heq as <- <-.
      destruct (re_match_within P r Hi _ _ _ Hin1) as [-> H1].
      destruct (IH _ _ _ Hin2) as (m & -> & H2).
      exists (m1 ++ m). split; [rewrite app_assoc; reflexivity |].
      apply Forall_app; split; assumption.
    + apply in_flat_map in Hin as (r1 & Hin1 & Hin2).
      destruct (ws_splits_within P Hi _ _ Hin1) as (m1 & -> & H1).
      destruct (IH _ _ _ Hin2) as (m & -> & H2).
      exists (m1 ++ m). split; [rewrite app_assoc; reflexivity |].
      apply Forall_app; split; assumption.
    + destruct s as [| x s]; [destruct Hin |].
      destruct (Z.eqb_spec (lower x) (lower c)) as [Hx | _]; [| destruct Hin].
      destruct (IH _ _ _ Hin) as (m & -> & H2).
      exists (x :: m). split; [reflexivity | constructor; [apply Hi, Hx | exact H2]].
Qed.

Lemma digit_plain : re_within plain_char digit.
Proof.
  intros c Hc. unfold plain_char.
  split; intros ->; vm_compute in Hc; discriminate Hc.
Qed.

Lemma rng_plain (lo hi : Z) :
  0 <= lo -> hi <= 9 -> re_within plain_char (rng lo hi).
Proof. intros Hlo Hhi c Hc. unfold plain_char. simpl in Hc. lia. Qed.

Lemma ch_plain (c : string) (x : Z) :
  lit c = [x] -> plain_char x -> re_within plain_char (ch c).
Proof.
  intros Hc Hx y Hy. simpl in Hy. apply bool_decide_eq_true in Hy.
  rewrite Hc in Hy. injection Hy as ->. exact Hx.
Qed.

Lemma literal_plain (c : Z) :
  c = 45 \/ c = 58 -> item_within plain_char (Literal c).
Proof.
  intros Hc x Hx. unfold lower, plain_char in *.
  destruct ((65 <=? x) && (x <=? 90)) eqn:E1, ((65 <=? c) && (c <=? 90)) eqn:E2; lia.
Qed.

Lemma whitespace_plain : item_within plain_char Whitespace.
Proof.
  intros c Hc. unfold plain_char. split; intros ->; discriminate Hc.
Qed.

Ltac plain_re :=
  cbn [item_within re_within];
  lazymatch goal with
  | |- _ /\ _ => split; plain_re
  | |- re_within _ digit => apply digit_plain
  | |- re_within _ (rng _ _) => apply rng_plain; lia
  | |- re_within _ (ch _) =>
      eapply ch_plain; [reflexivity | vm_compute; split; discriminate]
  end.

Lemma minute_format_plain :
  exists items,
    compile_format false (lit "%Y-%m-%d %H:%M") = Some items /\
    Forall (item_within plain_char) items.
Proof.
  exists [ Group 89 re_Y; Literal 45; Group 109 re_m; Literal 45; Group 100 re_d;
           Whitespace; Group 72 re_H; Literal 58; Group 77 re_M ].
  split; [reflexivity |].
  repeat (apply Forall_cons; split); try apply Forall_nil;
    first [ exact I | apply literal_plain; lia | apply whitespace_plain
          | unfold re_Y, re_m, re_d, re_H, re_M; plain_re ].
Qed.

(** A start that parses to the minute holds neither [T] nor a full stop. *)
Lemma minute_start_plain (s : pystr) (dt : datetime) :
  strptime s (lit "%Y-%m-%d %H:%M") = Ok dt -> Forall plain_char s.
Proof.
  destruct minute_format_plain as (items & Hitems & Hok).
  unfold strptime. rewrite Hitems.
  destruct (fmt_match items s) as [| [groups rest] tl] eqn:Hm; [discriminate |].
  destruct rest as [| c rest]; [| discriminate].
  intros _.
  destruct (fmt_match_within plain_char items Hok s groups [])
    as (m & -> & Hall); [rewrite Hm; left; reflexivity |].
  rewrite app_nil_r. exact Hall.
Qed.

Lemma replace_char_plain (s : pystr) :
  Forall plain_char s -> replace_char 84 32 s = s.
Proof.
  unfold replace_char. induction 1 as [| c s [HT _] Hs IH]; simpl; [reflexivity |].
  destruct (Z.eqb_spec c 84) as [-> | _]; [contradiction |]. rewrite IH. reflexivity.
Qed.

Lemma split_head_plain (s : pystr) :
  Forall plain_char s -> split_head 46 s = s.
Proof.
  induction 1 as [| c s [_ Hdot] Hs IH]; simpl; [reflexivity |].
  destruct (Z.eqb_spec c 46) as [-> | _]; [contradiction |]. rewrite IH. reflexivity.
Qed.

Lemma plain_text_unchanged (s : pystr) :
  Forall plain_char s -> split_head 46 (replace_char 84 32 s) = s.
Proof.
  intros Hs. rewrite (replace_char_plain s Hs). apply split_head_plain, Hs.
Qed.

(** The part of C8 that holds: for a start written with hours and minutes
    (the first format of [parse_datetime]) and no end, the end is the start
    plus [timedelta(hours=1)], written in the same time zone. *)
Lemma default_end_for_minute_start (args : Namespace) (s : pystr) (dt : datetime) :
  strptime s (lit "%Y-%m-%d %H:%M") = Ok dt ->
  truthy_str (end_ args) = false ->
  timed_start_end args s =
    rbind (add_timedelta dt 0 1) (fun end_dt =>
      Ok ( [ (lit "dateTime", VStr (isoformat dt));
             (lit "timeZone", VStr (timezone args)) ],
           [ (lit "dateTime", VStr (isoformat end_dt));
             (lit "timeZone", VStr (timezone args)) ] )).
Proof.
  intros Hparse Hend. unfold timed_start_end, parse_datetime. simpl.
  rewrite Hparse. simpl. rewrite Hend.
  rewrite (plain_text_unchanged s (minute_start_plain s dt Hparse)), Hparse. simpl.
  destruct (add_timedelta dt 0 1) as [end_dt | e]; simpl; [| reflexivity].
  reflexivity.
Qed.

End MinuteStarts.

(** ** The examples of the specification *)

(** Three candidate mails, the note of the second is rejected: the first
    and the third are marked as read, the second is not, and the run goes
    on after the rejection. *)
Example three_mails_second_rejected :
  let w := Fake.start_world (Fake.configured [lit "fetch_email.py"]) (Some Fake.mail_only)
             Fake.inbox3 in
  outcome_of (FetchEmail.main w) = Ret tt /\
  posted (log_of (FetchEmail.main w))
    = [ (Fake.note_of "m1", 200); (Fake.note_of "m2", 500); (Fake.note_of "m3", 200) ] /\
  marked_ids (log_of (FetchEmail.main w)) = [lit "m1"; lit "m3"].
Proof. vm_compute. repeat split. Qed.

(** Two mails that give the same note are told apart by their place in
    the list: a log in which the message of the second is marked after the
    note of the first was confirmed is not a log of the loop. *)
Example equal_notes_told_apart (url bearer : pystr) (resp : response)
    (items : list (list call)) :
  let e1 := FetchEmail.mk_email (lit "m1") (lit "s") (lit "f") (lit "d") (lit "b") in
  let e2 := FetchEmail.mk_email (lit "m2") (lit "s") (lit "f") (lit "d") (lit "b") in
  let note := FetchEmail.email_to_memo_content e1 in
  FetchEmail.email_to_memo_content e2 = note /\
  (status_code resp = 200 ->
   concat items =
     [ RequestsPost url bearer note (Ok resp);
       MessagesModify (lit "m2") [lit "UNREAD"] (Ok tt);
       RequestsPost url bearer note (Ok resp);
       MessagesModify (lit "m2") [lit "UNREAD"] (Ok tt) ] ->
   ~ Forall2 item_calls (take (length items) [e1; e2]) items).
Proof.
  intros e1 e2 note. split; [reflexivity |].
  intros H200 Hlog Hitems.
  destruct items as [| item items]; [discriminate Hlog |].
  cbn in Hitems. apply Forall2_cons_1 in Hitems as [Hitem _].
  destruct Hitem as (url' & bearer' & r & [[Hr ->] | [_ (r' & ->)]]); cbn in Hlog.
  - assert (Hres : r = Ok resp) by congruence.
    apply Hr. exists resp. split; [exact Hres | exact H200].
  - assert (Hid : lit "m1" = lit "m2") by congruence. discriminate Hid.
Qed.

(** An all-day event: the end is the day after, both as dates. *)
Example all_day_event :
  CreateCalendarEvent.start_end (CreateCalendarEvent.parse_args (Fake.trip "2026-02-10"))
  = Ok ( [ (lit "date", VStr (lit "2026-02-10")) ],
         [ (lit "date", VStr (lit "2026-02-11")) ] ).
Proof. vm_compute. reflexivity. Qed.

(** A timed event without end, start given to the minute: the end is one
    hour later, in the time zone of the start. *)
Example timed_event_default_end :
  CreateCalendarEvent.start_end (CreateCalendarEvent.parse_args (Fake.meeting "2026-02-10 14:00"))
  = Ok ( [ (lit "dateTime", VStr (lit "2026-02-10T14:00:00"));
           (lit "timeZone", VStr (lit "America/Phoenix")) ],
         [ (lit "dateTime", VStr (lit "2026-02-10T15:00:00"));
           (lit "timeZone", VStr (lit "America/Phoenix")) ] ).
Proof. vm_compute. reflexivity. Qed.

(** The default end rolls over the day, the month and the year. *)
Example timed_event_default_end_new_year :
  CreateCalendarEvent.start_end (CreateCalendarEvent.parse_args (Fake.meeting "2026-12-31T23:30"))
  = Ok ( [ (lit "dateTime", VStr (lit "2026-12-31T23:30:00"));
           (lit "timeZone", VStr (lit "America/Phoenix")) ],
         [ (lit "dateTime", VStr (lit "2027-01-01T00:30:00"));
           (lit "timeZone", VStr (lit "America/Phoenix")) ] ).
Proof. vm_compute. reflexivity. Qed.

(** [strptime] matches its literals without regard to case, the default end
    replaces the capital [T] only. *)
Example timed_event_lower_case_t :
  CreateCalendarEvent.parse_datetime (lit "2026-02-10t14:00")
    = Ok [ (lit "dateTime", VStr (lit "2026-02-10T14:00:00"));
           (lit "timeZone", VStr (lit "America/Phoenix")) ]
  /\ CreateCalendarEvent.start_end
       (CreateCalendarEvent.parse_args (Fake.meeting "2026-02-10t14:00"))
     = Err (ValueError DoesNotMatchFormat).
Proof. vm_compute. split; reflexivity. Qed.

(* ===================================================================== *)
(** * Further properties of the scripts                                   *)
(* ===================================================================== *)

(** ** The credential, path by path *)

Section CredentialPaths.
Context {R : Type} `{Remote R}.

(** X1: a token file that has the keys the loader asks for
    ([refresh_token], [client_id], [client_secret]) and a token that is not
    expired is used as it is by the three scripts: the service is built on
    the credential loaded from it, no call is made, the token file is not
    rewritten and nothing is printed. *)
Theorem cached_credential_reused (w : world R) (info : authorized_user_info) (t : pystr) :
  token_file w = Some info ->
  has_needed_keys info = true ->
  key_value (info_token info) = Some t ->
  info_expired info = false ->
  FetchEmail.get_gmail_service w =
    (Ret (build "gmail" "v1" (credentials_of info FetchEmail.SCOPES)), w, [])
  /\ CreateCalendarEvent.get_calendar_service w =
    (Ret (build "calendar" "v3" (credentials_of info CreateCalendarEvent.SCOPES)), w, [])
  /\ SendEmail.get_gmail_service w =
    (Ret (build "gmail" "v1" (credentials_of info SendEmail.SCOPES)), w, []).
Proof.
  intros Hfile Hkeys Htok Hexp. run_service. rewrite Hfile, Hkeys. simpl.
  unfold valid. simpl. rewrite Htok, Hexp. repeat split; reflexivity.
Qed.

(** X2: in [fetch_email.py] and [create_calendar_event.py] an expired
    credential with a refresh token is refreshed with exactly one call.  The
    credential as the refresh leaves it, with the access token and the
    refresh token it then holds, is written to the token file, and the line
    [Token saved to ...] is printed, before the service is returned on that
    credential. *)
Theorem refreshed_credential_saved (w : world R) (info : authorized_user_info) (r' : R) :
  token_file w = Some info ->
  has_needed_keys info = true ->
  info_expired info = true ->
  truthy_str (key_value (info_refresh_token info)) = true ->
  let fetch_creds := credentials_of info FetchEmail.SCOPES in
  let calendar_creds := credentials_of info CreateCalendarEvent.SCOPES in
  (forall creds,
      oauth_refresh fetch_creds (remote w) = (Ok creds, r') ->
      FetchEmail.get_gmail_service w =
        ( Ret (build "gmail" "v1" creds),
          mk_world (proc w) (Some (to_json creds)) (credentials_file w)
            (stdout w ++ [lit "Token saved to " ++ FetchEmail.TOKEN_FILE (proc w)]) r',
          [Refresh fetch_creds (Ok creds)] ))
  /\ (forall creds,
         oauth_refresh calendar_creds (remote w) = (Ok creds, r') ->
         CreateCalendarEvent.get_calendar_service w =
           ( Ret (build "calendar" "v3" creds),
             mk_world (proc w) (Some (to_json creds)) (credentials_file w)
               (stdout w ++ [lit "Token saved to " ++ CreateCalendarEvent.TOKEN_FILE (proc w)])
               r',
             [Refresh calendar_creds (Ok creds)] )).
Proof.
  intros Hfile Hkeys Hexp Htruthy fetch_creds calendar_creds.
  subst fetch_creds calendar_creds.
  split; intros creds Hcall; run_service; rewrite Hfile, Hkeys; simpl;
    unfold valid; simpl; rewrite Hexp, Htruthy;
    destruct (key_value (info_token info)); simpl; rewrite Hcall; reflexivity.
Qed.

(** What [grant_needed] says about the code paths. *)
Lemma grant_needed_cases (file : option authorized_user_info) :
  grant_needed file = true ->
  file = None \/
  exists info, file = Some info /\
    has_needed_keys info = true /\
    (forall sc, valid (credentials_of info sc) = false) /\
    info_expired info && truthy_str (key_value (info_refresh_token info)) = false.
Proof.
  destruct file as [info |]; [| left; reflexivity].
  unfold grant_needed, valid. cbn.
  intros Hneed. right. exists info. split; [reflexivity |].
  destruct (has_needed_keys info); [| discriminate Hneed]. split; [reflexivity |].
  destruct (key_value (info_token info)), (info_expired info),
    (truthy_str (key_value (info_refresh_token info)));
    try discriminate Hneed; split; reflexivity.
Qed.

(** X3: when a grant is needed (no token file, or a token file that loads
    to a credential which is neither usable nor refreshable) and the client
    secrets file is missing, [fetch_email.py] and [create_calendar_event.py]
    print where the file was expected and leave with status 1; no call is
    made and the token file is not touched. *)
Theorem missing_client_secrets_exit (w : world R) :
  grant_needed (token_file w) = true ->
  credentials_file w = false ->
  FetchEmail.get_gmail_service w =
    ( Exit 1,
      mk_world (proc w) (token_file w) (credentials_file w)
        (stdout w ++ [lit "Error: Credentials file not found at "
                        ++ FetchEmail.CREDENTIALS_FILE (proc w)])
        (remote w),
      [] )
  /\ CreateCalendarEvent.get_calendar_service w =
    ( Exit 1,
      mk_world (proc w) (token_file w) (credentials_file w)
        (stdout w ++ [lit "Error: Credentials file not found at "
                        ++ CreateCalendarEvent.CREDENTIALS_FILE (proc w)])
        (remote w),
      [] ).
Proof.
  intros Hneed Hcred.
  destruct (grant_needed_cases _ Hneed)
    as [Hfile | (info & Hfile & Hkeys & Hvalid & Hrefresh)];
    run_service; rewrite Hfile; cbn.
  - rewrite Hcred. cbn. rewrite ?Hfile, ?Hcred. split; reflexivity.
  - rewrite Hkeys. cbn. rewrite !Hvalid. cbn in Hrefresh. rewrite Hrefresh, Hcred. cbn.
    rewrite ?Hfile, ?Hcred. split; reflexivity.
Qed.

(** X4: when a grant is needed and the client secrets are in place, the
    grant is the only call made.  When it succeeds the credential it gives
    is written to the token file before the service is returned; when it
    fails the error goes to the caller and the token file is left as it
    was. *)
Theorem grant_result_saved (w : world R) :
  grant_needed (token_file w) = true ->
  credentials_file w = true ->
  FetchEmail.get_gmail_service w =
    match run_local_server FetchEmail.SCOPES (remote w) with
    | (Ok creds, r') =>
        ( Ret (build "gmail" "v1" creds),
          mk_world (proc w) (Some (to_json creds)) (credentials_file w)
            (stdout w ++ [lit "Token saved to " ++ FetchEmail.TOKEN_FILE (proc w)]) r',
          [RunLocalServer FetchEmail.SCOPES (Ok creds)] )
    | (Err e, r') =>
        ( Raise e,
          mk_world (proc w) (token_file w) (credentials_file w) (stdout w) r',
          [RunLocalServer FetchEmail.SCOPES (Err e)] )
    end
  /\ CreateCalendarEvent.get_calendar_service w =
    match run_local_server CreateCalendarEvent.SCOPES (remote w) with
    | (Ok creds, r') =>
        ( Ret (build "calendar" "v3" creds),
          mk_world (proc w) (Some (to_json creds)) (credentials_file w)
            (stdout w ++ [lit "Token saved to " ++ CreateCalendarEvent.TOKEN_FILE (proc w)]) r',
          [RunLocalServer CreateCalendarEvent.SCOPES (Ok creds)] )
    | (Err e, r') =>
        ( Raise e,
          mk_world (proc w) (token_file w) (credentials_file w) (stdout w) r',
          [RunLocalServer CreateCalendarEvent.SCOPES (Err e)] )
    end.
Proof.
  intros Hneed Hcred.
  destruct (grant_needed_cases _ Hneed)
    as [Hfile | (info & Hfile & Hkeys & Hvalid & Hrefresh)];
    run_service; rewrite Hfile; cbn;
    rewrite ?Hkeys; cbn; rewrite ?Hvalid; cbn in *; rewrite ?Hrefresh, Hcred;
    destruct (run_local_server FetchEmail.SCOPES (remote w)) as [[c1 | e1] r1],
             (run_local_server CreateCalendarEvent.SCOPES (remote w)) as [[c2 | e2] r2];
    cbn; rewrite ?Hfile, ?Hcred; split; reflexivity.
Qed.

(** X5: [send_email.py] starts no grant when one is needed.  Without a
    token file it prints two lines and leaves with status 1; with a token
    file that loads to a credential which is neither usable nor refreshable
    it prints one line and leaves with status 1; in both cases no call is
    made and the token file is not written. *)
Theorem send_email_needs_usable_token (w : world R) :
  grant_needed (token_file w) = true ->
  SendEmail.get_gmail_service w =
    ( Exit 1,
      mk_world (proc w) (token_file w) (credentials_file w)
        (stdout w ++
           match token_file w with
           | None => [ lit "Error: Token file not found at " ++ SendEmail.TOKEN_FILE (proc w);
                       lit "Run: python3 fetch_email.py --auth" ]
           | Some _ =>
               [ lit "Error: Token expired or invalid. Run: python3 fetch_email.py --auth" ]
           end)
        (remote w),
      [] ).
Proof.
  intros Hneed.
  destruct (grant_needed_cases _ Hneed)
    as [Hfile | (info & Hfile & Hkeys & Hvalid & Hrefresh)];
    run_service; rewrite Hfile; cbn.
  - rewrite ?Hfile, <- app_assoc. reflexivity.
  - rewrite Hkeys. cbn. rewrite !Hvalid. cbn in Hrefresh. rewrite Hrefresh. cbn.
    rewrite ?Hfile. reflexivity.
Qed.

(** X6: when [get_gmail_service] of [fetch_email.py] or
    [get_calendar_service] returns a service, the token file holds the
    access token and the refresh token of the credential the service was
    built on: the file is never behind the credential in use. *)
Theorem token_file_matches_service (w : world R) (service : Service) :
  (outcome_of (FetchEmail.get_gmail_service w) = Ret service ->
   option_map (fun info => key_value (info_token info))
     (token_file (world_of (FetchEmail.get_gmail_service w)))
     = Some (token (credentials service)) /\
   option_map (fun info => key_value (info_refresh_token info))
     (token_file (world_of (FetchEmail.get_gmail_service w)))
     = Some (refresh_token (credentials service)))
  /\
  (outcome_of (CreateCalendarEvent.get_calendar_service w) = Ret service ->
   option_map (fun info => key_value (info_token info))
     (token_file (world_of (CreateCalendarEvent.get_calendar_service w)))
     = Some (token (credentials service)) /\
   option_map (fun info => key_value (info_refresh_token info))
     (token_file (world_of (CreateCalendarEvent.get_calendar_service w)))
     = Some (refresh_token (credentials service))).
Proof.
  assert (Hkey : forall v, key_value (json_entry v) = v) by (intros [v |]; reflexivity).
  split; run_service;
    (destruct (token_file w) as [info |] eqn:Hfile;
     [destruct (has_needed_keys info) eqn:Hkeys |]); cbn;
    repeat case_match; simplify_eq/=; intros Hret; simplify_eq/=;
    rewrite ?Hfile, ?Hkey; split; reflexivity.
Qed.

(** X25: a token file that lacks one of the keys [refresh_token],
    [client_id] and [client_secret] cannot be loaded: each of the three
    scripts ends with the [ValueError] of the loader, whatever else the
    file holds, a good access token included.  No call is made, no grant is
    started, nothing is printed and the file is left as it is. *)
Theorem token_file_without_keys_raises (w : world R) (info : authorized_user_info) :
  token_file w = Some info ->
  has_needed_keys info = false ->
  FetchEmail.get_gmail_service w = (Raise (ValueError MissingFields), w, [])
  /\ CreateCalendarEvent.get_calendar_service w = (Raise (ValueError MissingFields), w, [])
  /\ SendEmail.get_gmail_service w = (Raise (ValueError MissingFields), w, []).
Proof.
  intros Hfile Hkeys. run_service. rewrite Hfile, Hkeys. cbn. repeat split; reflexivity.
Qed.

(** X26: a grant that gives a credential without a refresh token is saved
    without the [refresh_token] key, because [to_json] leaves out what is
    [None].  The run that made the grant gets its service; the next run of
    any of the three scripts cannot load the file and ends with the
    [ValueError] of the loader. *)
Theorem grant_without_refresh_token (w : world R) (creds : Credentials) (r' : R) :
  grant_needed (token_file w) = true ->
  credentials_file w = true ->
  run_local_server FetchEmail.SCOPES (remote w) = (Ok creds, r') ->
  refresh_token creds = None ->
  let w' := world_of (FetchEmail.get_gmail_service w) in
  outcome_of (FetchEmail.get_gmail_service w) = Ret (build "gmail" "v1" creds) /\
  token_file w' = Some (to_json creds) /\
  info_refresh_token (to_json creds) = Missing /\
  outcome_of (FetchEmail.get_gmail_service w') = Raise (ValueError MissingFields) /\
  outcome_of (CreateCalendarEvent.get_calendar_service w') = Raise (ValueError MissingFields) /\
  outcome_of (SendEmail.get_gmail_service w') = Raise (ValueError MissingFields).
Proof.
  intros Hneed Hcred Hflow Hrt w'. subst w'.
  assert (Hrun : FetchEmail.get_gmail_service w =
            ( Ret (build "gmail" "v1" creds),
              mk_world (proc w) (Some (to_json creds)) (credentials_file w)
                (stdout w ++ [lit "Token saved to " ++ FetchEmail.TOKEN_FILE (proc w)]) r',
              [RunLocalServer FetchEmail.SCOPES (Ok creds)] )).
  { destruct (grant_needed_cases _ Hneed)
      as [Hfile | (info & Hfile & Hkeys & Hvalid & Hrefresh)];
      run_service; rewrite Hfile; cbn;
      rewrite ?Hkeys; cbn; rewrite ?Hvalid; cbn in *; rewrite ?Hrefresh, Hcred, Hflow;
      cbn; rewrite ?Hfile, ?Hcred; reflexivity. }
  rewrite Hrun. unfold outcome_of, world_of. cbn [fst snd].
  assert (Hkeys : has_needed_keys (to_json creds) = false)
    by (unfold has_needed_keys, to_json; cbn; rewrite Hrt; reflexivity).
  split; [reflexivity |]. split; [reflexivity |].
  split; [unfold to_json; cbn; rewrite Hrt; reflexivity |].
  run_service. cbn. rewrite Hkeys. cbn. repeat split; reflexivity.
Qed.

End CredentialPaths.

Lemma cached_credential_reused_witness :
  let w := Fake.start_world (Fake.configured []) (Some Fake.mail_only) Fake.friendly in
  log_of (FetchEmail.get_gmail_service w) = [] /\
  log_of (CreateCalendarEvent.get_calendar_service w) = [] /\
  log_of (SendEmail.get_gmail_service w) = [].
Proof.
  intros w.
  destruct (cached_credential_reused w Fake.mail_only (lit "granted"))
    as (Hf & Hc & Hs); [reflexivity | reflexivity | reflexivity | reflexivity |].
  rewrite Hf, Hc, Hs. repeat split.
Defined.

Lemma refreshed_credential_saved_witness :
  let w := Fake.start_world (Fake.configured []) (Some Fake.stale) Fake.rotating in
  option_map info_token (token_file (world_of (FetchEmail.get_gmail_service w)))
    = Some (Str (lit "fresh")) /\
  option_map info_refresh_token (token_file (world_of (FetchEmail.get_gmail_service w)))
    = Some (Str (lit "rt2")) /\
  option_map info_refresh_token
    (token_file (world_of (CreateCalendarEvent.get_calendar_service w)))
    = Some (Str (lit "rt2")).
Proof.
  intros w.
  destruct (refreshed_credential_saved w Fake.stale (remote w))
    as (Hf & Hc); [reflexivity | reflexivity | reflexivity | reflexivity |].
  rewrite (Hf _ eq_refl), (Hc _ eq_refl). repeat split.
Defined.

Lemma missing_client_secrets_exit_witness :
  let w := Fake.without_secrets
             (Fake.start_world (Fake.configured []) (Some Fake.spent) Fake.friendly) in
  outcome_of (FetchEmail.get_gmail_service w) = Exit 1 /\
  outcome_of (CreateCalendarEvent.get_calendar_service w) = Exit 1.
Proof.
  intros w.
  destruct (missing_client_secrets_exit w) as (Hf & Hc); [reflexivity | reflexivity |].
  rewrite Hf, Hc. split; reflexivity.
Defined.

Lemma grant_result_saved_witness :
  let w := Fake.start_world (Fake.configured []) (Some Fake.spent) Fake.friendly in
  token_file (world_of (FetchEmail.get_gmail_service w))
    = Some (to_json (Fake.granted FetchEmail.SCOPES)) /\
  token_file (world_of (CreateCalendarEvent.get_calendar_service w))
    = Some (to_json (Fake.granted CreateCalendarEvent.SCOPES)).
Proof.
  intros w.
  destruct (grant_result_saved w) as (Hf & Hc); [reflexivity | reflexivity |].
  rewrite Hf, Hc. split; reflexivity.
Defined.

Lemma send_email_needs_usable_token_witness :
  let w := Fake.start_world (Fake.configured []) (Some Fake.spent) Fake.friendly in
  SendEmail.get_gmail_service w =
    ( Exit 1,
      mk_world (proc w) (token_file w) true
        [lit "Error: Token expired or invalid. Run: python3 fetch_email.py --auth"]
        (remote w),
      [] ).
Proof.
  intros w. rewrite (send_email_needs_usable_token w); reflexivity.
Defined.

Lemma token_file_matches_service_witness :
  let w := Fake.start_world (Fake.configured []) (Some Fake.stale) Fake.rotating in
  option_map (fun info => key_value (info_refresh_token info))
    (token_file (world_of (FetchEmail.get_gmail_service w)))
    = Some (Some (lit "rt2")) /\
  option_map (fun info => key_value (info_refresh_token info))
    (token_file (world_of (CreateCalendarEvent.get_calendar_service w)))
    = Some (Some (lit "rt2")).
Proof.
  intros w.
  destruct (token_file_matches_service w
              (build "gmail" "v1"
                 (Fake.answered "fresh" (Some (lit "rt2"))
                    (credentials_of Fake.stale FetchEmail.SCOPES))))
    as [Hf _].
  destruct (token_file_matches_service w
              (build "calendar" "v3"
                 (Fake.answered "fresh" (Some (lit "rt2"))
                    (credentials_of Fake.stale CreateCalendarEvent.SCOPES))))
    as [_ Hc].
  destruct (Hf eq_refl) as [_ Hfr]. destruct (Hc eq_refl) as [_ Hcr].
  rewrite Hfr, Hcr. split; reflexivity.
Defined.

Lemma token_file_without_keys_raises_witness :
  let w := Fake.start_world (Fake.configured []) (Some Fake.keyless) Fake.friendly in
  key_value (info_token Fake.keyless) = Some (lit "granted") /\
  info_expired Fake.keyless = false /\
  FetchEmail.get_gmail_service w = (Raise (ValueError MissingFields), w, []) /\
  CreateCalendarEvent.get_calendar_service w = (Raise (ValueError MissingFields), w, []) /\
  SendEmail.get_gmail_service w = (Raise (ValueError MissingFields), w, []).
Proof.
  intros w. split; [reflexivity |]. split; [reflexivity |].
  apply (token_file_without_keys_raises w Fake.keyless); reflexivity.
Defined.

Lemma grant_without_refresh_token_witness :
  let w := Fake.start_world (Fake.configured []) None
             (Fake.with_flow (fun sc => Ok (Fake.one_time sc)) Fake.friendly) in
  outcome_of (FetchEmail.get_gmail_service (world_of (FetchEmail.get_gmail_service w)))
    = Raise (ValueError MissingFields).
Proof.
  intros w.
  destruct (grant_without_refresh_token w (Fake.one_time FetchEmail.SCOPES) (remote w))
    as (_ & _ & _ & Hnext & _); [reflexivity | reflexivity | reflexivity | reflexivity |].
  exact Hnext.
Defined.

(** ** What a run of [fetch_email.py] calls *)

Section EmitsAt.
Context {R : Type} (p : process) (P : call -> Prop).

Lemma emits_at_ret {A} (a : A) : emits_at p P (ret (R := R) a).
Proof. intros w Hw. split; [constructor | exact Hw]. Qed.

Lemma emits_at_raise {A} (e : exn) : emits_at p P (raise (R := R) (A := A) e).
Proof. intros w Hw. split; [constructor | exact Hw]. Qed.

Lemma emits_at_sys_exit {A} (c : Z) : emits_at p P (sys_exit (R := R) (A := A) c).
Proof. intros w Hw. split; [constructor | exact Hw]. Qed.

Lemma emits_at_lift {A} (r : result A) : emits_at p P (lift (R := R) r).
Proof. destruct r; intros w Hw; (split; [constructor | exact Hw]). Qed.

Lemma emits_at_print (line : pystr) : emits_at p P (print (R := R) line).
Proof. intros w Hw. split; [constructor | exact Hw]. Qed.

Lemma emits_at_read_token_file : emits_at p P (read_token_file (R := R)).
Proof. intros w Hw. split; [constructor | exact Hw]. Qed.

Lemma emits_at_write_token_file (info : authorized_user_info) :
  emits_at p P (write_token_file (R := R) info).
Proof. intros w Hw. split; [constructor | exact Hw]. Qed.

Lemma emits_at_credentials_file_exists : emits_at p P (credentials_file_exists (R := R)).
Proof. intros w Hw. split; [constructor | exact Hw]. Qed.

Lemma emits_at_remote_call {A} (op : R -> result A * R) (entry : result A -> call) :
  (forall r, P (entry r)) -> emits_at p P (remote_call op entry).
Proof.
  intros Hentry w Hw. unfold remote_call, log_of, world_of.
  destruct (op (remote w)) as [[a | e] r']; simpl;
    (split; [repeat constructor; apply Hentry | exact Hw]).
Qed.

Lemma emits_at_bind {A B} (m : M R A) (k : A -> M R B) :
  emits_at p P m -> (forall a, emits_at p P (k a)) -> emits_at p P (bind m k).
Proof.
  intros Hm Hk w Hw. destruct (Hm w Hw) as [Hlog Hproc].
  unfold bind, log_of, world_of in *.
  destruct (m w) as [[[a | e | c] w'] l]; simpl in *; try (split; assumption).
  destruct (Hk a w' Hproc) as [Hlog' Hproc']. unfold log_of, world_of in *.
  destruct (k a w') as [[o w''] l']. simpl in *.
  split; [apply Forall_app; split; assumption | exact Hproc'].
Qed.

(** Reading the process gives [p]. *)
Lemma emits_at_get_process {B} (k : process -> M R B) :
  emits_at p P (k p) -> emits_at p P (bind get_process k).
Proof.
  intros Hk w Hw. unfold bind, get_process. rewrite Hw.
  destruct (Hk w Hw) as [Hlog Hproc]. unfold log_of, world_of in *.
  destruct (k p w) as [[o w'] l]. simpl in *. split; assumption.
Qed.

End EmitsAt.

Ltac emits_at_side :=
  intros; cbn;
  first [ exact I | reflexivity | assumption
        | split; [reflexivity | first [reflexivity | assumption]]
        | solve [auto] ].

Ltac emits_at_step :=
  first
    [ apply emits_at_ret | apply emits_at_raise | apply emits_at_sys_exit
    | apply emits_at_lift | apply emits_at_print | apply emits_at_read_token_file
    | apply emits_at_write_token_file | apply emits_at_credentials_file_exists
    | apply emits_at_remote_call; emits_at_side
    | apply emits_at_get_process
    | apply emits_at_bind; [| intros ?]
    | match goal with
      | |- emits_at _ _ (if ?b then _ else _) => destruct b eqn:?
      | |- emits_at _ _ (match ?x with _ => _ end) => destruct x eqn:?
      end ].

Section FetchRun.
Context {R : Type} `{Remote R}.
Import FetchEmail.

Lemma refresh_emits_at (p : process) (P : call -> Prop) (c : Credentials) :
  (forall c r, P (Refresh c r)) -> emits_at p P (refresh (R := R) c).
Proof. intros HP. unfold refresh. apply emits_at_remote_call. apply HP. Qed.

Lemma process_emails_emits_at (p : process) (service : Service) (emails : list email) :
  emits_at p (fetch_call p) (process_emails (R := R) service emails).
Proof.
  induction emails as [| e rest IH]; cbn [process_emails].
  - apply emits_at_ret.
  - unfold create_memo, mark_as_read.
    repeat first [ apply IH | emits_at_step ].
Qed.

Lemma fetch_messages_emits_at (p : process) (service : Service) (messages : list pystr) :
  forall emails, emits_at p (fetch_call p) (fetch_messages (R := R) service messages emails).
Proof.
  induction messages as [| id rest IH]; intros emails; cbn [fetch_messages].
  - apply emits_at_ret.
  - repeat first [ apply IH | emits_at_step ].
Qed.

(** X7: a run of [fetch_email.py] calls nothing but this: the token
    endpoint and the grant for its own scopes, the listing of at most 10
    messages labelled INBOX and UNREAD, the fetching of messages, the
    removal of the label UNREAD alone, and posts to
    [MEMOS_BASE_URL/api/v1/memos] with the token of [MEMOS_API_TOKEN] as
    bearer.  It never sends mail and never touches the calendar. *)
Theorem fetch_run_calls (w : world R) :
  Forall (fetch_call (proc w)) (log_of (main w)).
Proof.
  assert (Hrun : emits_at (proc w) (fetch_call (proc w)) (main (R := R))).
  { unfold main, get_unread_emails, get_gmail_service, load_token, run_flow, save_token.
    repeat first
      [ apply process_emails_emits_at
      | apply fetch_messages_emits_at
      | apply refresh_emits_at; emits_at_side
      | emits_at_step ]. }
  exact (proj1 (Hrun w eq_refl)).
Qed.

(** X8: without [MEMOS_API_TOKEN] (unset or empty) [create_memo] makes no
    call: it prints that the token is not set and returns [False]. *)
Theorem create_memo_unconfigured (content : pystr) (w : world R) :
  truthy_str (MEMOS_API_TOKEN (proc w)) = false ->
  create_memo content w =
    ( Ret false,
      mk_world (proc w) (token_file w) (credentials_file w)
        (stdout w ++ [lit "Error: MEMOS_API_TOKEN not set"]) (remote w),
      [] ).
Proof.
  intros Htok. unfold create_memo, bind, get_process, print, ret.
  destruct (MEMOS_API_TOKEN (proc w)) as [[| c tok] |]; try discriminate Htok; reflexivity.
Qed.

(** X9: a run without [--auth] and without [MEMOS_API_TOKEN] leaves with
    status 1 after two lines of advice, whatever the token file holds: no
    call is made and the token file is left as it is.  The run does not get
    to load the credential: with a token file that the loader refuses, on
    which [get_gmail_service] raises, it leaves with status 1 all the
    same. *)
Theorem main_requires_sink_token (w : world R) :
  bool_decide (lit "--auth" ∈ argv (proc w)) = false ->
  truthy_str (MEMOS_API_TOKEN (proc w)) = false ->
  main w =
    ( Exit 1,
      mk_world (proc w) (token_file w) (credentials_file w)
        (stdout w ++ [ lit "Error: MEMOS_API_TOKEN environment variable not set";
                       lit "Run: source ~/.zshrc" ])
        (remote w),
      [] )
  /\ (forall info,
         token_file w = Some info -> has_needed_keys info = false ->
         outcome_of (get_gmail_service w) = Raise (ValueError MissingFields) /\
         outcome_of (main w) = Exit 1).
Proof.
  intros Hauth Htok.
  assert (Hmain : main w =
            ( Exit 1,
              mk_world (proc w) (token_file w) (credentials_file w)
                (stdout w ++ [ lit "Error: MEMOS_API_TOKEN environment variable not set";
                               lit "Run: source ~/.zshrc" ])
                (remote w),
              [] )).
  { unfold main, bind, get_process, print, sys_exit.
    rewrite Hauth, Htok. cbn. rewrite <- app_assoc. reflexivity. }
  split; [exact Hmain |].
  intros info Hfile Hkeys. rewrite Hmain. split; [| reflexivity].
  run_service. rewrite Hfile, Hkeys. reflexivity.
Qed.

(** X10: with [--auth] on the command line a run does the credential step
    and nothing else, whether [MEMOS_API_TOKEN] is set or not: its calls are
    those of [get_gmail_service], all of them to the token endpoint or the
    grant, and it ends the way [get_gmail_service] ends. *)
Theorem auth_mode_only_obtains_credential (w : world R) :
  bool_decide (lit "--auth" ∈ argv (proc w)) = true ->
  let w1 := mk_world (proc w) (token_file w) (credentials_file w)
              (stdout w ++ [lit "Running OAuth flow..."]) (remote w) in
  log_of (main w) = log_of (get_gmail_service w1) /\
  Forall credential_call (log_of (main w)) /\
  outcome_of (main w) =
    match outcome_of (get_gmail_service w1) with
    | Ret _ => Ret tt
    | Raise e => Raise e
    | Exit c => Exit c
    end.
Proof.
  intros Hauth w1. subst w1.
  unfold main, bind, get_process. rewrite Hauth. unfold print. cbv beta iota.
  set (w1 := mk_world _ _ _ _ _).
  assert (Hlog : Forall credential_call (log_of (get_gmail_service w1))).
  { apply fetch_service_emits; intros; exact I. }
  unfold log_of, outcome_of in *.
  destruct (get_gmail_service w1) as [[[s | e | c] w2] l]; cbn in *;
    rewrite ?app_nil_r; repeat split; first [reflexivity | assumption].
Qed.

End FetchRun.

Lemma create_memo_unconfigured_witness :
  let w := Fake.start_world (Fake.unconfigured []) None Fake.friendly in
  FetchEmail.create_memo (lit "note") w =
    (Ret false, mk_world (proc w) None true [lit "Error: MEMOS_API_TOKEN not set"] (remote w), []).
Proof.
  intros w. rewrite (create_memo_unconfigured (lit "note") w); reflexivity.
Defined.

Lemma main_requires_sink_token_witness :
  let w := Fake.start_world (Fake.unconfigured [lit "fetch_email.py"]) (Some Fake.keyless)
             Fake.inbox3 in
  outcome_of (FetchEmail.get_gmail_service w) = Raise (ValueError MissingFields) /\
  outcome_of (FetchEmail.main w) = Exit 1 /\
  log_of (FetchEmail.main w) = [].
Proof.
  intros w.
  destruct (main_requires_sink_token w) as [Hmain Hload]; [reflexivity | reflexivity |].
  destruct (Hload Fake.keyless eq_refl eq_refl) as [Hservice _].
  rewrite Hservice, Hmain. repeat split.
Defined.

Lemma auth_mode_only_obtains_credential_witness :
  let w := Fake.start_world (Fake.unconfigured [lit "fetch_email.py"; lit "--auth"]) None
             Fake.inbox3 in
  Forall credential_call (log_of (FetchEmail.main w)).
Proof.
  intros w. apply (auth_mode_only_obtains_credential w). reflexivity.
Defined.

(** ** Listing the mail *)

Section Listing.
Context {R : Type} `{Remote R}.
Import FetchEmail.

Lemma email_of_message_ok (id : pystr) (pl : payload) (e : email) :
  email_of_message id pl = Ok e -> e_id e = id /\ (length (e_body e) <= 5000)%nat.
Proof.
  unfold email_of_message. destruct (get_body pl) as [body | err]; [| discriminate].
  cbn. intros Heq. injection Heq as <-. cbn.
  split; [reflexivity | apply slice_to_length].
Qed.

Lemma fetch_messages_ret (service : Service) (messages : list pystr) :
  forall (acc : list email) (w : world R) (emails : list email),
    outcome_of (fetch_messages service messages acc w) = Ret emails ->
    exists new,
      emails = acc ++ new /\
      map e_id new = messages /\
      Forall (fun e => (length (e_body e) <= 5000)%nat) new /\
      fetched_ids (log_of (fetch_messages service messages acc w)) = messages.
Proof.
  induction messages as [| id rest IH]; intros acc w emails; cbn [fetch_messages].
  - unfold ret, outcome_of, log_of. cbn. intros Heq. injection Heq as <-.
    exists []. rewrite app_nil_r. split; [reflexivity | split; [reflexivity | split]];
      [constructor | reflexivity].
  - unfold bind, remote_call.
    destruct (messages_get id (remote w)) as [[pl | err] r']; [| discriminate].
    destruct (email_of_message id pl) as [e | err] eqn:He; cbn [lift]; [| discriminate].
    unfold ret. cbv beta iota.
    match goal with
    | |- context [fetch_messages service rest ?es ?w1] =>
        specialize (IH es w1); destruct (fetch_messages service rest es w1) as [[o w2] l]
    end.
    unfold outcome_of, log_of in *. cbn in *.
    intros Hret. destruct (IH emails Hret) as (new & -> & Hids & Hsmall & Hlog).
    destruct (email_of_message_ok _ _ _ He) as [Hid Hlen].
    exists (e :: new). rewrite <- app_assoc.
    split; [reflexivity | split; [| split]].
    + cbn. rewrite Hid, Hids. reflexivity.
    + constructor; assumption.
    + unfold fetched_ids in *. cbn. f_equal. exact Hlog.
Qed.

(** X11: when [get_unread_emails] returns, it has made one listing call for
    the labels INBOX and UNREAD with the bound it was given, then one fetch
    per listed message, in the order of the listing; the mails it returns
    are those messages in that order (none when the answer has no
    [messages] key), and no body is longer than 5000 characters. *)
Theorem listing_keeps_order (service : Service) (n : Z) (w : world R) (emails : list email) :
  outcome_of (get_unread_emails service n w) = Ret emails ->
  exists ids gets,
    log_of (get_unread_emails service n w)
      = MessagesList [lit "INBOX"; lit "UNREAD"] n (Ok ids) :: gets /\
    fetched_ids gets = default [] ids /\
    map e_id emails = default [] ids /\
    Forall (fun e => (length (e_body e) <= 5000)%nat) emails.
Proof.
  unfold get_unread_emails, bind, remote_call.
  destruct (messages_list _ _ _) as [[ids | err] r']; [| discriminate].
  match goal with
  | |- context [fetch_messages service ?ms ?es ?w1] =>
      pose proof (fetch_messages_ret service ms es w1 emails) as Hf;
      destruct (fetch_messages service ms es w1) as [[o w2] l]
  end.
  unfold outcome_of, log_of in *. cbn in *.
  intros Hret. destruct (Hf Hret) as (new & -> & Hids & Hsmall & Hlog).
  exists ids, l. repeat split; assumption.
Qed.

Lemma headers_dict_keeps (name : pystr) (hs : list header) :
  forall d : gmap pystr pystr,
    Forall (fun h => h_name h <> name) hs ->
    foldl (fun d h => <[h_name h := h_value h]> d) d hs !! name = d !! name.
Proof.
  induction hs as [| h hs IH]; intros d Hall; cbn; [reflexivity |].
  apply Forall_cons in Hall as [Hh Hall].
  rewrite IH by exact Hall. apply lookup_insert_ne. exact Hh.
Qed.

Lemma headers_dict_last (pre post : list header) (h : header) :
  Forall (fun h' => h_name h' <> h_name h) post ->
  headers_dict (pre ++ h :: post) !! h_name h = Some (h_value h).
Proof.
  intros Hpost. unfold headers_dict. rewrite foldl_app. cbn.
  rewrite headers_dict_keeps by exact Hpost. apply lookup_insert_eq.
Qed.

(** X12: when a header name occurs more than once, the last occurrence
    wins: the subject, the sender and the date of the mail item are the
    values of the last Subject, From and Date header of the message. *)
Theorem last_header_wins (id : pystr) (pl : payload) (body : pystr)
    (pre post : list header) (h : header) :
  get_body pl = Ok body ->
  pl_headers pl = pre ++ h :: post ->
  Forall (fun h' => h_name h' <> h_name h) post ->
  exists e,
    email_of_message id pl = Ok e /\
    (h_name h = lit "Subject" -> e_subject e = h_value h) /\
    (h_name h = lit "From" -> e_from e = h_value h) /\
    (h_name h = lit "Date" -> e_date e = h_value h).
Proof.
  intros Hbody Hsplit Hpost. unfold email_of_message. rewrite Hbody. cbn.
  eexists. split; [reflexivity |]. cbn. rewrite Hsplit.
  pose proof (headers_dict_last pre post h Hpost) as Hlast.
  repeat split; intros Hname; rewrite <- Hname, Hlast; reflexivity.
Qed.

End Listing.

Lemma listing_keeps_order_witness :
  let w := Fake.start_world (Fake.configured []) (Some Fake.mail_only) Fake.inbox3 in
  let service := build "gmail" "v1" (credentials_of Fake.mail_only FetchEmail.SCOPES) in
  exists ids gets,
    log_of (FetchEmail.get_unread_emails service 10 w)
      = MessagesList [lit "INBOX"; lit "UNREAD"] 10 (Ok ids) :: gets /\
    fetched_ids gets = default [] ids /\
    map FetchEmail.e_id Fake.inbox3_mails = default [] ids /\
    Forall (fun e => (length (FetchEmail.e_body e) <= 5000)%nat) Fake.inbox3_mails.
Proof.
  intros w service.
  apply (listing_keeps_order service 10 w Fake.inbox3_mails).
  vm_compute. reflexivity.
Defined.

Lemma last_header_wins_witness :
  exists e,
    FetchEmail.email_of_message (lit "m1") Fake.two_subjects = Ok e /\
    FetchEmail.e_subject e = lit "second".
Proof.
  destruct (last_header_wins (lit "m1") Fake.two_subjects (lit "")
              [mk_header (lit "Subject") (lit "first");
               mk_header (lit "From") (lit "ann@example.org")]
              [] (mk_header (lit "Subject") (lit "second")))
    as (e & He & Hs & _); [reflexivity | reflexivity | constructor |].
  exists e. split; [exact He | apply Hs; reflexivity].
Defined.

(** ** The sync loop, mail by mail *)

Section LoopOutcome.
Context {R : Type} `{Remote R}.
Import FetchEmail.

(** X13: with the sink configured, the sync loop either runs to its end or
    is stopped by an exception of its last call.  When it runs to its end,
    every mail was posted to the sink exactly once, in the order of the
    list, whatever the sink answered to the mails before it, and the
    messages marked as read are exactly those whose note was answered with
    status 200, in that order.  The loop never leaves through [sys.exit]. *)
Theorem sync_loop_outcome (service : Service) (emails : list email) (w : world R) :
  truthy_str (MEMOS_API_TOKEN (proc w)) = true ->
  (outcome_of (process_emails service emails w) = Ret tt /\
   map fst (posted (log_of (process_emails service emails w)))
     = map email_to_memo_content emails /\
   marked_ids (log_of (process_emails service emails w))
     = marks_for emails (map snd (posted (log_of (process_emails service emails w)))))
  \/
  (exists e pre c,
      outcome_of (process_emails service emails w) = Raise e /\
      log_of (process_emails service emails w) = pre ++ [c] /\
      failed_with e c).
Proof.
  revert w. induction emails as [| em rest IH]; intros w Htruthy.
  - left. repeat split.
  - cbn [process_emails].
    unfold create_memo, mark_as_read.
    unfold bind, print, get_process, remote_call, ret.
    cbv beta iota. cbn [proc].
    destruct (MEMOS_API_TOKEN (proc w)) as [[| c tok] |] eqn:Htok;
      try discriminate Htruthy.
    cbv beta iota.
    match goal with
    | |- context [requests_post ?u ?b ?ct ?r] =>
        destruct (requests_post u b ct r) as [[resp | err] r1]
    end; cbv beta iota.
    + destruct (status_code resp =? 200) eqn:Hs; cbv beta iota.
      * match goal with
        | |- context [messages_modify ?i ?ls ?r] =>
            destruct (messages_modify i ls r) as [[[] | err] r2]
        end; cbv beta iota.
        -- match goal with
           | |- context [process_emails service rest ?W] =>
               assert (Ht : truthy_str (MEMOS_API_TOKEN (proc W)) = true)
                 by (cbn; rewrite Htok; reflexivity);
               specialize (IH W Ht);
               destruct (process_emails service rest W) as [[o w4] l]
           end.
           unfold outcome_of, log_of, posted, marked_ids in *. cbn in *.
           destruct IH as [(Ho & Hp & Hm) | (e & pre & c' & Ho & Hl & Hf)].
           ++ left. subst o. rewrite Hs. cbn.
              split; [reflexivity | split; f_equal; assumption].
           ++ right. subst o l. exists e. eexists. exists c'.
              split; [reflexivity | split; [| exact Hf]].
              rewrite !app_comm_cons. reflexivity.
        -- right. unfold outcome_of, log_of. cbn.
           exists err, [RequestsPost (MEMOS_BASE_URL (proc w) ++ lit "/api/v1/memos") (c :: tok)
                          (email_to_memo_content em) (Ok resp)],
             (MessagesModify (e_id em) [lit "UNREAD"] (Err err)).
           repeat split.
      * match goal with
        | |- context [process_emails service rest ?W] =>
            assert (Ht : truthy_str (MEMOS_API_TOKEN (proc W)) = true)
              by (cbn; rewrite Htok; reflexivity);
            specialize (IH W Ht);
            destruct (process_emails service rest W) as [[o w4] l]
        end.
        unfold outcome_of, log_of, posted, marked_ids in *. cbn in *.
        destruct IH as [(Ho & Hp & Hm) | (e & pre & c' & Ho & Hl & Hf)].
        -- left. subst o. rewrite Hs. cbn.
           split; [reflexivity | split; [f_equal |]; assumption].
        -- right. subst o l. exists e. eexists. exists c'.
           split; [reflexivity | split; [| exact Hf]].
           rewrite !app_comm_cons. reflexivity.
    + right. unfold outcome_of, log_of. cbn.
      exists err, [],
        (RequestsPost (MEMOS_BASE_URL (proc w) ++ lit "/api/v1/memos") (c :: tok)
           (email_to_memo_content em) (Err err)).
      repeat split.
Qed.

End LoopOutcome.

Lemma sync_loop_outcome_witness :
  let w := Fake.start_world (Fake.configured []) (Some Fake.mail_only) Fake.inbox3 in
  let service := build "gmail" "v1" (credentials_of Fake.mail_only FetchEmail.SCOPES) in
  (outcome_of (FetchEmail.process_emails service Fake.inbox3_mails w) = Ret tt /\
   map fst (posted (log_of (FetchEmail.process_emails service Fake.inbox3_mails w)))
     = map FetchEmail.email_to_memo_content Fake.inbox3_mails /\
   marked_ids (log_of (FetchEmail.process_emails service Fake.inbox3_mails w))
     = marks_for Fake.inbox3_mails
         (map snd (posted (log_of (FetchEmail.process_emails service Fake.inbox3_mails w)))))
  \/
  (exists e pre c,
      outcome_of (FetchEmail.process_emails service Fake.inbox3_mails w) = Raise e /\
      log_of (FetchEmail.process_emails service Fake.inbox3_mails w) = pre ++ [c] /\
      failed_with e c).
Proof.
  intros w service.
  apply (sync_loop_outcome service Fake.inbox3_mails w). reflexivity.
Defined.

(** ** A run of [create_calendar_event.py] *)

Section CalendarRun.
Context {R : Type} `{Remote R}.
Import CreateCalendarEvent.

(** X14: without [--auth], a command line without a title, or without both
    [--date] and [--start], is refused with status 2 whatever the token
    file holds: no call is made, nothing is printed on the standard output
    and the token file is left as it is.  The run does not get to load the
    credential: with a token file that the loader refuses, on which
    [get_calendar_service] raises, it is refused with status 2 all the
    same. *)
Theorem calendar_main_validates (c : cli) (w : world R) :
  cli_auth c = false ->
  truthy_str (cli_title c) = false \/
  (truthy_str (cli_date c) = false /\ truthy_str (cli_start c) = false) ->
  main c w = (Exit 2, w, [])
  /\ (forall info,
         token_file w = Some info -> has_needed_keys info = false ->
         outcome_of (get_calendar_service w) = Raise (ValueError MissingFields) /\
         outcome_of (main c w) = Exit 2).
Proof.
  intros Hauth Hbad.
  assert (Hmain : main c w = (Exit 2, w, [])).
  { unfold main, parser_error, sys_exit. cbn. rewrite Hauth.
    destruct Hbad as [Ht | [Hd Hs]].
    - rewrite Ht. reflexivity.
    - rewrite Hd, Hs. destruct (truthy_str (cli_title c)); reflexivity. }
  split; [exact Hmain |].
  intros info Hfile Hkeys. rewrite Hmain. split; [| reflexivity].
  run_service. rewrite Hfile, Hkeys. reflexivity.
Qed.

Lemma strptime_raises_value_error (s fmt : pystr) (e : exn) :
  strptime s fmt = Err e -> exists why, e = ValueError why.
Proof.
  unfold strptime. intros Herr.
  repeat case_match; simplify_eq; eexists; reflexivity.
Qed.

(** What [parse_datetime] returns is the ISO form of a [datetime] of the
    calendar, with the time zone [America/Phoenix]. *)
Lemma parse_datetime_ok (dt_str : pystr) (d : pydict) :
  parse_datetime dt_str = Ok d ->
  exists dt,
    valid_datetime dt = true /\
    d = [ (lit "dateTime", VStr (isoformat dt));
          (lit "timeZone", VStr (lit "America/Phoenix")) ].
Proof.
  unfold parse_datetime.
  assert (Hvalid : forall fmt dt, strptime dt_str fmt = Ok dt -> valid_datetime dt = true).
  { intros fmt dt. unfold strptime. repeat case_match; intros; simplify_eq; assumption. }
  cbn [parse_datetime_loop].
  repeat match goal with
  | |- context [match strptime dt_str ?f with _ => _ end] =>
      let Hp := fresh "Hp" in
      destruct (strptime dt_str f) as [dt | e] eqn:Hp;
        [ intros [= <-]; exists dt; split; [exact (Hvalid _ _ Hp) | reflexivity]
        | destruct (strptime_raises_value_error _ _ _ Hp) as [? ->] ]
  end.
  discriminate.
Qed.

(** X15: [parse_datetime] either gives a dict with the [dateTime] in ISO
    form, seconds included, and the time zone [America/Phoenix], or raises
    the [ValueError] that names the text it was given; no error of
    [strptime] gets out of it. *)
Theorem parse_datetime_result (dt_str : pystr) :
  (exists dt,
      parse_datetime dt_str =
        Ok [ (lit "dateTime", VStr (isoformat dt));
             (lit "timeZone", VStr (lit "America/Phoenix")) ]
      /\ valid_datetime dt = true)
  \/ parse_datetime dt_str = Err (ValueError (CouldNotParseDatetime dt_str)).
Proof.
  unfold parse_datetime.
  assert (Hvalid : forall fmt dt, strptime dt_str fmt = Ok dt -> valid_datetime dt = true).
  { intros fmt dt. unfold strptime. repeat case_match; intros; simplify_eq; assumption. }
  cbn [parse_datetime_loop].
  repeat match goal with
  | |- context [match strptime dt_str ?f with _ => _ end] =>
      let Hp := fresh "Hp" in
      destruct (strptime dt_str f) as [dt | e] eqn:Hp;
        [ left; exists dt; split; [reflexivity | exact (Hvalid _ _ Hp)]
        | destruct (strptime_raises_value_error _ _ _ Hp) as [? ->] ]
  end.
  right. reflexivity.
Qed.

(** X16: the dates are read after the credential step.  When the date or
    time on the command line cannot be turned into a start and an end, the
    run has already obtained the credential (with the calls that takes);
    it then ends with that error, and no event is sent. *)
Theorem calendar_bad_date_after_credential (c : cli) (w : world R) (e : exn) :
  cli_auth c = false ->
  truthy_str (cli_title c) = true ->
  truthy_str (cli_date c) || truthy_str (cli_start c) = true ->
  start_end (parse_args c) = Err e ->
  let w1 := mk_world (proc w) (token_file w) (credentials_file w)
              (stdout w ++ [lit "Connecting to Google Calendar..."]) (remote w) in
  log_of (main c w) = log_of (get_calendar_service w1) /\
  outcome_of (main c w) =
    match outcome_of (get_calendar_service w1) with
    | Ret _ => Raise e
    | Raise e' => Raise e'
    | Exit code => Exit code
    end.
Proof.
  intros Hauth Htitle Hwhen Herr w1. subst w1.
  unfold main, parser_error. cbn [auth title date start parse_args].
  rewrite Hauth, Htitle. cbn [negb].
  destruct (truthy_str (cli_date c)) eqn:Hd, (truthy_str (cli_start c)) eqn:Hs;
    try discriminate Hwhen; cbn [negb andb];
    unfold bind, print; cbv beta iota;
    set (w1 := mk_world _ _ _ _ _);
    unfold log_of, outcome_of;
    destruct (get_calendar_service w1) as [[[s | e' | code] w2] l]; cbn;
    rewrite ?Herr; cbn; rewrite ?app_nil_r; split; reflexivity.
Qed.

(** X17: a run whose command line is well formed and whose credential step
    returns a service sends exactly one insertion, after the calls of the
    credential step, to the calendar [primary], with the title as summary,
    the start and the end read from the command line, and the reminder of
    the command line.  The run ends well when the answer carries a
    [summary]; it raises [KeyError] when it does not, although the event
    was created; it raises the error of the insertion when that fails. *)
Theorem calendar_main_inserts_once (c : cli) (w : world R)
    (st en : pydict) (service : Service) :
  cli_auth c = false ->
  truthy_str (cli_title c) = true ->
  truthy_str (cli_date c) || truthy_str (cli_start c) = true ->
  start_end (parse_args c) = Ok (st, en) ->
  let w1 := mk_world (proc w) (token_file w) (credentials_file w)
              (stdout w ++ [lit "Connecting to Google Calendar..."]) (remote w) in
  outcome_of (get_calendar_service w1) = Ret service ->
  let body := event_body (default (lit "") (cli_title c)) st en
                (cli_description c) (cli_location c) (Some (default 30 (cli_reminder c))) in
  let answer := fst (events_insert (lit "primary") body
                       (remote (world_of (get_calendar_service w1)))) in
  log_of (main c w) =
    log_of (get_calendar_service w1) ++ [EventsInsert (lit "primary") body answer] /\
  outcome_of (main c w) =
    match answer with
    | Ok ev =>
        match ce_summary ev with
        | Some _ => Ret tt
        | None => Raise (KeyError (lit "summary"))
        end
    | Err e => Raise e
    end.
Proof.
  intros Hauth Htitle Hwhen Hse w1. subst w1.
  unfold main, parser_error, create_event.
  cbn [auth title date start description location reminder parse_args].
  rewrite Hauth, Htitle. cbn [negb].
  destruct (truthy_str (cli_date c)) eqn:Hd, (truthy_str (cli_start c)) eqn:Hs;
    try discriminate Hwhen; cbn [negb andb];
    unfold bind, print, remote_call, ret, raise; cbv beta iota;
    set (w1 := mk_world _ _ _ _ _);
    unfold log_of, outcome_of, world_of;
    destruct (get_calendar_service w1) as [[[s | e' | code] w2] l]; cbn;
    intros Hret; try discriminate Hret;
    rewrite Hse; cbn;
    destruct (events_insert _ _ _) as [[[[summary |] link] | e] r']; cbn;
    rewrite ?app_nil_r; split; reflexivity.
Qed.

End CalendarRun.

Lemma calendar_main_validates_witness :
  let w := Fake.start_world (Fake.configured []) (Some Fake.keyless) Fake.friendly in
  outcome_of (CreateCalendarEvent.get_calendar_service w)
    = Raise (ValueError MissingFields) /\
  CreateCalendarEvent.main Fake.no_title w = (Exit 2, w, []).
Proof.
  intros w.
  destruct (calendar_main_validates Fake.no_title w) as [Hmain Hload];
    [reflexivity | left; reflexivity |].
  destruct (Hload Fake.keyless eq_refl eq_refl) as [Hservice _].
  rewrite Hservice. split; [reflexivity | exact Hmain].
Defined.

Lemma calendar_bad_date_after_credential_witness :
  let w := Fake.start_world (Fake.configured []) (Some Fake.stale) Fake.friendly in
  log_of (CreateCalendarEvent.main (Fake.meeting "tomorrow") w)
    = log_of (CreateCalendarEvent.get_calendar_service (Fake.connecting w)) /\
  outcome_of (CreateCalendarEvent.main (Fake.meeting "tomorrow") w) =
    match outcome_of (CreateCalendarEvent.get_calendar_service (Fake.connecting w)) with
    | Ret _ => Raise (ValueError (CouldNotParseDatetime (lit "tomorrow")))
    | Raise e' => Raise e'
    | Exit code => Exit code
    end.
Proof.
  intros w.
  apply (calendar_bad_date_after_credential (Fake.meeting "tomorrow") w
           (ValueError (CouldNotParseDatetime (lit "tomorrow"))));
    vm_compute; reflexivity.
Defined.

Lemma calendar_main_inserts_once_witness :
  let w := Fake.start_world (Fake.configured []) (Some Fake.calendar_ok) Fake.friendly in
  outcome_of (CreateCalendarEvent.main (Fake.meeting "2026-02-10 14:00") w) = Ret tt.
Proof.
  intros w.
  destruct (calendar_main_inserts_once (Fake.meeting "2026-02-10 14:00") w
              [ (lit "dateTime", VStr (lit "2026-02-10T14:00:00"));
                (lit "timeZone", VStr (lit "America/Phoenix")) ]
              [ (lit "dateTime", VStr (lit "2026-02-10T15:00:00"));
                (lit "timeZone", VStr (lit "America/Phoenix")) ]
              (build "calendar" "v3"
                 (credentials_of Fake.calendar_ok CreateCalendarEvent.SCOPES)))
    as [_ Hout]; [reflexivity | reflexivity | reflexivity
                 | vm_compute; reflexivity | vm_compute; reflexivity |].
  rewrite Hout. reflexivity.
Defined.

(* --------------------------------------------------------------------- *)
(** ** Dates and durations                                                *)
(* --------------------------------------------------------------------- *)

(** [create_calendar_event.py] adds a day or an hour to the start it read.
    What that gives rests on the ordinals of [datetime]: the two
    conversions undo each other on the dates of the calendar. *)

Section Dates.

Lemma all_from_sound (ok : Z -> bool) (fuel : nat) :
  forall n, all_from ok fuel n = true ->
  forall k, n <= k < n + Z.of_nat fuel -> ok k = true.
Proof.
  induction fuel as [| fuel IH]; intros n Hok k Hk; [lia |].
  cbn [all_from] in Hok. destruct (ok n) eqn:Hn; [| discriminate].
  destruct (Z.eq_dec k n) as [-> | Hne]; [exact Hn |].
  apply (IH (n + 1) Hok). lia.
Qed.

Lemma year_day_checked (leapyear : bool) (n : Z) :
  0 <= n < 365 -> year_day_ok leapyear n = true.
Proof.
  intros Hn. destruct leapyear;
    (apply (all_from_sound _ 365 0); [vm_compute; reflexivity | lia]).
Qed.

Lemma year_day_year (y : Z) (leapyear : bool) (n : Z) :
  year_day y leapyear n =
    (y, snd (fst (year_day 0 leapyear n)), snd (year_day 0 leapyear n)).
Proof. unfold year_day. cbv zeta. destruct (n <? _); reflexivity. Qed.

Lemma dby_decomposed (n100 n4 n1 : Z) :
  0 <= n100 <= 3 -> 0 <= n4 <= 24 -> 0 <= n1 <= 3 ->
  _days_before_year (1 + n100 * 100 + n4 * 4 + n1) = 36524 * n100 + 1461 * n4 + 365 * n1.
Proof.
  intros H100 H4 H1. unfold _days_before_year. cbv zeta.
  Z.div_mod_to_equations. lia.
Qed.

Lemma leap_decomposed (n100 n4 n1 : Z) :
  0 <= n100 <= 3 -> 0 <= n4 <= 24 -> 0 <= n1 <= 3 ->
  _is_leap (1 + n100 * 100 + n4 * 4 + n1) = (n1 =? 3) && (negb (n4 =? 24) || (n100 =? 3)).
Proof.
  intros H100 H4 H1. unfold _is_leap.
  destruct (Z.eqb_spec n1 3), (Z.eqb_spec n4 24), (Z.eqb_spec n100 3); cbn;
  repeat match goal with
  | |- context [?a mod ?b =? 0] => destruct (Z.eqb_spec (a mod b) 0)
  end; cbn; try reflexivity; exfalso; Z.div_mod_to_equations; lia.
Qed.

Lemma is_leap_period (y q : Z) : _is_leap (400 * q + y) = _is_leap y.
Proof.
  unfold _is_leap.
  replace ((400 * q + y) mod 4) with (y mod 4)
    by (replace (400 * q + y) with (y + (100 * q) * 4) by lia; symmetry; apply Z_mod_plus_full).
  replace ((400 * q + y) mod 100) with (y mod 100)
    by (replace (400 * q + y) with (y + (4 * q) * 100) by lia; symmetry; apply Z_mod_plus_full).
  replace ((400 * q + y) mod 400) with (y mod 400)
    by (replace (400 * q + y) with (y + q * 400) by lia; symmetry; apply Z_mod_plus_full).
  reflexivity.
Qed.

Lemma dby_period (y q : Z) :
  _days_before_year (400 * q + y) = 146097 * q + _days_before_year y.
Proof. unfold _days_before_year. cbv zeta. Z.div_mod_to_equations. lia. Qed.

Lemma ord2ymd_decomposed (q r : Z) :
  0 <= r < 146097 ->
  let n100 := r / 36524 in
  let n4 := (r mod 36524) / 1461 in
  let n1 := ((r mod 36524) mod 1461) / 365 in
  let r1 := ((r mod 36524) mod 1461) mod 365 in
  let y := 400 * q + (1 + n100 * 100 + n4 * 4 + n1) in
  _ord2ymd (146097 * q + r + 1) =
    if (n1 =? 4) || (n100 =? 4) then (y - 1, 12, 31)
    else year_day y ((n1 =? 3) && (negb (n4 =? 24) || (n100 =? 3))) r1.
Proof.
  intros Hr. unfold _ord2ymd, year_day, _DI400Y, _DI100Y, _DI4Y. cbv zeta.
  replace (146097 * q + r + 1 - 1) with (r + q * 146097) by lia.
  rewrite Z_div_plus_full, Z_mod_plus_full by lia.
  rewrite (Z.div_small r 146097 Hr), (Z.mod_small r 146097 Hr).
  replace ((0 + q) * 400 + 1 + r / 36524 * 100 + r mod 36524 / 1461 * 4
           + (r mod 36524) mod 1461 / 365)
    with (400 * q + (1 + r / 36524 * 100 + r mod 36524 / 1461 * 4
                     + (r mod 36524) mod 1461 / 365))
    by lia.
  reflexivity.
Qed.

Lemma cycle_ok (q r : Z) : 0 <= r < 146097 -> ordinal_ok (146097 * q + r + 1) = true.
Proof.
  intros Hr. unfold ordinal_ok. rewrite (ord2ymd_decomposed q r Hr). cbv zeta.
  set (n100 := r / 36524). set (r100 := r mod 36524).
  set (n4 := r100 / 1461). set (r4 := r100 mod 1461).
  set (n1 := r4 / 365). set (r1 := r4 mod 365).
  assert (E100 : r = 36524 * n100 + r100 /\ 0 <= r100 < 36524)
    by (subst n100 r100; split; [apply Z.div_mod; lia | apply Z.mod_pos_bound; lia]).
  assert (E4 : r100 = 1461 * n4 + r4 /\ 0 <= r4 < 1461)
    by (subst n4 r4; split; [apply Z.div_mod; lia | apply Z.mod_pos_bound; lia]).
  assert (E1 : r4 = 365 * n1 + r1 /\ 0 <= r1 < 365)
    by (subst n1 r1; split; [apply Z.div_mod; lia | apply Z.mod_pos_bound; lia]).
  clearbody n100 r100 n4 r4 n1 r1.
  destruct E100 as [E100 B100], E4 as [E4 B4], E1 as [E1 B1].
  assert (0 <= n100 <= 4) by lia. assert (0 <= n4 <= 24) by lia. assert (0 <= n1 <= 4) by lia.
  destruct (Z.eqb_spec n1 4) as [H14 | H14]; cbn [orb];
    [| destruct (Z.eqb_spec n100 4) as [H1004 | H1004]].
  - (* the last day of a leap year *)
    assert (n100 <= 3 /\ n4 <= 23) as [Hn100 Hn4] by lia.
    replace (400 * q + (1 + n100 * 100 + n4 * 4 + n1) - 1)
      with (400 * q + (1 + n100 * 100 + n4 * 4 + 3)) by lia.
    unfold _ymd2ord, _days_before_month, _days_in_month.
    rewrite dby_period, is_leap_period, dby_decomposed, leap_decomposed by lia.
    replace (n4 =? 24) with false by (symmetry; apply Z.eqb_neq; lia).
    change (_DAYS_BEFORE_MONTH 12) with 334. change (_DAYS_IN_MONTH 12) with 31.
    cbn. repeat (apply andb_true_intro; split); try reflexivity. apply Z.eqb_eq. lia.
  - (* the last day of the 400 years *)
    assert (r = 146096) by lia. subst r.
    assert (n4 = 0 /\ n1 = 0) as [-> ->] by lia. subst n100.
    replace (400 * q + (1 + 4 * 100 + 0 * 4 + 0) - 1) with (400 * q + 400) by lia.
    unfold _ymd2ord, _days_before_month, _days_in_month.
    rewrite dby_period, is_leap_period.
    change (_days_before_year 400) with 145731. change (_is_leap 400) with true.
    change (_DAYS_BEFORE_MONTH 12) with 334. change (_DAYS_IN_MONTH 12) with 31.
    cbn. repeat (apply andb_true_intro; split); try reflexivity. apply Z.eqb_eq. lia.
  - (* any other day *)
    assert (n100 <= 3 /\ n1 <= 3) as [Hn100 Hn1] by lia.
    set (leap := (n1 =? 3) && (negb (n4 =? 24) || (n100 =? 3))).
    pose proof (year_day_checked leap r1 B1) as Hok. unfold year_day_ok in Hok.
    rewrite (year_day_year (400 * q + (1 + n100 * 100 + n4 * 4 + n1))).
    destruct (year_day 0 leap r1) as [[y0 m] d]. cbn [fst snd].
    unfold _ymd2ord, _days_before_month, _days_in_month.
    rewrite dby_period, is_leap_period, dby_decomposed, leap_decomposed by lia. fold leap.
    apply andb_prop in Hok as [Hok Hd]. apply andb_prop in Hok as [Hok Hd1].
    apply andb_prop in Hok as [Hok Hm12]. apply andb_prop in Hok as [Hsum Hm1].
    rewrite Hm1, Hm12, Hd1, Hd. rewrite !andb_true_r.
    apply Z.eqb_eq. apply Z.eqb_eq in Hsum. lia.
Qed.

(** Every ordinal is the ordinal of the date [_ord2ymd] gives for it, and
    that date has a month of the year and a day of that month. *)
Lemma ordinal_round_trip (n : Z) : ordinal_ok n = true.
Proof.
  assert (Hr : 0 <= (n - 1) mod 146097 < 146097) by (apply Z.mod_pos_bound; lia).
  replace n with (146097 * ((n - 1) / 146097) + (n - 1) mod 146097 + 1)
    by (pose proof (Z.div_mod (n - 1) 146097); lia).
  apply cycle_ok, Hr.
Qed.

Lemma dby_succ (y : Z) :
  _days_before_year (y + 1) = _days_before_year y + 365 + (if _is_leap y then 1 else 0).
Proof.
  unfold _days_before_year, _is_leap. cbv zeta.
  replace (y + 1 - 1) with y by lia.
  destruct (Z.eqb_spec (y mod 4) 0), (Z.eqb_spec (y mod 100) 0),
    (Z.eqb_spec (y mod 400) 0); cbn [andb orb negb];
    Z.div_mod_to_equations; lia.
Qed.

Lemma dby_mono (y y' : Z) : y <= y' -> _days_before_year y <= _days_before_year y'.
Proof.
  intros Hle. replace y' with (y + Z.of_nat (Z.to_nat (y' - y))) by lia.
  induction (Z.to_nat (y' - y)) as [| k IH].
  - replace (y + Z.of_nat 0) with y by lia. lia.
  - replace (y + Z.of_nat (S k)) with (y + Z.of_nat k + 1) by lia.
    rewrite dby_succ. destruct (_is_leap _); lia.
Qed.

Ltac month_values :=
  repeat match goal with
  | |- context [_DAYS_BEFORE_MONTH ?k] =>
      let v := eval vm_compute in (_DAYS_BEFORE_MONTH k) in
      change (_DAYS_BEFORE_MONTH k) with v
  | |- context [_DAYS_IN_MONTH ?k] =>
      let v := eval vm_compute in (_DAYS_IN_MONTH k) in
      change (_DAYS_IN_MONTH k) with v
  | H : context [_DAYS_BEFORE_MONTH ?k] |- _ =>
      let v := eval vm_compute in (_DAYS_BEFORE_MONTH k) in
      change (_DAYS_BEFORE_MONTH k) with v in H
  | H : context [_DAYS_IN_MONTH ?k] |- _ =>
      let v := eval vm_compute in (_DAYS_IN_MONTH k) in
      change (_DAYS_IN_MONTH k) with v in H
  end.

Lemma month_cases (m : Z) :
  1 <= m <= 12 ->
  m = 1 \/ m = 2 \/ m = 3 \/ m = 4 \/ m = 5 \/ m = 6 \/
  m = 7 \/ m = 8 \/ m = 9 \/ m = 10 \/ m = 11 \/ m = 12.
Proof. lia. Qed.

Ltac by_month H :=
  apply month_cases in H;
  repeat (destruct H as [H | H]; [subst |]); [.. | subst].

Lemma ymd2ord_bounds (y m d : Z) :
  1 <= m <= 12 -> 1 <= d <= _days_in_month y m ->
  _days_before_year y < _ymd2ord y m d <= _days_before_year (y + 1).
Proof.
  intros Hm Hd. rewrite dby_succ.
  unfold _ymd2ord, _days_before_month, _days_in_month in *.
  by_month Hm; destruct (_is_leap y); cbn [andb Z.eqb Z.ltb Z.compare Pos.compare Pos.eqb
    Pos.compare_cont] in *; month_values; lia.
Qed.

Lemma dbm_next (y m : Z) :
  1 <= m <= 11 ->
  _days_before_month y (m + 1) = _days_before_month y m + _days_in_month y m
  /\ 0 <= _days_in_month y m.
Proof.
  intros Hm. assert (Hm' : 1 <= m <= 12) by lia.
  unfold _days_before_month, _days_in_month.
  by_month Hm'; try lia; destruct (_is_leap y); month_values;
    (split; [reflexivity | vm_compute; discriminate]).
Qed.

Lemma dbm_mono (y m m' : Z) :
  1 <= m -> m <= m' -> m' <= 12 -> _days_before_month y m <= _days_before_month y m'.
Proof.
  intros Hm Hle. replace m' with (m + Z.of_nat (Z.to_nat (m' - m))) by lia.
  induction (Z.to_nat (m' - m)) as [| k IH]; intros Hk.
  - replace (m + Z.of_nat 0) with m by lia. lia.
  - replace (m + Z.of_nat (S k)) with (m + Z.of_nat k + 1) by lia.
    destruct (dbm_next y (m + Z.of_nat k)) as [-> Hpos]; lia.
Qed.

Lemma day_of_year_lt (y m d m' d' : Z) :
  1 <= m -> m < m' -> m' <= 12 -> d <= _days_in_month y m -> 1 <= d' ->
  _days_before_month y m + d < _days_before_month y m' + d'.
Proof.
  intros Hm Hlt Hm' Hd Hd'.
  destruct (dbm_next y m) as [Hnext _]; [lia |].
  pose proof (dbm_mono y (m + 1) m'). lia.
Qed.

Lemma ymd2ord_inj (y m d y' m' d' : Z) :
  1 <= m <= 12 -> 1 <= d <= _days_in_month y m ->
  1 <= m' <= 12 -> 1 <= d' <= _days_in_month y' m' ->
  _ymd2ord y m d = _ymd2ord y' m' d' ->
  (y, m, d) = (y', m', d').
Proof.
  intros Hm Hd Hm' Hd' Heq.
  pose proof (ymd2ord_bounds y m d Hm Hd) as Hb.
  pose proof (ymd2ord_bounds y' m' d' Hm' Hd') as Hb'.
  assert (y = y') as <-.
  { destruct (Z.lt_trichotomy y y') as [Hlt | [Heqy | Hgt]]; [| exact Heqy |].
    - pose proof (dby_mono (y + 1) y' ltac:(lia)). lia.
    - pose proof (dby_mono (y' + 1) y ltac:(lia)). lia. }
  clear Hb Hb'. unfold _ymd2ord in Heq.
  assert (m = m') as <-.
  { destruct (Z.lt_trichotomy m m') as [Hlt | [Heqm | Hgt]]; [| exact Heqm |].
    - pose proof (day_of_year_lt y m d m' d'). lia.
    - pose proof (day_of_year_lt y m' d' m d). lia. }
  repeat f_equal. lia.
Qed.

Lemma ord2ymd_fields (n y m d : Z) :
  _ord2ymd n = (y, m, d) ->
  _ymd2ord y m d = n /\ 1 <= m <= 12 /\ 1 <= d <= _days_in_month y m.
Proof.
  intros Hymd. pose proof (ordinal_round_trip n) as Hok.
  unfold ordinal_ok in Hok. rewrite Hymd in Hok.
  apply andb_prop in Hok as [Hok Hd']. apply andb_prop in Hok as [Hok Hd1].
  apply andb_prop in Hok as [Hok Hm12]. apply andb_prop in Hok as [Hsum Hm1].
  lia.
Qed.

(** [_ord2ymd] undoes [_ymd2ord] on the dates of the calendar. *)
Lemma ord2ymd_ymd2ord (y m d : Z) :
  1 <= m <= 12 -> 1 <= d <= _days_in_month y m ->
  _ord2ymd (_ymd2ord y m d) = (y, m, d).
Proof.
  intros Hm Hd. generalize (eq_refl (_ymd2ord y m d)).
  generalize (_ymd2ord y m d) at 2 3. intros n Hn.
  destruct (_ord2ymd n) as [[y' m'] d'] eqn:Hymd.
  apply ord2ymd_fields in Hymd as (Hord & Hm' & Hd').
  apply (ymd2ord_inj y' m' d' y m d); [exact Hm' | exact Hd' | exact Hm | exact Hd | lia].
Qed.

Lemma ord2ymd_year (n y m d : Z) :
  _ord2ymd n = (y, m, d) -> 0 < n <= _MAXORDINAL -> 1 <= y <= 9999.
Proof.
  intros Hymd Hn. apply ord2ymd_fields in Hymd as (Hord & Hm & Hd).
  pose proof (ymd2ord_bounds y m d Hm Hd) as Hb.
  unfold _MAXORDINAL in Hn.
  destruct (Z_lt_le_dec y 1) as [Hlow |].
  - pose proof (dby_mono (y + 1) 1 ltac:(lia)) as Hmono.
    change (_days_before_year 1) with 0 in Hmono. lia.
  - destruct (Z_lt_le_dec 9999 y) as [Hhigh |]; [| lia].
    pose proof (dby_mono 10000 y ltac:(lia)) as Hmono.
    change (_days_before_year 10000) with 3652059 in Hmono. lia.
Qed.

Lemma valid_datetime_fields (dt : datetime) :
  valid_datetime dt = true ->
  1 <= year dt <= 9999 /\ 1 <= month dt <= 12 /\
  1 <= day dt <= _days_in_month (year dt) (month dt) /\
  0 <= hour dt <= 23 /\ 0 <= minute dt <= 59 /\ 0 <= second dt <= 59.
Proof.
  unfold valid_datetime. intros Hv.
  repeat (apply andb_prop in Hv as [Hv ?]). lia.
Qed.

Lemma fields_valid_datetime (dt : datetime) :
  1 <= year dt <= 9999 -> 1 <= month dt <= 12 ->
  1 <= day dt <= _days_in_month (year dt) (month dt) ->
  0 <= hour dt <= 23 -> 0 <= minute dt <= 59 -> 0 <= second dt <= 59 ->
  valid_datetime dt = true.
Proof.
  intros. unfold valid_datetime.
  rewrite !(proj2 (Z.leb_le _ _)) by lia. reflexivity.
Qed.

(** What [dt + timedelta(days, hours)] gives is a [datetime] of the
    calendar, and it lies that many seconds after [dt]. *)
Lemma add_timedelta_ok (dt : datetime) (days hours : Z) (dt' : datetime) :
  add_timedelta dt days hours = Ok dt' ->
  valid_datetime dt' = true /\
  timestamp dt' = timestamp dt + days * 86400 + hours * 3600.
Proof.
  unfold add_timedelta. cbv zeta.
  set (secs := hour dt * 3600 + minute dt * 60 + second dt + hours * 3600).
  generalize (eq_refl (_ymd2ord (year dt) (month dt) (day dt) + days + secs / 86400)).
  generalize (_ymd2ord (year dt) (month dt) (day dt) + days + secs / 86400) at 2 3 4 5.
  intros ord Hord.
  destruct ((0 <? ord) && (ord <=? _MAXORDINAL)) eqn:Hrange; [| discriminate].
  apply andb_prop in Hrange as [Hlo Hhi].
  destruct (_ord2ymd ord) as [[y m] d] eqn:Hymd.
  pose proof (ord2ymd_year ord y m d Hymd ltac:(lia)) as Hy.
  apply ord2ymd_fields in Hymd as (Hsum & Hm & Hd).
  intros [= <-].
  assert (Hs : 0 <= secs mod 86400 < 86400) by (apply Z.mod_pos_bound; lia).
  split.
  - apply fields_valid_datetime; cbn [year month day hour minute second]; try lia.
    + split; [apply Z.div_pos; lia | ]. apply Z.lt_succ_r, Z.div_lt_upper_bound; lia.
    + pose proof (Z.mod_pos_bound (secs mod 86400) 3600 ltac:(lia)).
      split; [apply Z.div_pos; lia | ]. apply Z.lt_succ_r, Z.div_lt_upper_bound; lia.
    + pose proof (Z.mod_pos_bound ((secs mod 86400) mod 3600) 60 ltac:(lia)). lia.
  - unfold timestamp. cbn [year month day hour minute second].
    rewrite Hsum.
    pose proof (Z.div_mod secs 86400 ltac:(lia)).
    pose proof (Z.div_mod (secs mod 86400) 3600 ltac:(lia)).
    pose proof (Z.div_mod ((secs mod 86400) mod 3600) 60 ltac:(lia)).
    subst ord. fold secs. lia.
Qed.

Lemma days_in_month_pos (y m : Z) : 1 <= m <= 12 -> 28 <= _days_in_month y m.
Proof.
  intros Hm. unfold _days_in_month. apply month_cases in Hm.
  repeat (destruct Hm as [Hm | Hm]; [subst |]); [.. | subst];
    destruct (_is_leap y); month_values; vm_compute; discriminate.
Qed.

(** The date after a date of the calendar is a date of the calendar, and
    its ordinal is the next one. *)
Lemma next_date_ord (y m d : Z) :
  1 <= m <= 12 -> 1 <= d <= _days_in_month y m ->
  let '(y', m', d') := next_date y m d in
  _ymd2ord y' m' d' = _ymd2ord y m d + 1 /\
  1 <= m' <= 12 /\ 1 <= d' <= _days_in_month y' m'.
Proof.
  intros Hm Hd. unfold next_date.
  destruct (Z.ltb_spec d (_days_in_month y m)) as [Hlt | Hge].
  - unfold _ymd2ord. lia.
  - destruct (Z.ltb_spec m 12) as [Hm12 | Hm12].
    + destruct (dbm_next y m) as [Hnext _]; [lia |].
      pose proof (days_in_month_pos y (m + 1)).
      unfold _ymd2ord. rewrite Hnext. lia.
    + assert (m = 12) as -> by lia.
      pose proof (days_in_month_pos (y + 1) 1).
      unfold _ymd2ord. rewrite dby_succ.
      unfold _days_before_month, _days_in_month in *.
      destruct (_is_leap y), (_is_leap (y + 1)); month_values;
        cbn [andb Z.eqb Z.ltb Z.compare Pos.compare Pos.compare_cont Pos.eqb] in *; lia.
Qed.

(** The ordinal of a date of the years 1 to 9999 is in the range of
    [datetime]; the next ordinal is too, 9999-12-31 apart. *)
Lemma ordinal_in_range (y m d : Z) :
  1 <= y <= 9999 -> 1 <= m <= 12 -> 1 <= d <= _days_in_month y m ->
  0 < _ymd2ord y m d <= _MAXORDINAL /\
  (_ymd2ord y m d = _MAXORDINAL <-> (y =? 9999) && (m =? 12) && (d =? 31) = true).
Proof.
  intros Hy Hm Hd.
  pose proof (ymd2ord_bounds y m d Hm Hd) as Hb.
  pose proof (dby_mono 1 y ltac:(lia)) as Hlow.
  pose proof (dby_mono (y + 1) 10000 ltac:(lia)) as Hhigh.
  change (_days_before_year 1) with 0 in Hlow.
  change (_days_before_year 10000) with 3652059 in Hhigh.
  unfold _MAXORDINAL. split; [lia |]. split.
  - intros Hmax.
    assert (Hlast : (y, m, d) = (9999, 12, 31)).
    { apply ymd2ord_inj; [exact Hm | exact Hd | lia | vm_compute; split; discriminate |].
      rewrite Hmax. reflexivity. }
    injection Hlast as -> -> ->. reflexivity.
  - intros Hlast. apply andb_prop in Hlast as [Hlast Hd31].
    apply andb_prop in Hlast as [Hy9 Hm12].
    apply Z.eqb_eq in Hy9, Hm12, Hd31. subst. reflexivity.
Qed.

Lemma time_of_day (h mi s : Z) :
  0 <= h <= 23 -> 0 <= mi <= 59 -> 0 <= s <= 59 ->
  let secs := h * 3600 + mi * 60 + s in
  secs / 86400 = 0 /\ secs mod 86400 = secs /\
  secs / 3600 = h /\ (secs mod 3600) / 60 = mi /\ (secs mod 3600) mod 60 = s.
Proof.
  intros Hh Hmi Hs secs.
  assert (Hsecs : 0 <= secs < 86400) by (subst secs; lia).
  assert (H3600 : secs / 3600 = h /\ secs mod 3600 = mi * 60 + s).
  { subst secs. replace (h * 3600 + mi * 60 + s) with (mi * 60 + s + h * 3600) by lia.
    rewrite Z_div_plus_full, Z_mod_plus_full by lia.
    rewrite (Z.div_small (mi * 60 + s)), (Z.mod_small (mi * 60 + s)) by lia. lia. }
  destruct H3600 as [Hq Hr]. rewrite Hr.
  replace (mi * 60 + s) with (s + mi * 60) by lia.
  rewrite Z_div_plus_full, Z_mod_plus_full by lia.
  rewrite (Z.div_small s), (Z.mod_small s) by lia.
  rewrite Z.div_small, Z.mod_small by lia. lia.
Qed.

(** [dt + timedelta(days=1)] on a [datetime] of the calendar: the same
    time on the next day, and [OverflowError] on 9999-12-31. *)
Lemma add_one_day (dt : datetime) :
  valid_datetime dt = true ->
  add_timedelta dt 1 0 = if last_day dt then Err OverflowError else Ok (next_day dt).
Proof.
  intros Hv. apply valid_datetime_fields in Hv as (Hy & Hm & Hd & Hh & Hmi & Hs).
  destruct (time_of_day (hour dt) (minute dt) (second dt) Hh Hmi Hs)
    as (Hq & Hr & Hhour & Hminute & Hsecond).
  destruct (ordinal_in_range (year dt) (month dt) (day dt) Hy Hm Hd) as [Hrange Hmax].
  pose proof (next_date_ord (year dt) (month dt) (day dt) Hm Hd) as Hnext.
  unfold add_timedelta, next_day, last_day. cbv zeta.
  replace (hour dt * 3600 + minute dt * 60 + second dt + 0 * 3600)
    with (hour dt * 3600 + minute dt * 60 + second dt) by lia.
  rewrite Hq, Hr, Hhour, Hminute, Hsecond.
  replace (_ymd2ord (year dt) (month dt) (day dt) + 1 + 0)
    with (_ymd2ord (year dt) (month dt) (day dt) + 1) by lia.
  destruct (next_date (year dt) (month dt) (day dt)) as [[y' m'] d'].
  destruct Hnext as (Hord & Hm' & Hd'). rewrite <- Hord.
  destruct ((year dt =? 9999) && (month dt =? 12) && (day dt =? 31)) eqn:Hlast.
  - replace ((0 <? _ymd2ord y' m' d') && (_ymd2ord y' m' d' <=? _MAXORDINAL)) with false;
      [reflexivity |].
    symmetry. apply andb_false_iff. right. apply Z.leb_gt.
    destruct Hmax as [_ Hmax]. specialize (Hmax eq_refl). lia.
  - replace ((0 <? _ymd2ord y' m' d') && (_ymd2ord y' m' d' <=? _MAXORDINAL)) with true.
    + rewrite (ord2ymd_ymd2ord y' m' d' Hm' Hd'). reflexivity.
    + symmetry. apply andb_true_intro. split; [apply Z.ltb_lt; lia |].
      apply Z.leb_le.
      destruct (Z.eq_dec (_ymd2ord (year dt) (month dt) (day dt)) _MAXORDINAL) as [Heq | Hne];
        [apply Hmax in Heq; discriminate | lia].
Qed.

(** [dt + timedelta(hours=1)] on a [datetime] of the calendar: the same
    minute and second of the next hour, and [OverflowError] in the last
    hour of 9999-12-31. *)
Lemma add_one_hour (dt : datetime) :
  valid_datetime dt = true ->
  add_timedelta dt 0 1 =
    if last_day dt && (hour dt =? 23) then Err OverflowError else Ok (one_hour_later dt).
Proof.
  intros Hv. apply valid_datetime_fields in Hv as (Hy & Hm & Hd & Hh & Hmi & Hs).
  destruct (ordinal_in_range (year dt) (month dt) (day dt) Hy Hm Hd) as [Hrange Hmax].
  pose proof (next_date_ord (year dt) (month dt) (day dt) Hm Hd) as Hnext.
  unfold add_timedelta, one_hour_later, last_day. cbv zeta.
  destruct (Z.ltb_spec (hour dt) 23) as [Hlt | Hge].
  - replace (hour dt =? 23) with false by (symmetry; apply Z.eqb_neq; lia).
    rewrite andb_false_r.
    destruct (time_of_day (hour dt + 1) (minute dt) (second dt) ltac:(lia) Hmi Hs)
      as (Hq & Hr & Hhour & Hminute & Hsecond).
    replace (hour dt * 3600 + minute dt * 60 + second dt + 1 * 3600)
      with ((hour dt + 1) * 3600 + minute dt * 60 + second dt) by lia.
    rewrite Hq, Hr, Hhour, Hminute, Hsecond.
    replace (_ymd2ord (year dt) (month dt) (day dt) + 0 + 0)
      with (_ymd2ord (year dt) (month dt) (day dt)) by lia.
    replace ((0 <? _ymd2ord (year dt) (month dt) (day dt))
             && (_ymd2ord (year dt) (month dt) (day dt) <=? _MAXORDINAL)) with true
      by (symmetry; apply andb_true_intro; split; [apply Z.ltb_lt | apply Z.leb_le]; lia).
    rewrite (ord2ymd_ymd2ord _ _ _ Hm Hd). reflexivity.
  - assert (H23 : hour dt = 23) by lia. rewrite H23, Z.eqb_refl, andb_true_r.
    destruct (time_of_day 0 (minute dt) (second dt) ltac:(lia) Hmi Hs)
      as (Hq & Hr & Hhour & Hminute & Hsecond).
    replace (23 * 3600 + minute dt * 60 + second dt + 1 * 3600)
      with (0 * 3600 + minute dt * 60 + second dt + 1 * 86400) by lia.
    rewrite Z_div_plus_full, Z_mod_plus_full by lia.
    rewrite Hq, Hr, Hhour, Hminute, Hsecond.
    replace (_ymd2ord (year dt) (month dt) (day dt) + 0 + (0 + 1))
      with (_ymd2ord (year dt) (month dt) (day dt) + 1) by lia.
    destruct (next_date (year dt) (month dt) (day dt)) as [[y' m'] d'].
    destruct Hnext as (Hord & Hm' & Hd'). rewrite <- Hord.
    destruct ((year dt =? 9999) && (month dt =? 12) && (day dt =? 31)) eqn:Hlast.
    + replace ((0 <? _ymd2ord y' m' d') && (_ymd2ord y' m' d' <=? _MAXORDINAL)) with false;
        [reflexivity |].
      symmetry. apply andb_false_iff. right. apply Z.leb_gt.
      destruct Hmax as [_ Hmax]. specialize (Hmax eq_refl). lia.
    + replace ((0 <? _ymd2ord y' m' d') && (_ymd2ord y' m' d' <=? _MAXORDINAL)) with true.
      * rewrite (ord2ymd_ymd2ord y' m' d' Hm' Hd'). reflexivity.
      * symmetry. apply andb_true_intro. split; [apply Z.ltb_lt; lia |].
        apply Z.leb_le.
        destruct (Z.eq_dec (_ymd2ord (year dt) (month dt) (day dt)) _MAXORDINAL)
          as [Heq | Hne]; [apply Hmax in Heq; discriminate | lia].
Qed.

Lemma strptime_valid (s fmt : pystr) (dt : datetime) :
  strptime s fmt = Ok dt -> valid_datetime dt = true.
Proof. unfold strptime. repeat case_match; intros; simplify_eq; assumption. Qed.

End Dates.

(** ** The start and the end of an event *)

Section CalendarDates.
Import CreateCalendarEvent.

(** X18: an all-day event ends on the calendar day after its date: for a
    date [strptime] reads with [%Y-%m-%d] the start is that date and the
    end is the next day, across the ends of months and years and on 29
    February.  On 9999-12-31 there is no next day: the addition raises
    [OverflowError], which nothing catches. *)
Theorem all_day_end_is_next_day (args : Namespace) (date : pystr) (dt : datetime) :
  strptime date (lit "%Y-%m-%d") = Ok dt ->
  all_day_start_end args date =
    if last_day dt then Err OverflowError
    else Ok ( [ (lit "date", VStr (strftime_Ymd dt)) ],
              [ (lit "date", VStr (strftime_Ymd (next_day dt))) ] ).
Proof.
  intros Hparse. unfold all_day_start_end, parse_date.
  rewrite Hparse. cbn [rbind].
  rewrite (add_one_day dt (strptime_valid _ _ _ Hparse)).
  destruct (last_day dt); reflexivity.
Qed.

(** X19: a timed event without [--end] whose start is written in the first
    format of [parse_datetime], [%Y-%m-%d %H:%M] (the date, white space,
    hours and minutes: not the forms with [T] or with seconds), lasts one
    hour: the end is the same minute of the next hour, on the next calendar
    day when the start is in hour 23, and both carry the time zone of the
    command line.  In the last hour of 9999-12-31 the addition raises
    [OverflowError]. *)
Theorem default_end_one_hour_later (args : Namespace) (s : pystr) (dt : datetime) :
  strptime s (lit "%Y-%m-%d %H:%M") = Ok dt ->
  truthy_str (end_ args) = false ->
  timed_start_end args s =
    if last_day dt && (hour dt =? 23) then Err OverflowError
    else Ok ( [ (lit "dateTime", VStr (isoformat dt));
                (lit "timeZone", VStr (timezone args)) ],
              [ (lit "dateTime", VStr (isoformat (one_hour_later dt)));
                (lit "timeZone", VStr (timezone args)) ] ).
Proof.
  intros Hparse Hend.
  rewrite (default_end_for_minute_start args s dt Hparse Hend).
  rewrite (add_one_hour dt (strptime_valid _ _ _ Hparse)).
  destruct (last_day dt && (hour dt =? 23)); reflexivity.
Qed.

(** X20: whatever the start and the end of a timed event were read from,
    both are sent as a [dateTime] in ISO form of a [datetime] of the
    calendar, and both carry the time zone of the command line: the zone
    [parse_datetime] writes is always replaced. *)
Theorem timed_event_zone (args : Namespace) (s : pystr) (st en : pydict) :
  timed_start_end args s = Ok (st, en) ->
  exists a b,
    valid_datetime a = true /\ valid_datetime b = true /\
    st = [ (lit "dateTime", VStr (isoformat a)); (lit "timeZone", VStr (timezone args)) ] /\
    en = [ (lit "dateTime", VStr (isoformat b)); (lit "timeZone", VStr (timezone args)) ].
Proof.
  unfold timed_start_end.
  destruct (parse_datetime s) as [st0 | e0] eqn:Hstart; [| discriminate].
  destruct (parse_datetime_ok s st0 Hstart) as (a & Hva & ->).
  cbn [rbind]. destruct (truthy_str (end_ args)).
  - destruct (parse_datetime (default (lit "") (end_ args))) as [en0 | e0] eqn:Hend;
      [| discriminate].
    destruct (parse_datetime_ok _ en0 Hend) as (b & Hvb & ->).
    intros [= <- <-]. exists a, b. repeat split; assumption.
  - destruct (strptime _ _) as [start_dt | e]; [| discriminate]. cbn [rbind].
    destruct (add_timedelta start_dt 0 1) as [end_dt | e] eqn:Hadd; [| discriminate].
    intros [= <- <-]. exists a, end_dt.
    destruct (add_timedelta_ok _ _ _ _ Hadd) as [Hvb _].
    repeat split; assumption.
Qed.

(** X21: the event [create_event] sends always has the summary, the start
    and the end it was given; it has a description and a location exactly
    when the argument is a string that is not empty, and reminders exactly
    when the minutes are not 0. *)
Theorem event_body_fields (title : pystr) (start end_ : pydict)
    (description location : option pystr) (minutes : Z) :
  let body := event_body title start end_ description location (Some minutes) in
  dict_get (lit "summary") body = Some (VStr title) /\
  dict_get (lit "start") body = Some (VDict start) /\
  dict_get (lit "end") body = Some (VDict end_) /\
  dict_get (lit "description") body
    = (if truthy_str description then option_map VStr description else None) /\
  dict_get (lit "location") body
    = (if truthy_str location then option_map VStr location else None) /\
  (dict_get (lit "reminders") body = None <-> minutes = 0).
Proof.
  intros body. subst body. unfold event_body.
  destruct description as [[| c1 s1] |], location as [[| c2 s2] |];
    destruct (Z.eqb_spec minutes 0) as [Hz | Hz];
    (repeat split; try reflexivity; try (intros _; exact Hz);
     try (intros Habs; first [discriminate Habs | contradiction])).
Qed.

End CalendarDates.

Lemma all_day_end_is_next_day_witness :
  CreateCalendarEvent.all_day_start_end
    (CreateCalendarEvent.parse_args (Fake.trip "2024-02-28")) (lit "2024-02-28")
  = Ok ( [ (lit "date", VStr (lit "2024-02-28")) ],
         [ (lit "date", VStr (lit "2024-02-29")) ] ).
Proof.
  rewrite (all_day_end_is_next_day _ (lit "2024-02-28") (mk_datetime 2024 2 28 0 0 0));
    vm_compute; reflexivity.
Defined.

Lemma default_end_one_hour_later_witness :
  CreateCalendarEvent.timed_start_end
    (CreateCalendarEvent.parse_args (Fake.meeting "2026-12-31 23:30")) (lit "2026-12-31 23:30")
  = Ok ( [ (lit "dateTime", VStr (lit "2026-12-31T23:30:00"));
           (lit "timeZone", VStr (lit "America/Phoenix")) ],
         [ (lit "dateTime", VStr (lit "2027-01-01T00:30:00"));
           (lit "timeZone", VStr (lit "America/Phoenix")) ] ).
Proof.
  rewrite (default_end_one_hour_later _ (lit "2026-12-31 23:30")
             (mk_datetime 2026 12 31 23 30 0));
    vm_compute; reflexivity.
Defined.

Lemma timed_event_zone_witness :
  exists a b,
    valid_datetime a = true /\ valid_datetime b = true /\
    [ (lit "dateTime", VStr (lit "2026-02-10T14:00:00"));
      (lit "timeZone", VStr (lit "Europe/Paris")) ]
    = [ (lit "dateTime", VStr (isoformat a)); (lit "timeZone", VStr (lit "Europe/Paris")) ] /\
    [ (lit "dateTime", VStr (lit "2026-02-10T16:30:00"));
      (lit "timeZone", VStr (lit "Europe/Paris")) ]
    = [ (lit "dateTime", VStr (isoformat b)); (lit "timeZone", VStr (lit "Europe/Paris")) ].
Proof.
  apply (timed_event_zone (CreateCalendarEvent.parse_args Fake.paris_meeting)
           (lit "2026-02-10 14:00")).
  vm_compute. reflexivity.
Defined.

(** ** The order of the calls of a run *)

Section FetchOrder.
Context {R : Type} `{Remote R}.
Import FetchEmail.

Lemma sync_log_sync_calls (emails : list email) (l : list call) :
  sync_log emails l -> Forall (fun c => sync_call c = true) l.
Proof.
  induction 1; repeat (apply List.Forall_cons; [reflexivity |]);
    first [assumption | apply List.Forall_nil].
Qed.

(** X22: the calls of a run of [fetch_email.py] come in two phases.  All
    calls for the credential, the listing and the fetching of messages are
    made first; once the first note has gone to the sink the run only posts
    notes and marks messages as read.  Every mail has been fetched before
    the first is put away. *)
Theorem fetch_before_sync (w : world R) :
  exists before loop,
    log_of (main w) = before ++ loop /\
    Forall (fun c => sync_call c = false) before /\
    Forall (fun c => sync_call c = true) loop.
Proof.
  destruct (main_log w) as (before & emails & loop & Hlog & Hb & Hloop).
  exists before, loop. split; [exact Hlog |]. split; [exact Hb |].
  exact (sync_log_sync_calls emails loop Hloop).
Qed.

End FetchOrder.

Section SendRun.
Context {R : Type} `{Remote R}.
Variable mime_raw : pystr -> pystr -> pystr -> pystr.


End SendRun.

(** ** An empty inbox *)

Section EmptyInbox.
Context {R : Type} `{Remote R}.
Import FetchEmail.

(** X24: when the listing shows no unread mail (no [messages] key, or an
    empty list), a run says so and ends well right there: the listing is
    its last call, no message is fetched, nothing goes to the sink, and
    [Done!] is not printed. *)
Theorem empty_inbox_ends_run (w : world R) (service : Service)
    (ids : option (list pystr)) (r' : R) :
  bool_decide (lit "--auth" ∈ argv (proc w)) = false ->
  truthy_str (MEMOS_API_TOKEN (proc w)) = true ->
  let w1 := mk_world (proc w) (token_file w) (credentials_file w)
              (stdout w ++ [lit "Connecting to Gmail..."]) (remote w) in
  let w2 := world_of (get_gmail_service w1) in
  outcome_of (get_gmail_service w1) = Ret service ->
  messages_list [lit "INBOX"; lit "UNREAD"] 10 (remote w2) = (Ok ids, r') ->
  default [] ids = [] ->
  main w =
    ( Ret tt,
      mk_world (proc w2) (token_file w2) (credentials_file w2)
        (stdout w2 ++ [lit "Fetching unread emails..."; lit "No unread emails."]) r',
      log_of (get_gmail_service w1)
        ++ [MessagesList [lit "INBOX"; lit "UNREAD"] 10 (Ok ids)] ).
Proof.
  intros Hauth Htoken w1 w2. subst w2 w1.
  unfold main. unfold bind at 1, get_process at 1. cbv beta iota.
  rewrite Hauth, Htoken. cbn [negb].
  unfold get_unread_emails, bind, print, remote_call. cbv beta iota.
  set (w1 := mk_world _ _ _ _ _).
  unfold outcome_of, world_of, log_of.
  destruct (get_gmail_service w1) as [[[sv | e | c] w2] l]; cbn;
    intros Hret Hlist Hempty; try discriminate Hret.
  rewrite Hlist. cbn. rewrite Hempty. cbn.
  rewrite <- !app_assoc. reflexivity.
Qed.

End EmptyInbox.

Lemma empty_inbox_ends_run_witness :
  let w := Fake.start_world (Fake.configured [lit "fetch_email.py"]) (Some Fake.mail_only)
             Fake.friendly in
  outcome_of (FetchEmail.main w) = Ret tt /\
  log_of (FetchEmail.main w) = [MessagesList [lit "INBOX"; lit "UNREAD"] 10 (Ok None)].
Proof.
  intros w.
  rewrite (empty_inbox_ends_run w
             (build "gmail" "v1" (credentials_of Fake.mail_only FetchEmail.SCOPES))
             None Fake.friendly);
    [split; reflexivity | reflexivity ..].
Defined.
